(* ===== verification/_CoqProject ===== *)
-Q . S2P
Prelude.v
Values.v
Sql.v
Engine.v
Updates.v
Conn.v
Preserve.v
Dal.v
Invariant.v
Refine.v
Locks.v
Demo.v
