(* ===== verification/Prelude.v ===== *)
(** * A verification development for the SQLite inventory/sales tracker

    The program (src/bazajedenplik.py, one Python module) is a thin data
    access layer over Python's [sqlite3] driver: [create_connection],
    [execute_sql], [add_item], [add_sale], [select_all], [select_where],
    [update], [delete_where], and a demonstration script under
    [if __name__ == "__main__"] that creates the schema of two tables
    ([items], [sales]), inserts two items and two sales, queries,
    updates the status of sale 1 and deletes it.  The functions build
    SQL text (f-strings, [" AND ".join], [", ".join]) from the table name
    and from Python keyword arguments, bind the values positionally, and
    commit after every change.  All of the program's behaviour therefore
    lives in the interplay of three parts: the text the code builds, the
    way the database engine reads and executes that text, and the way the
    driver threads connections, transactions and exceptions.

    ** Files, in dependency order
    - [Prelude] (this file): the Python effect monad [PyM] (state plus an
      exception outcome, with effects before a raise kept, as in Python),
      its notation in [py_scope], [str.join] as [py_join], the character
      classes of the SQL lexer, lists keyed by rowid ([insert_by_key],
      [sort_by_key], [filter_key_unique]), the hint databases [dal] and
      [dal_rw] and the tactics shared by all files.
    - [Values]: SQLite values and Python values, binding of a Python
      value to a statement parameter (64-bit range, [OverflowError],
      [bind_values_none]), column affinity from the declared type name,
      decimal text of integers and its parse, SQL equality.
    - [Sql]: the engine's front end for the statement forms the program
      produces: a lexer (a left fold over the characters, a state per
      token kind, [--] comments) and a parser for SELECT, INSERT, UPDATE,
      DELETE and CREATE TABLE; the lemmas that the text the program
      builds lexes to the expected tokens.
    - [Engine]: tables and rows (rows ordered by rowid, the INTEGER
      PRIMARY KEY column aliased to the rowid), [prepare] and [run] for
      each statement form with its errors (no such table/column, NOT
      NULL, datatype mismatch, UNIQUE, rowid exhaustion), the
      well-formedness invariant [wf_db], its preservation by every
      statement ([run_preserves_wf]) and a boolean decision of it.
    - [Updates]: what an UPDATE does to a row: the value a SET list
      leaves at each position ([assigned]), the columns not named kept,
      idempotence of an update keyed by rowid, its failures all
      constraint failures.
    - [Conn]: the driver: database files shared by connections (a gmap
      by path), connections with their implicit transactions (BEGIN
      before a DML statement, after [prepare] and before the parameters
      are bound, as CPython's [_pysqlite_query_execute] orders them;
      [commit]; rollback on [close]), the write lock a transaction takes
      with its first write, cursors, the exception classes of [sqlite3];
      the lemmas giving [execute] on each path (read, write, DDL in
      autocommit mode, write then commit, syntax error, unknown table,
      overflow, write refused by the lock) and, conversely, what a run
      that returns must have done ([execute_dml_inv],
      [execute_commit_inv]).
    - [Preserve]: [preserves P m] (a computation keeps a predicate of the
      world whatever it returns or raises) and its composition lemmas
      through [py_bind], [py_try], [if] and [match], in the hint database
      [preserve] with the tactic [preserve_solve]: the one Hoare-style
      framework the invariants below share.
    - [Dal]: the program's functions, one definition each, built from the
      source line by line (the f-strings, the loops as folds, the joins,
      [try]/[except] as [py_try] with the class the source names); the
      functional, error and round-trip theorems about them.
    - [Invariant]: [wf_world] (every file and every open transaction
      well formed), [keeps] (a computation preserves it whatever it
      returns or raises, an instance of [Preserve]), the calls of the
      program as a state machine ([call], [perform], [reachable]) and
      [reachable_wf]: every reachable world is well formed.  This is what
      justifies the hypothesis [wf_world] of the refinement theorems; it
      is a property of the engine and driver model, which holds for any
      program built from these calls, and so it is not a claim.
    - [Refine]: the abstract contract of the writes: a table as a finite
      map from id to values ([tmap], a stdpp [gmap]), insertion at a fresh
      key ([inserted]), removal of the matching entries ([deleted]) and
      rewriting of the entry at one key ([updated], stdpp's [alter]),
      the other tables untouched; the sorted-list operations of [Engine]
      shown to implement the map operations, and the functions shown to
      refine the contract on every run that returns.
    - [Locks]: the write lock between connections: the discipline
      [lock_ok] (outside a transaction a connection holds no lock),
      [keeps_lock h] (a computation touches only connection [h], within
      the discipline, an instance of [Preserve]); a write through [h]
      that returns ends with a [commit] that releases the lock.
    - [Demo]: the [__main__] script as one [PyM] computation; the schema
      script ([create_items_sql], [create_sales_sql]) on any store (C6);
      the script's runs on a fresh store and on the store a run leaves,
      as examples of the findings; and the witnesses: every theorem with
      hypotheses applied at a concrete store (the one a run leaves, and,
      for C20, that store with a second connection while the first holds
      the lock a failed [update] took), its hypotheses decided by
      evaluation.

    ** What the theorems show (claims C1-C23 of PROJECT.json)
    - functional behaviour of the operations, on an open connection
      outside a transaction with no other writer: an item inserted by
      [add_item] is committed and found alone by [select_where] on its id
      (C1, [Dal.add_item_then_select]); [select_where] changes nothing and
      returns exactly the rows satisfying every filter (C2); [update]
      commits, keeps the rowid and every column not named and sets the
      named ones (C3), and is idempotent (C4); [delete_where] leaves
      exactly the rows not matching and is a no-op when none match (C5);
      the schema script creates each table with its declared columns
      when it is missing and changes nothing when it exists (C6);
      [select_all] returns every row of the named table, or lets "no such
      table" escape (C7); [add_item] returns the largest id plus one, 1
      on an empty table (C17);
    - safety and equivalence of the reads: [select_all] and
      [select_where] change nothing, whatever their arguments and on every
      error path (C15); the order of the filters does not matter (C16);
    - refinement: every [add_item]/[add_sale] that returns is an insertion
      at a fresh key of the abstract table, and every [delete_where] that
      returns is a filter of it, and every [update] by id that prints
      "OK" rewrites the entry at that id with the SET list, the other
      tables unchanged (C18, C19, C22);
    - errors: a constraint failure escapes [update] as [IntegrityError]
      and leaves the transaction open (C8); empty filters are a syntax
      error (C9); an integer outside the 64-bit range makes [add_item]
      raise [OverflowError] after the implicit BEGIN, so the exception
      escapes and leaves the connection in an open transaction (C10); a
      refused path gives [None] and then [AttributeError] (C11); while
      another connection holds the write lock, [add_item] raises
      "database is locked" and [update] swallows it (C20); an error
      [update] prints is an [OperationalError] and comes with no file
      changed (C23);
    - liveness: the lock a connection holds is released by its next
      [add_item], [add_sale] or [delete_where] that returns, after which
      no connection's write is refused (C21);
    - round trips: the statements built by [select_where], [update] and
      [delete_where] read back as the intended statement when the names
      are SQL identifiers (C12-C14).

    ** Modelling choices (the environment, not the repository's code)
    The SQLite engine and the [sqlite3] driver are not code of this
    repository; they are modelled only as far as the program exercises
    them, from SQLite's documented behaviour: the statement forms above
    (WHERE is a conjunction of [col = ?]), storage classes NULL, INTEGER
    and TEXT (no REAL or BLOB values: the program never produces them),
    a text that is a decimal integer literal in the 64-bit range
    converted by INTEGER/NUMERIC affinity (whitespace around it and real
    literals are not), FOREIGN KEY clauses recorded but not enforced
    (SQLite's [foreign_keys] pragma is off by default and the program
    never sets it), identifiers compared ASCII-case-insensitively, the
    keywords of these statement forms reserved.  A transaction reads
    the file as committed until its first write takes the write lock,
    from then on its own view, and its [commit] writes the file only if
    it wrote; readers take no lock (the shared locks of the rollback
    journal are not modelled, so a read never makes a writer wait).  When the largest rowid
    is 2^63-1, SQLite picks a random unused rowid; the model reports
    SQLITE_FULL there instead.  Printing is recorded as events, not as
    Python's [repr] text.  The lexer is a structural fold over the input;
    the column list of CREATE TABLE is parsed with fuel equal to the
    number of tokens left, enough since each step consumes at least one
    token; every other parser recurses structurally on the token list.

    No claim is of kind termination: every loop of the source is a [for]
    over the keyword arguments, modelled as a fold, and the script is
    straight-line, so every definition of the model is total by
    construction; the only fuel (the CREATE TABLE column list) belongs
    to the engine model, not to the repository's code.

    ** Not modelled
    Python's [repr] of the printed values (events stand for them), the
    REAL and BLOB storage classes, SQL forms the program never builds,
    and concurrency beyond several connections of one process taking
    turns (the program is single-threaded). *)

From Stdlib Require Export String Ascii ZArith Sorted Permutation.
From stdpp Require Export base list strings gmap.

Declare Scope py_scope.
Delimit Scope py_scope with py.

Create HintDb dal discriminated.

(** ** The Python effect monad

    A computation of the program reads and writes a state [S] (the
    database files, the connections, the standard output) and ends
    either normally with a value or with a raised exception of type [E].
    Effects performed before a raise are kept, as in Python. *)

Inductive outcome (E A : Type) : Type :=
  | Ok (a : A)
  | Raise (e : E).
Arguments Ok {E A} a.
Arguments Raise {E A} e.

Definition PyM (S E A : Type) : Type := S -> outcome E A * S.

Section PyMonad.
Context {S E : Type}.

Definition py_ret {A} (a : A) : PyM S E A := fun s => (Ok a, s).

Definition py_bind {A B} (m : PyM S E A) (k : A -> PyM S E B) : PyM S E B :=
  fun s => match m s with
           | (Ok a, s') => k a s'
           | (Raise e, s') => (Raise e, s')
           end.

Definition py_raise {A} (e : E) : PyM S E A := fun s => (Raise e, s).

(** [try: m except <class> as e: h e]: [handles e] says whether the
    except clause names the class of [e]. *)
Definition py_try {A} (m : PyM S E A) (handles : E -> bool)
    (h : E -> PyM S E A) : PyM S E A :=
  fun s => match m s with
           | (Raise e, s') => if handles e then h e s' else (Raise e, s')
           | r => r
           end.

Definition py_get : PyM S E S := fun s => (Ok s, s).
Definition py_put (s : S) : PyM S E unit := fun _ => (Ok tt, s).
Definition py_modify (f : S -> S) : PyM S E unit := fun s => (Ok tt, f s).

Lemma py_bind_ret {A B} (a : A) (k : A -> PyM S E B) s :
  py_bind (py_ret a) k s = k a s.
Proof. reflexivity. Qed.

Lemma py_bind_assoc {A B C} (m : PyM S E A) (k : A -> PyM S E B)
    (k' : B -> PyM S E C) s :
  py_bind (py_bind m k) k' s = py_bind m (fun a => py_bind (k a) k') s.
Proof. unfold py_bind. destruct (m s) as [[a|e] s']; reflexivity. Qed.

Lemma py_bind_ok {A B} (m : PyM S E A) (k : A -> PyM S E B) s a s' :
  m s = (Ok a, s') -> py_bind m k s = k a s'.
Proof. unfold py_bind. intros ->. reflexivity. Qed.

Lemma py_bind_raise {A B} (m : PyM S E A) (k : A -> PyM S E B) s e s' :
  m s = (Raise e, s') -> py_bind m k s = (Raise e, s').
Proof. unfold py_bind. intros ->. reflexivity. Qed.

(** A sequence that returns: its first part returned. *)
Lemma py_bind_ok_inv {A B} (m : PyM S E A) (k : A -> PyM S E B) s b s' :
  py_bind m k s = (Ok b, s') -> exists a s1, m s = (Ok a, s1) /\ k a s1 = (Ok b, s').
Proof. unfold py_bind. destruct (m s) as [[a|e] s1]; [eauto | discriminate]. Qed.

(** A [try] that returns: its body returned, or raised an exception the
    clause handles and the handler returned. *)
Lemma py_try_ok_inv {A} (m : PyM S E A) handles (h : E -> PyM S E A) s a s' :
  py_try m handles h s = (Ok a, s') ->
  m s = (Ok a, s') \/ exists e s1, m s = (Raise e, s1) /\ handles e = true /\ h e s1 = (Ok a, s').
Proof.
  unfold py_try. destruct (m s) as [[b|e] s1]; [now left|].
  destruct (handles e) eqn:He; [|discriminate]. intros H. right. eauto.
Qed.
End PyMonad.

Notation "x <- m ;; k" := (py_bind m (fun x => k))
  (at level 100, m at next level, right associativity) : py_scope.
Notation "m ;; k" := (py_bind m (fun _ => k))
  (at level 100, right associativity) : py_scope.

Create Rewrite HintDb dal_rw.
#[export] Hint Rewrite @py_bind_ret @py_bind_assoc : dal_rw.

(** ** Python strings

    Text is kept as the UTF-8 bytes SQLite stores ([string] of [ascii]
    bytes). [py_join sep xs] is Python's [sep.join(xs)]. *)

Local Open Scope string_scope.

Fixpoint py_join (sep : string) (xs : list string) : string :=
  match xs with
  | [] => ""
  | [x] => x
  | x :: xs' => x ++ sep ++ py_join sep xs'
  end.

Lemma py_join_cons2 sep x y xs :
  py_join sep (x :: y :: xs) = x ++ sep ++ py_join sep (y :: xs).
Proof. reflexivity. Qed.

(** stdpp makes [String.append] opaque to [simpl]; these are its
    defining equations. *)
Lemma str_app_nil_l (b : string) : "" ++ b = b.
Proof. reflexivity. Qed.

Lemma str_app_cons c (a b : string) : String c a ++ b = String c (a ++ b).
Proof. reflexivity. Qed.

Lemma str_app_assoc (a b c : string) : (a ++ b) ++ c = a ++ (b ++ c).
Proof.
  induction a as [|ch a IH]; [reflexivity|].
  rewrite !str_app_cons, IH. reflexivity.
Qed.

Lemma str_app_nil_r (a : string) : a ++ "" = a.
Proof. induction a as [|ch a IH]; [reflexivity|]. rewrite str_app_cons, IH. reflexivity. Qed.

#[export] Hint Rewrite str_app_nil_l str_app_cons str_app_assoc str_app_nil_r : dal_rw.

(** The newline character of Python's triple-quoted strings. *)
Definition nl : string := String (ascii_of_nat 10) EmptyString.

(** ** Character classes of the SQL lexer (SQLite's tokenizer) *)

Definition is_digit (c : ascii) : bool :=
  (48 <=? nat_of_ascii c)%nat && (nat_of_ascii c <=? 57)%nat.

(** Letters, [_] and every byte of a multi-byte UTF-8 sequence start an
    identifier in SQLite. *)
Definition is_ident_start (c : ascii) : bool :=
  let n := nat_of_ascii c in
  (((65 <=? n) && (n <=? 90)) || ((97 <=? n) && (n <=? 122))
   || (n =? 95) || (128 <=? n))%nat.

Definition is_ident_char (c : ascii) : bool := is_ident_start c || is_digit c.

Definition is_space (c : ascii) : bool :=
  let n := nat_of_ascii c in ((n =? 32) || (n =? 10) || (n =? 9) || (n =? 13))%nat.

(** ASCII upper-casing, by which SQLite compares keywords and names. *)
Definition ascii_upper (c : ascii) : ascii :=
  let n := nat_of_ascii c in
  if ((97 <=? n) && (n <=? 122))%nat then ascii_of_nat (n - 32) else c.

Fixpoint str_upper (s : string) : string :=
  match s with
  | EmptyString => EmptyString
  | String c s' => String (ascii_upper c) (str_upper s')
  end.

(** Case-insensitive equality of names. *)
Definition name_eqb (a b : string) : bool := String.eqb (str_upper a) (str_upper b).

Lemma name_eqb_refl a : name_eqb a a = true.
Proof. apply String.eqb_refl. Qed.

Lemma name_eqb_sym a b : name_eqb a b = name_eqb b a.
Proof. apply String.eqb_sym. Qed.

Lemma name_eqb_trans a b c : name_eqb a b = true -> name_eqb b c = true -> name_eqb a c = true.
Proof. unfold name_eqb. rewrite !String.eqb_eq. congruence. Qed.

#[export] Hint Resolve name_eqb_refl : dal.

(** ** Tactics shared by the development *)

(** Case on every boolean test of the goal that a hypothesis decides. *)
Ltac invc H := inversion H; subst; clear H.

Ltac destruct_ifs :=
  repeat match goal with
         | |- context [if ?b then _ else _] =>
             let E := fresh "E" in destruct b eqn:E
         end.

(** The character classes are disjoint where the lexer needs it. *)
Lemma ident_start_not_space c : is_ident_start c = true -> is_space c = false.
Proof.
  unfold is_ident_start, is_space. generalize (nat_of_ascii c) as n. intros n H.
  rewrite ?Bool.orb_true_iff, ?Bool.andb_true_iff, ?Nat.leb_le, ?Nat.eqb_eq in H.
  apply Bool.not_true_iff_false. intros H'.
  rewrite ?Bool.orb_true_iff, ?Nat.eqb_eq in H'. lia.
Qed.

Lemma ident_start_ident_char c : is_ident_start c = true -> is_ident_char c = true.
Proof. unfold is_ident_char. intros ->. reflexivity. Qed.

(** ** Results of the engine: [inl] an error, [inr] a value *)

Notation "x <-? m ;; k" := (match m with inr x => k | inl e => inl e end)
  (at level 100, m at next level, right associativity) : py_scope.

(** ** Lists *)

Lemma Forall_Forall2_impl {A B} (P : A -> Prop) (R S : A -> B -> Prop) l k :
  Forall P l -> Forall2 R l k -> (forall x y, P x -> R x y -> S x y) -> Forall2 S l k.
Proof. intros Hp Hr Himp. induction Hr; invc Hp; constructor; auto. Qed.

(** ** Strictly increasing keys, kept by filtering and by sorted insertion *)

Section SortedKeys.
Context {A : Type}.

Fixpoint insert_by_key (r : Z * A) (rows : list (Z * A)) : list (Z * A) :=
  match rows with
  | [] => [r]
  | r' :: rs => if (r.1 <? r'.1)%Z then r :: rows else r' :: insert_by_key r rs
  end.

Fixpoint sort_by_key (rows : list (Z * A)) : list (Z * A) :=
  match rows with
  | [] => []
  | r :: rs => insert_by_key r (sort_by_key rs)
  end.

Lemma insert_by_key_perm r rows : Permutation (insert_by_key r rows) (r :: rows).
Proof.
  induction rows as [|r' rs IH]; simpl; [reflexivity|].
  destruct (r.1 <? r'.1)%Z; [reflexivity|].
  rewrite IH. apply perm_swap.
Qed.

Lemma sort_by_key_perm rows : Permutation (sort_by_key rows) rows.
Proof.
  induction rows as [|r rs IH]; simpl; [reflexivity|].
  rewrite insert_by_key_perm, IH. reflexivity.
Qed.

Lemma insert_by_key_sorted r rows :
  StronglySorted Z.lt (map fst rows) -> ~ In r.1 (map fst rows) ->
  StronglySorted Z.lt (map fst (insert_by_key r rows)).
Proof.
  induction rows as [|r' rs IH]; intros Hs Hn; simpl.
  - repeat constructor.
  - inversion Hs as [|? ? Hs' Hall]; subst.
    destruct (Z.ltb_spec r.1 r'.1) as [Hlt|Hge].
    + simpl. constructor; [exact Hs|]. constructor; [exact Hlt|].
      eapply Forall_impl; [exact Hall|]. intros x Hx. lia.
    + assert (r.1 <> r'.1) by (intros E; apply Hn; rewrite E; now left).
      simpl. constructor.
      * apply IH; [exact Hs'|]. intros Hin. apply Hn. right. exact Hin.
      * assert (Hperm := insert_by_key_perm r rs).
        apply (Permutation_map fst) in Hperm.
        rewrite Hperm. simpl. constructor; [lia | exact Hall].
Qed.

Lemma sort_by_key_sorted rows :
  List.NoDup (map fst rows) -> StronglySorted Z.lt (map fst (sort_by_key rows)).
Proof.
  induction rows as [|r rs IH]; intros Hnd; simpl; [constructor|].
  simpl in Hnd. inversion Hnd as [|? ? Hnin Hnd']; subst.
  apply insert_by_key_sorted; [now apply IH|].
  rewrite (Permutation_map fst (sort_by_key_perm rs)). assumption.
Qed.

Lemma sort_by_key_id rows :
  StronglySorted Z.lt (map fst rows) -> sort_by_key rows = rows.
Proof.
  induction rows as [|r rs IH]; intros Hs; simpl; [reflexivity|].
  inversion Hs as [|? ? Hs' Hall]; subst. rewrite IH by exact Hs'.
  destruct rs as [|r' rs]; simpl; [reflexivity|].
  inversion Hall; subst. destruct (Z.ltb_spec r.1 r'.1); [reflexivity | lia].
Qed.

Lemma sorted_keys_filter (f : Z * A -> bool) rows :
  StronglySorted Z.lt (map fst rows) -> StronglySorted Z.lt (map fst (List.filter f rows)).
Proof.
  induction rows as [|r rs IH]; intros Hs; simpl; [constructor|].
  inversion Hs as [|? ? Hs' Hall]; subst.
  destruct (f r); simpl; [|now apply IH].
  constructor; [now apply IH|].
  apply List.Forall_forall. intros x Hx. apply in_map_iff in Hx as (r' & <- & Hin).
  apply List.filter_In in Hin as [Hin _].
  apply (proj1 (List.Forall_forall _ _) Hall). now apply in_map.
Qed.
Lemma filter_key_none k (rows : list (Z * A)) :
  Forall (Z.lt k) (map fst rows) -> List.filter (fun r' => (r'.1 =? k)%Z) rows = [].
Proof.
  induction rows as [|r rs IH]; intros H; [reflexivity|].
  simpl in H. apply Forall_cons in H as [Hk H]. simpl.
  destruct (Z.eqb_spec r.1 k); [lia|]. now apply IH.
Qed.

(** In a table with strictly increasing keys, the key of a row selects
    that row alone. *)
Lemma filter_key_unique (r : Z * A) (rows : list (Z * A)) :
  StronglySorted Z.lt (map fst rows) -> In r rows ->
  List.filter (fun r' => (r'.1 =? r.1)%Z) rows = [r].
Proof.
  induction rows as [|r0 rs IH]; intros Hs Hin; [destruct Hin|].
  simpl in Hs. apply StronglySorted_inv in Hs as [Hs Hlt]. simpl.
  destruct Hin as [-> | Hin].
  - rewrite Z.eqb_refl. f_equal. now apply filter_key_none.
  - assert (r0.1 < r.1)%Z.
    { rewrite List.Forall_forall in Hlt. apply Hlt, in_map, Hin. }
    destruct (Z.eqb_spec r0.1 r.1); [lia|]. now apply IH.
Qed.

End SortedKeys.
