(* ===== verification/Values.v ===== *)
(** * Values: SQLite storage values, Python values and their conversions

    The program hands Python values ([str], [int], [None]) to the driver
    as statement parameters ([cur.execute(sql, values)]); the driver binds
    them as SQLite values, and the engine converts them by the affinity of
    the column they are stored in or compared with.  This file holds the
    values, the 64-bit bound of binding, the decimal text of integers and
    its parse, the affinity of a declared type name and SQL equality. *)

From Stdlib Require Import DecimalString DecimalN.
From S2P Require Import Prelude.

Local Open Scope string_scope.

(** ** Values *)

(** A value stored in a SQLite column (storage classes NULL, INTEGER,
    TEXT; the program never produces REAL or BLOB values). *)
Inductive value : Type :=
  | VNull
  | VInt (z : Z)
  | VText (s : string).

#[export] Instance value_eq_dec : EqDecision value.
Proof. solve_decision. Defined.

(** A Python value passed as a parameter ([None], [int], [str]). *)
Inductive pyval : Type :=
  | PyNone
  | PyInt (z : Z)
  | PyStr (s : string).

#[export] Instance pyval_eq_dec : EqDecision pyval.
Proof. solve_decision. Defined.

(** ** Binding: the 64-bit bound

    The driver binds a Python [int] with [sqlite3_bind_int64]; an [int]
    outside the signed 64-bit range raises [OverflowError] ("Python int
    too large to convert to SQLite INTEGER") before the statement runs. *)

Definition int64_min : Z := - 2 ^ 63.
Definition int64_max : Z := 2 ^ 63 - 1.

Definition in_int64 (z : Z) : bool := (int64_min <=? z)%Z && (z <=? int64_max)%Z.

Lemma in_int64_iff z : in_int64 z = true <-> (int64_min <= z <= int64_max)%Z.
Proof. unfold in_int64. rewrite andb_true_iff, !Z.leb_le. reflexivity. Qed.

Definition bind_value (p : pyval) : option value :=
  match p with
  | PyNone => Some VNull
  | PyInt z => if in_int64 z then Some (VInt z) else None
  | PyStr s => Some (VText s)
  end.

(** Parameters are bound left to right; the first failure stops. *)
Fixpoint bind_values (ps : list pyval) : option (list value) :=
  match ps with
  | [] => Some []
  | p :: ps' =>
      match bind_value p with
      | Some v => match bind_values ps' with
                  | Some vs => Some (v :: vs)
                  | None => None
                  end
      | None => None
      end
  end.

(** ** Decimal text of integers *)

(** SQLite renders an integer as its decimal digits with a leading [-]
    when negative. *)
Definition text_of_uint (n : N) : string := NilEmpty.string_of_uint (N.to_uint n).

Definition text_of_int (z : Z) : string :=
  if (z <? 0)%Z then "-" ++ text_of_uint (Z.to_N (- z))
  else text_of_uint (Z.to_N z).

(** A non-empty run of decimal digits (leading zeros allowed). *)
Definition uint_of_text (s : string) : option N :=
  match s with
  | EmptyString => None
  | _ => match NilEmpty.uint_of_string s with
         | Some d => Some (N.of_uint d)
         | None => None
         end
  end.

(** A well-formed integer literal: an optional sign and digits. *)
Definition int_of_text (s : string) : option Z :=
  match s with
  | String "-" r => option_map (fun n => (- Z.of_N n)%Z) (uint_of_text r)
  | String "+" r => option_map Z.of_N (uint_of_text r)
  | _ => option_map Z.of_N (uint_of_text s)
  end.

(** ** Affinity

    The affinity of a column follows from its declared type name by the
    rules of SQLite (Datatypes In SQLite, section 3.1), tried in order:
    INT gives INTEGER; CHAR, CLOB or TEXT gives TEXT; BLOB or no type
    gives BLOB; REAL, FLOA or DOUB gives REAL; anything else NUMERIC. *)
Inductive affinity : Type := AInteger | AText | ABlob | AReal | ANumeric.

#[export] Instance affinity_eq_dec : EqDecision affinity.
Proof. solve_decision. Defined.

Fixpoint str_contains (needle hay : string) : bool :=
  String.prefix needle hay ||
  match hay with
  | EmptyString => false
  | String _ hay' => str_contains needle hay'
  end.

Definition affinity_of_type (ty : option string) : affinity :=
  match ty with
  | None => ABlob
  | Some t =>
      let u := str_upper t in
      if str_contains "INT" u then AInteger
      else if str_contains "CHAR" u || str_contains "CLOB" u || str_contains "TEXT" u
      then AText
      else if str_contains "BLOB" u then ABlob
      else if str_contains "REAL" u || str_contains "FLOA" u || str_contains "DOUB" u
      then AReal
      else ANumeric
  end.

(** The conversion applied to a value stored into (or compared with) a
    column of the given affinity.  TEXT renders integers as text; INTEGER
    and NUMERIC turn a text that is an integer literal in the 64-bit range
    into that integer.  (REAL storage is not modelled: a REAL column keeps
    the value as bound.) *)
Definition apply_affinity (a : affinity) (v : value) : value :=
  match a, v with
  | AText, VInt z => VText (text_of_int z)
  | (AInteger | ANumeric), VText s =>
      match int_of_text s with
      | Some z => if in_int64 z then VInt z else v
      | None => v
      end
  | _, _ => v
  end.

(** ** SQL equality

    [a = b] in a WHERE clause: NULL equals nothing, values of different
    storage classes are different, integers and texts compare exactly. *)
Definition sql_eqb (a b : value) : bool :=
  match a, b with
  | VInt x, VInt y => (x =? y)%Z
  | VText x, VText y => String.eqb x y
  | _, _ => false
  end.

(** ** Lemmas *)

Lemma bind_values_length ps vs :
  bind_values ps = Some vs -> length vs = length ps.
Proof.
  revert vs. induction ps as [|p ps IH]; intros vs H; simpl in H.
  - now injection H as <-.
  - destruct (bind_value p); [|discriminate].
    destruct (bind_values ps) as [vs'|] eqn:E; [|discriminate].
    injection H as <-. simpl. f_equal. now apply IH.
Qed.

Lemma bind_values_app ps qs :
  bind_values (ps ++ qs) =
  match bind_values ps, bind_values qs with
  | Some vs, Some ws => Some (vs ++ ws)%list
  | _, _ => None
  end.
Proof.
  induction ps as [|p ps IH]; simpl.
  - destruct (bind_values qs); reflexivity.
  - rewrite IH. destruct (bind_value p); [|reflexivity].
    destruct (bind_values ps), (bind_values qs); reflexivity.
Qed.

Lemma to_uint_not_nil n : N.to_uint n <> Decimal.Nil.
Proof.
  intros H. pose proof (DecimalN.Unsigned.of_to n) as E.
  rewrite H in E. simpl in E. subst n. discriminate.
Qed.

(** The digits of a number are not empty and do not start with a sign. *)
Lemma text_of_uint_shape n :
  exists c r, text_of_uint n = String c r /\ c <> "-"%char /\ c <> "+"%char.
Proof.
  unfold text_of_uint. pose proof (to_uint_not_nil n) as H.
  destruct (N.to_uint n); [congruence|..];
    eexists _, _; (split; [reflexivity | split; discriminate]).
Qed.

Lemma uint_of_text_of_uint n : uint_of_text (text_of_uint n) = Some n.
Proof.
  unfold uint_of_text. destruct (text_of_uint_shape n) as (c & r & E & _).
  rewrite E, <- E. unfold text_of_uint.
  rewrite NilEmpty.usu, DecimalN.Unsigned.of_to. reflexivity.
Qed.

(** Round trip: the decimal text of an integer reads back as it. *)
Lemma int_of_text_of_int z : int_of_text (text_of_int z) = Some z.
Proof.
  unfold text_of_int. destruct (Z.ltb_spec z 0) as [Hz|Hz].
  - change ("-" ++ text_of_uint (Z.to_N (- z)))
      with (String "-" (text_of_uint (Z.to_N (- z)))).
    simpl. rewrite uint_of_text_of_uint. simpl. f_equal. lia.
  - destruct (text_of_uint_shape (Z.to_N z)) as (c & r & E & H1 & H2).
    unfold int_of_text. rewrite E.
    assert (option_map Z.of_N (uint_of_text (String c r)) = Some z) as Hs.
    { rewrite <- E, uint_of_text_of_uint. simpl. f_equal. lia. }
    destruct (ascii_dec c "-") as [->|]; [congruence|].
    destruct (ascii_dec c "+") as [->|]; [congruence|].
    destruct c as [[] [] [] [] [] [] [] []]; try exact Hs; congruence.
Qed.

(** Binding fails exactly when some integer parameter is outside the
    64-bit range. *)
Lemma bind_values_none ps :
  bind_values ps = None <-> Exists (fun p => exists z, p = PyInt z /\ in_int64 z = false) ps.
Proof.
  induction ps as [|p ps IH]; cbn [bind_values].
  - split; [discriminate|]. intros H. inversion H.
  - rewrite Exists_cons, <- IH. split.
    + destruct (bind_value p) eqn:Ep; [destruct (bind_values ps); [discriminate|]|]; intros _.
      * now right.
      * left. destruct p as [|z|]; simpl in Ep; try discriminate.
        exists z. destruct (in_int64 z); [discriminate|]. auto.
    + intros [(z & -> & Hz) | Hx].
      * simpl. now rewrite Hz.
      * rewrite Hx. now destruct (bind_value p).
Qed.
