(* ===== verification/Sql.v ===== *)
(** * Sql: the engine's reading of the statement text

    SQLite reads each statement the program passes to [cur.execute] in
    two phases: its tokenizer splits the text into words, numbers and
    punctuation (dropping white space and [--] comments), and its parser
    recognises a statement.  This file models both for the statement forms
    the program produces: [SELECT * FROM t [WHERE c = ? AND ...]],
    [INSERT INTO t(c, ...) VALUES(?, ...)], [UPDATE t SET c = ?, ...
    [WHERE ...]], [DELETE FROM t [WHERE ...]] and the [CREATE TABLE
    [IF NOT EXISTS]] form of the schema script.  Text outside this subset
    is a syntax error ([OperationalError] in the driver), as it is for
    SQLite on the inputs the program can build; the round-trip lemmas at
    the end say what the text built from identifiers reads as. *)

From S2P Require Import Prelude.



(** ** Tokens and the lexer *)

Inductive token : Type :=
  | TWord (w : string)      (** an identifier or a keyword *)
  | TNum (n : string)       (** a run of digits *)
  | TSym (c : ascii).       (** one of [= ? , ( ) * ;] *)

#[export] Instance token_eq_dec : EqDecision token.
Proof. solve_decision. Defined.

(** The lexer's state between two characters: the characters of the
    token being read (reversed), or inside a [--] comment. *)
Inductive lstate : Type :=
  | LStart
  | LWord (acc : list ascii)
  | LNum (acc : list ascii)
  | LDash
  | LComment.

Definition is_sym (c : ascii) : bool :=
  existsb (fun d => Ascii.eqb c d) ["="; "?"; ","; "("; ")"; "*"; ";"]%char.

Definition flush (st : lstate) (toks : list token) : list token :=
  match st with
  | LWord acc => TWord (string_of_list_ascii (rev acc)) :: toks
  | LNum acc => TNum (string_of_list_ascii (rev acc)) :: toks
  | _ => toks
  end.

(** A character read with no token pending. *)
Definition lex_start (c : ascii) (toks : list token) : option (lstate * list token) :=
  if is_space c then Some (LStart, toks)
  else if is_ident_start c then Some (LWord [c], toks)
  else if is_digit c then Some (LNum [c], toks)
  else if Ascii.eqb c "-" then Some (LDash, toks)
  else if is_sym c then Some (LStart, TSym c :: toks)
  else None.

Definition lex_step (st : lstate * list token) (c : ascii) : option (lstate * list token) :=
  let (s, toks) := st in
  match s with
  | LStart => lex_start c toks
  | LWord acc =>
      if is_ident_char c then Some (LWord (c :: acc), toks)
      else lex_start c (flush s toks)
  | LNum acc =>
      if is_digit c then Some (LNum (c :: acc), toks)
      else if is_ident_start c then None
      else lex_start c (flush s toks)
  | LDash => if Ascii.eqb c "-" then Some (LComment, toks) else None
  | LComment =>
      if (nat_of_ascii c =? 10)%nat then Some (LStart, toks) else Some (LComment, toks)
  end.

Fixpoint lex_from (st : lstate * list token) (s : string) : option (lstate * list token) :=
  match s with
  | EmptyString => Some st
  | String c s' =>
      match lex_step st c with
      | Some st' => lex_from st' s'
      | None => None
      end
  end.

Definition lex (s : string) : option (list token) :=
  match lex_from (LStart, []) s with
  | Some (LDash, _) | None => None
  | Some (st, toks) => Some (rev (flush st toks))
  end.

(** ** Statements *)

(** A column of a CREATE TABLE: name, declared type name, and the
    [PRIMARY KEY] and [NOT NULL] constraints. *)
Record coldecl : Type := ColDecl {
  cd_name : string;
  cd_type : option string;
  cd_pk : bool;
  cd_notnull : bool
}.

(** [FOREIGN KEY (col) REFERENCES table (refcol)]. *)
Record fkdecl : Type := FkDecl {
  fk_col : string;
  fk_table : string;
  fk_refcol : string
}.

(** A WHERE clause is the list of the columns [c] of its conjuncts
    [c = ?], in order; the empty list is a statement without WHERE. *)
Inductive stmt : Type :=
  | SSelect (t : string) (w : list string)
  | SInsert (t : string) (cols : list string) (nvals : nat)
  | SUpdate (t : string) (sets : list string) (w : list string)
  | SDelete (t : string) (w : list string)
  | SCreate (ifne : bool) (t : string) (cols : list coldecl) (fks : list fkdecl).

(** Number of [?] parameters of a statement. *)
Definition stmt_nparams (s : stmt) : nat :=
  match s with
  | SSelect _ w | SDelete _ w => length w
  | SInsert _ _ n => n
  | SUpdate _ sets w => length sets + length w
  | SCreate _ _ _ _ => 0
  end.

(** ** The parser *)

(** The words SQLite reserves: they cannot name a table or column
    without quoting. *)
Definition reserved_words : list string :=
  ["ADD"; "ALL"; "ALTER"; "AND"; "AS"; "AUTOINCREMENT"; "BETWEEN"; "CASE";
   "CHECK"; "COLLATE"; "COMMIT"; "CONSTRAINT"; "CREATE"; "DEFAULT";
   "DEFERRABLE"; "DELETE"; "DISTINCT"; "DROP"; "ELSE"; "ESCAPE"; "EXCEPT";
   "EXISTS"; "FOREIGN"; "FROM"; "GROUP"; "HAVING"; "IN"; "INDEX"; "INSERT";
   "INTERSECT"; "INTO"; "IS"; "ISNULL"; "JOIN"; "LIMIT"; "NOT"; "NOTHING";
   "NOTNULL"; "NULL"; "ON"; "OR"; "ORDER"; "PRIMARY"; "REFERENCES";
   "RETURNING"; "SELECT"; "SET"; "TABLE"; "THEN"; "TO"; "TRANSACTION";
   "UNION"; "UNIQUE"; "UPDATE"; "USING"; "VALUES"; "WHEN"; "WHERE"].

Definition is_reserved (w : string) : bool :=
  existsb (fun k => String.eqb (str_upper w) k) reserved_words.

(** A name: a word that is not reserved. *)
Definition is_name (w : string) : bool := negb (is_reserved w).

Definition kw (k : string) (t : token) : bool :=
  match t with TWord w => name_eqb w k | _ => false end.

(** The end of a statement: nothing, or a final [;]. *)
Definition p_end (ts : list token) : bool :=
  match ts with
  | [] => true
  | [TSym ";"] => true
  | _ => false
  end.

(** [AND c = ?] repeated. *)
Fixpoint p_and_more (ts : list token) : list string * list token :=
  match ts with
  | TWord a :: TWord c :: TSym "=" :: TSym "?" :: r =>
      if name_eqb a "AND" && is_name c
      then let (cs, r') := p_and_more r in (c :: cs, r')
      else ([], ts)
  | _ => ([], ts)
  end.

(** [[WHERE c = ? AND ...]] up to the end of the statement. *)
Definition p_where (ts : list token) : option (list string) :=
  if p_end ts then Some []
  else match ts with
       | TWord a :: TWord c :: TSym "=" :: TSym "?" :: r =>
           if name_eqb a "WHERE" && is_name c then
             let (cs, r') := p_and_more r in
             if p_end r' then Some (c :: cs) else None
           else None
       | _ => None
       end.

(** [, c = ?] repeated (the SET list). *)
Fixpoint p_set_more (ts : list token) : list string * list token :=
  match ts with
  | TSym "," :: TWord c :: TSym "=" :: TSym "?" :: r =>
      if is_name c then let (cs, r') := p_set_more r in (c :: cs, r')
      else ([], ts)
  | _ => ([], ts)
  end.

(** [, c] repeated (a column list). *)
Fixpoint p_names_more (ts : list token) : list string * list token :=
  match ts with
  | TSym "," :: TWord c :: r =>
      if is_name c then let (cs, r') := p_names_more r in (c :: cs, r')
      else ([], ts)
  | _ => ([], ts)
  end.

(** [, ?] repeated (a VALUES list): the number of parameters. *)
Fixpoint p_qs_more (ts : list token) : nat * list token :=
  match ts with
  | TSym "," :: TSym "?" :: r => let (n, r') := p_qs_more r in (S n, r')
  | _ => (0, ts)
  end.

(** [PRIMARY KEY] and [NOT NULL] after a column's type, repeated. *)
Fixpoint p_col_constraints (ts : list token) : bool * bool * list token :=
  match ts with
  | TWord a :: TWord b :: r =>
      if name_eqb a "PRIMARY" && name_eqb b "KEY" then
        let '(_, nn, r') := p_col_constraints r in (true, nn, r')
      else if name_eqb a "NOT" && name_eqb b "NULL" then
        let '(pk, _, r') := p_col_constraints r in (pk, true, r')
      else (false, false, ts)
  | _ => (false, false, ts)
  end.

(** A declared type: a name, with an optional [(n)] size kept in its
    text (SQLite records [VARCHAR(15)] and enforces no length). *)
Definition p_coltype (ts : list token) : option string * list token :=
  match ts with
  | TWord ty :: TSym "(" :: TNum n :: TSym ")" :: r =>
      if is_name ty then (Some (ty ++ "(" ++ n ++ ")")%string, r) else (None, ts)
  | TWord ty :: r => if is_name ty then (Some ty, r) else (None, ts)
  | _ => (None, ts)
  end.

Definition p_coldef (ts : list token) : option (coldecl * list token) :=
  match ts with
  | TWord c :: r =>
      if is_name c then
        let (ty, r1) := p_coltype r in
        let '(pk, nn, r2) := p_col_constraints r1 in
        Some (ColDecl c ty pk nn, r2)
      else None
  | _ => None
  end.

Definition p_fk (ts : list token) : option (fkdecl * list token) :=
  match ts with
  | TWord f :: TWord k :: TSym "(" :: TWord c :: TSym ")" ::
    TWord rf :: TWord t :: TSym "(" :: TWord c2 :: TSym ")" :: r =>
      if name_eqb f "FOREIGN" && name_eqb k "KEY" && name_eqb rf "REFERENCES"
         && is_name c && is_name t && is_name c2
      then Some (FkDecl c t c2, r) else None
  | _ => None
  end.

(** The table constraints after the columns; the number of tokens
    bounds the number of steps, each of which consumes tokens. *)
Fixpoint p_fks (fuel : nat) (ts : list token) : option (list fkdecl * list token) :=
  match fuel with
  | 0 => None
  | S f =>
      match p_fk ts with
      | Some (fk, TSym "," :: r) =>
          match p_fks f r with
          | Some (fks, r') => Some (fk :: fks, r')
          | None => None
          end
      | Some (fk, TSym ")" :: r) => Some ([fk], r)
      | _ => None
      end
  end.

Fixpoint p_cols (fuel : nat) (ts : list token)
    : option (list coldecl * list fkdecl * list token) :=
  match fuel with
  | 0 => None
  | S f =>
      match p_coldef ts with
      | Some (cd, TSym "," :: r) =>
          if existsb (kw "FOREIGN") (take 1 r) then
            match p_fks f r with
            | Some (fks, r') => Some ([cd], fks, r')
            | None => None
            end
          else
            match p_cols f r with
            | Some (cds, fks, r') => Some (cd :: cds, fks, r')
            | None => None
            end
      | Some (cd, TSym ")" :: r) => Some ([cd], [], r)
      | _ => None
      end
  end.

Definition p_create (ts : list token) : option stmt :=
  match ts with
  | TWord tb :: r =>
      if name_eqb tb "TABLE" then
        let '(ifne, r1) :=
          match r with
          | TWord i :: TWord n :: TWord e :: r' =>
              if name_eqb i "IF" && name_eqb n "NOT" && name_eqb e "EXISTS"
              then (true, r') else (false, r)
          | _ => (false, r)
          end in
        match r1 with
        | TWord t :: TSym "(" :: r2 =>
            if is_name t then
              match p_cols (length r2) r2 with
              | Some (cds, fks, r3) => if p_end r3 then Some (SCreate ifne t cds fks) else None
              | None => None
              end
            else None
        | _ => None
        end
      else None
  | _ => None
  end.

Definition p_select (ts : list token) : option stmt :=
  match ts with
  | TSym "*" :: TWord f :: TWord t :: r =>
      if name_eqb f "FROM" && is_name t then SSelect t <$> p_where r else None
  | _ => None
  end.

Definition p_insert (ts : list token) : option stmt :=
  match ts with
  | TWord i :: TWord t :: TSym "(" :: TWord c :: r =>
      if name_eqb i "INTO" && is_name t && is_name c then
        let (cs, r1) := p_names_more r in
        match r1 with
        | TSym ")" :: TWord v :: TSym "(" :: TSym "?" :: r2 =>
            if name_eqb v "VALUES" then
              let (n, r3) := p_qs_more r2 in
              match r3 with
              | TSym ")" :: r4 => if p_end r4 then Some (SInsert t (c :: cs) (S n)) else None
              | _ => None
              end
            else None
        | _ => None
        end
      else None
  | _ => None
  end.

Definition p_update (ts : list token) : option stmt :=
  match ts with
  | TWord t :: TWord s :: TWord c :: TSym "=" :: TSym "?" :: r =>
      if is_name t && name_eqb s "SET" && is_name c then
        let (cs, r1) := p_set_more r in SUpdate t (c :: cs) <$> p_where r1
      else None
  | _ => None
  end.

Definition p_delete (ts : list token) : option stmt :=
  match ts with
  | TWord f :: TWord t :: r =>
      if name_eqb f "FROM" && is_name t then SDelete t <$> p_where r else None
  | _ => None
  end.

Definition parse (ts : list token) : option stmt :=
  match ts with
  | TWord w :: r =>
      if name_eqb w "SELECT" then p_select r
      else if name_eqb w "INSERT" then p_insert r
      else if name_eqb w "UPDATE" then p_update r
      else if name_eqb w "DELETE" then p_delete r
      else if name_eqb w "CREATE" then p_create r
      else None
  | _ => None
  end.

(** The statement a text reads as, if it is one of the forms. *)
Definition parse_sql (s : string) : option stmt :=
  match lex s with
  | Some ts => parse ts
  | None => None
  end.

(** ** Reading back the text the program builds *)

(** An identifier in SQLite's tokenizer: a letter, [_] or a non-ASCII
    byte, then letters, digits, [_] or non-ASCII bytes.  Every Python
    identifier (a keyword argument's name) is one. *)
Fixpoint all_ident_chars (s : string) : bool :=
  match s with
  | EmptyString => true
  | String c s' => is_ident_char c && all_ident_chars s'
  end.

Definition is_ident (s : string) : bool :=
  match s with
  | EmptyString => false
  | String c s' => is_ident_start c && all_ident_chars s'
  end.

(** A name the program can put in a statement and read back: an
    identifier that is not reserved. *)
Definition sql_name (s : string) : bool := is_ident s && is_name s.

(** The tokens of [k1 suf k2 suf ...] joined by [sep]. *)
Definition join_toks (sep_toks suf_toks : list token) (ks : list string) : list token :=
  match ks with
  | [] => []
  | k :: ks' =>
      (TWord k :: suf_toks ++ concat (map (fun k' => sep_toks ++ TWord k' :: suf_toks) ks'))%list
  end.

Lemma lex_from_app st a b :
  lex_from st (a ++ b)%string =
  match lex_from st a with Some st' => lex_from st' b | None => None end.
Proof.
  revert st. induction a as [|c a IH]; intros st; [reflexivity|].
  rewrite str_app_cons. simpl. destruct (lex_step st c); [apply IH | reflexivity].
Qed.

Lemma lex_word_chars acc toks w :
  all_ident_chars w = true ->
  lex_from (LWord acc, toks) w = Some (LWord (rev (list_ascii_of_string w) ++ acc)%list, toks).
Proof.
  revert acc. induction w as [|c w IH]; intros acc H; [reflexivity|].
  simpl in H |- *. apply andb_prop in H as [Hc Hw]. rewrite Hc, IH by exact Hw.
  now rewrite <- app_assoc.
Qed.

Lemma lex_ident toks w :
  is_ident w = true ->
  lex_from (LStart, toks) w = Some (LWord (rev (list_ascii_of_string w)), toks).
Proof.
  destruct w as [|c w]; [discriminate|]. simpl. intros H.
  apply andb_prop in H as [Hc Hw].
  unfold lex_start. rewrite Hc.
  rewrite (ident_start_not_space c Hc).
  rewrite lex_word_chars by exact Hw. reflexivity.
Qed.

Lemma flush_word w toks :
  flush (LWord (rev (list_ascii_of_string w))) toks = TWord w :: toks.
Proof.
  simpl. now rewrite rev_involutive, string_of_list_ascii_of_string.
Qed.

(** Lexing [k1 suf sep k2 suf ...] when [sep] and [suf] lex to fixed
    tokens. *)
Lemma lex_join sep suf sep_toks suf_toks :
  (forall toks, lex_from (LStart, toks) sep = Some (LStart, rev sep_toks ++ toks)%list) ->
  (forall acc toks, lex_from (LWord acc, toks) suf =
                    Some (LStart, rev suf_toks ++ flush (LWord acc) toks)%list) ->
  forall ks toks, ks <> [] -> forallb is_ident ks = true ->
  lex_from (LStart, toks) (py_join sep (map (fun k => k ++ suf)%string ks)) =
  Some (LStart, rev (join_toks sep_toks suf_toks ks) ++ toks)%list.
Proof.
  intros Hsep Hsuf ks. induction ks as [|k ks IH]; intros toks Hne Hid; [congruence|].
  simpl in Hid. apply andb_prop in Hid as [Hk Hks].
  destruct ks as [|k' ks].
  - simpl. rewrite lex_from_app, lex_ident by exact Hk. cbv beta iota.
    rewrite Hsuf, flush_word, app_nil_r, <- app_assoc. reflexivity.
  - change (py_join sep (map (fun k0 => k0 ++ suf)%string (k :: k' :: ks)))
      with ((k ++ suf) ++ sep ++ py_join sep (map (fun k0 => k0 ++ suf)%string (k' :: ks)))%string.
    rewrite lex_from_app, lex_from_app, lex_ident by exact Hk. cbv beta iota.
    rewrite Hsuf, flush_word. cbv beta iota.
    rewrite lex_from_app, Hsep. cbv beta iota.
    rewrite IH by (congruence || exact Hks).
    f_equal. f_equal. simpl.
    rewrite !rev_app_distr. simpl. rewrite ?rev_app_distr. simpl.
    rewrite <- ?app_assoc. reflexivity.
Qed.

Lemma p_and_more_join ks :
  forallb is_name ks = true ->
  p_and_more (concat (map (fun k => [TWord "AND"; TWord k; TSym "="; TSym "?"]) ks)) = (ks, []).
Proof.
  induction ks as [|k ks IH]; intros H; [reflexivity|].
  simpl in H. apply andb_prop in H as [Hk Hks].
  cbn [map concat app p_and_more]. rewrite Hk, IH by exact Hks. reflexivity.
Qed.

(** The WHERE clause built from a non-empty list of names reads back
    as that list. *)

(** The WHERE clause built from a non-empty list of names reads back
    as that list. *)
Lemma p_where_join ks :
  ks <> [] -> forallb is_name ks = true ->
  p_where (TWord "WHERE" :: join_toks [TWord "AND"] [TSym "="; TSym "?"] ks) = Some ks.
Proof.
  destruct ks as [|k ks]; intros Hne H; [congruence|].
  simpl in H. apply andb_prop in H as [Hk Hks].
  unfold p_where, join_toks. simpl. rewrite Hk, p_and_more_join by exact Hks.
  reflexivity.
Qed.

(** [, c = ?] repeated, up to a word. *)
Lemma p_set_more_join ks w r :
  forallb is_name ks = true ->
  p_set_more (concat (map (fun k => [TSym ","; TWord k; TSym "="; TSym "?"]) ks) ++ TWord w :: r)
  = (ks, TWord w :: r).
Proof.
  induction ks as [|k ks IH]; intros H; [reflexivity|].
  simpl in H. apply andb_prop in H as [Hk Hks].
  cbn [map concat app p_set_more]. rewrite Hk, IH by exact Hks. reflexivity.
Qed.

(** ** Tokens are only pushed *)

Lemma flush_push st toks : exists pre, flush st toks = (pre ++ toks)%list.
Proof. destruct st; [exists [] | eexists [_] | eexists [_] | exists [] | exists []]; reflexivity. Qed.

Lemma lex_start_push c toks st' toks' :
  lex_start c toks = Some (st', toks') -> exists pre, toks' = (pre ++ toks)%list.
Proof.
  unfold lex_start.
  destruct (is_space c); [intros [= _ <-]; now exists []|].
  destruct (is_ident_start c); [intros [= _ <-]; now exists []|].
  destruct (is_digit c); [intros [= _ <-]; now exists []|].
  destruct (Ascii.eqb c "-"); [intros [= _ <-]; now exists []|].
  destruct (is_sym c); [intros [= _ <-]; now exists [TSym c]|discriminate].
Qed.

Lemma lex_step_push st c st' toks' :
  lex_step st c = Some (st', toks') -> exists pre, toks' = (pre ++ st.2)%list.
Proof.
  destruct st as [s toks]. simpl.
  assert (Hf : forall s', lex_start c (flush s' toks) = Some (st', toks') ->
                          exists pre, toks' = (pre ++ toks)%list).
  { intros s' H. destruct (lex_start_push _ _ _ _ H) as [pre ->].
    destruct (flush_push s' toks) as [pre' ->]. exists (pre ++ pre')%list.
    now rewrite app_assoc. }
  destruct s as [| acc | acc | |].
  - apply (Hf LStart).
  - destruct (is_ident_char c); [intros [= _ <-]; now exists []|apply Hf].
  - destruct (is_digit c); [intros [= _ <-]; now exists []|].
    destruct (is_ident_start c); [discriminate|apply Hf].
  - destruct (Ascii.eqb c "-"); [intros [= _ <-]; now exists []|discriminate].
  - destruct (_ =? _)%nat; intros [= _ <-]; now exists [].
Qed.

Lemma lex_from_push s st st' toks' :
  lex_from st s = Some (st', toks') -> exists pre, toks' = (pre ++ st.2)%list.
Proof.
  revert st. induction s as [|c s IH]; intros st; simpl.
  - intros [= ->]. now exists [].
  - destruct (lex_step st c) as [[s1 t1]|] eqn:E; [|discriminate].
    intros H. destruct (IH _ H) as [pre ->]. destruct (lex_step_push _ _ _ _ E) as [pre' ->].
    exists (pre ++ pre')%list. simpl. now rewrite <- app_assoc.
Qed.

(** Whatever follows [SELECT * FROM], the text is a SELECT or no
    statement at all. *)
Lemma parse_select_prefix x s :
  parse_sql ("SELECT * FROM " ++ x)%string = Some s -> exists t ws, s = SSelect t ws.
Proof.
  unfold parse_sql, lex. rewrite lex_from_app.
  change (lex_from (LStart, []) "SELECT * FROM ")
    with (Some (LStart, [TWord "FROM"; TSym "*"; TWord "SELECT"])).
  cbv iota beta.
  destruct (lex_from (LStart, [TWord "FROM"; TSym "*"; TWord "SELECT"]) x)
    as [[st toks]|] eqn:E; [|discriminate].
  destruct (lex_from_push _ _ _ _ E) as [pre ->]. simpl.
  destruct (flush_push st (pre ++ [TWord "FROM"; TSym "*"; TWord "SELECT"])) as [pre' Hf].
  rewrite app_assoc in Hf.
  assert (Hr : rev (flush st (pre ++ [TWord "FROM"; TSym "*"; TWord "SELECT"]))
               = (TWord "SELECT" :: TSym "*" :: TWord "FROM" :: rev (pre' ++ pre))%list)
    by (rewrite Hf, rev_app_distr; reflexivity).
  destruct st; try rewrite Hr; try discriminate; cbn -[p_where];
    (destruct (rev (pre' ++ pre)) as [|[a|a|a] r];
     [discriminate| |discriminate|discriminate]; simpl;
     destruct (is_name a); simpl; [|discriminate];
     destruct (p_where r); simpl; [|discriminate]; intros [= <-]; eauto).
Qed.
