(* ===== verification/Engine.v ===== *)
(** * Engine: tables, rows and the execution of a statement

    A database is the list of its tables in creation order.  A table has
    its schema and its rows; a row is its rowid with the values of all
    columns.  Rows are kept in rowid order (SQLite stores a table as a
    B-tree on the rowid, and [SELECT *] without ORDER BY scans it in that
    order), and a column declared [INTEGER PRIMARY KEY] is the rowid
    itself.  A statement is executed in two steps as in SQLite: [prepare]
    resolves the table and the columns (errors: no such table or column,
    table exists, wrong number of values), and [run] executes the plan on
    the bound values (errors: NOT NULL, datatype mismatch, UNIQUE, full).
    The well-formedness invariant of a table and its preservation by
    [run] close the file. *)

From S2P Require Import Prelude Values Sql.

Local Open Scope py_scope.

(** ** Errors of the engine *)

Inductive db_error : Type :=
  | ESyntax                       (** near "...": syntax error *)
  | ENoTable (t : string)         (** no such table: t *)
  | ENoColumn (c : string)        (** no such column: c *)
  | ETableExists (t : string)     (** table t already exists *)
  | EValuesCount                  (** N values for M columns *)
  | EDupColumn (c : string)       (** duplicate column name: c *)
  | EMultiPk (t : string)         (** table t has more than one primary key *)
  | ENotNull (t c : string)       (** NOT NULL constraint failed: t.c *)
  | EMismatch                     (** datatype mismatch *)
  | EUnique (t c : string)        (** UNIQUE constraint failed: t.c *)
  | EFull                         (** database or disk is full *)
  | ELocked                       (** database is locked *)
  | ECantOpen                     (** unable to open database file *)
  | EUnsupported.                 (** a form outside the model *)

#[export] Instance db_error_eq_dec : EqDecision db_error.
Proof. solve_decision. Defined.

(** ** Schemas, tables, databases *)

Record column : Type := Column {
  col_name : string;
  col_aff : affinity;
  col_notnull : bool
}.

(** [sc_pk] is the position of the INTEGER PRIMARY KEY column, the
    alias of the rowid, when the table has one. *)
Record schema : Type := Schema {
  sc_name : string;
  sc_cols : list column;
  sc_pk : option nat;
  sc_fks : list fkdecl
}.

Abbreviation row := (Z * list value)%type.

Record table : Type := Table {
  tb_schema : schema;
  tb_rows : list row
}.

Definition db : Type := list table.

Definition find_table (d : db) (t : string) : option table :=
  List.find (fun tb => name_eqb (sc_name (tb_schema tb)) t) d.

(** Replace the table of the same name. *)
Definition set_table (d : db) (tb : table) : db :=
  map (fun tb' => if name_eqb (sc_name (tb_schema tb')) (sc_name (tb_schema tb))
                  then tb else tb') d.

(** ** Columns of a statement *)

(** A column named in a statement: a declared column (by position) or
    the rowid under one of its names. *)
Inductive colref : Type :=
  | CRowid
  | CCol (i : nat).

#[export] Instance colref_eq_dec : EqDecision colref.
Proof. solve_decision. Defined.

Fixpoint find_index {A} (p : A -> bool) (l : list A) : option nat :=
  match l with
  | [] => None
  | x :: l' => if p x then Some 0 else S <$> find_index p l'
  end.

Definition resolve_col (sc : schema) (c : string) : option colref :=
  match find_index (fun col => name_eqb (col_name col) c) (sc_cols sc) with
  | Some i => Some (CCol i)
  | None =>
      if existsb (name_eqb c) ["rowid"; "oid"; "_rowid_"] then Some CRowid else None
  end.

Fixpoint resolve_cols (sc : schema) (cs : list string) : db_error + list colref :=
  match cs with
  | [] => inr []
  | c :: cs' =>
      match resolve_col sc c with
      | Some r => rs <-? resolve_cols sc cs' ;; inr (r :: rs)
      | None => inl (ENoColumn c)
      end
  end.

(** Whether a column reference denotes the rowid (directly or through
    the INTEGER PRIMARY KEY column). *)
Definition is_rowid_ref (sc : schema) (r : colref) : bool :=
  match r, sc_pk sc with
  | CRowid, _ => true
  | CCol i, Some p => Nat.eqb i p
  | CCol _, None => false
  end.

Definition ref_affinity (sc : schema) (r : colref) : affinity :=
  match r with
  | CRowid => AInteger
  | CCol i => match sc_cols sc !! i with Some col => col_aff col | None => ABlob end
  end.

Definition row_get (r : row) (c : colref) : value :=
  match c with
  | CRowid => VInt r.1
  | CCol i => default VNull (r.2 !! i)
  end.

(** [c1 = ? AND c2 = ? ...] on a row, the parameters converted by the
    column's affinity before the comparison. *)
Definition row_matches (sc : schema) (conds : list (colref * value)) (r : row) : bool :=
  forallb (fun cv => sql_eqb (row_get r cv.1) (apply_affinity (ref_affinity sc cv.1) cv.2)) conds.

(** The row [SELECT *] returns. *)
Definition row_out (r : row) : list value := r.2.

(** ** Plans *)

Inductive plan : Type :=
  | PlSelect (t : string) (conds : list colref)
  | PlInsert (t : string) (cols : list colref)
  | PlUpdate (t : string) (sets : list colref) (conds : list colref)
  | PlDelete (t : string) (conds : list colref)
  | PlCreate (sc : schema)
  | PlNoop.

Definition column_of_decl (cd : coldecl) : column :=
  Column (cd_name cd) (affinity_of_type (cd_type cd)) (cd_notnull cd).

Fixpoint has_dup_name (cs : list string) : option string :=
  match cs with
  | [] => None
  | c :: cs' => if existsb (name_eqb c) cs' then Some c else has_dup_name cs'
  end.

(** The schema of a CREATE TABLE: an INTEGER PRIMARY KEY column aliases
    the rowid; a PRIMARY KEY of another type (a unique index) is outside
    the model. *)
Definition schema_of_create (t : string) (cds : list coldecl) (fks : list fkdecl)
    : db_error + schema :=
  match has_dup_name (map cd_name cds) with
  | Some c => inl (EDupColumn c)
  | None =>
      let pks := List.filter (fun icd => cd_pk icd.2) (imap pair cds) in
      match pks with
      | [] => inr (Schema t (map column_of_decl cds) None fks)
      | [(i, cd)] =>
          if String.eqb (str_upper (default "" (cd_type cd))) "INTEGER"
          then inr (Schema t (map column_of_decl cds) (Some i) fks)
          else inl EUnsupported
      | _ => inl (EMultiPk t)
      end
  end.

Definition prepare (d : db) (s : stmt) : db_error + plan :=
  match s with
  | SSelect t w =>
      match find_table d t with
      | Some tb => rs <-? resolve_cols (tb_schema tb) w ;; inr (PlSelect t rs)
      | None => inl (ENoTable t)
      end
  | SInsert t cols n =>
      match find_table d t with
      | Some tb =>
          rs <-? resolve_cols (tb_schema tb) cols ;;
          if Nat.eqb n (length cols) then inr (PlInsert t rs) else inl EValuesCount
      | None => inl (ENoTable t)
      end
  | SUpdate t sets w =>
      match find_table d t with
      | Some tb =>
          ss <-? resolve_cols (tb_schema tb) sets ;;
          rs <-? resolve_cols (tb_schema tb) w ;; inr (PlUpdate t ss rs)
      | None => inl (ENoTable t)
      end
  | SDelete t w =>
      match find_table d t with
      | Some tb => rs <-? resolve_cols (tb_schema tb) w ;; inr (PlDelete t rs)
      | None => inl (ENoTable t)
      end
  | SCreate ifne t cds fks =>
      match find_table d t with
      | Some _ => if ifne then inr PlNoop else inl (ETableExists t)
      | None => sc <-? schema_of_create t cds fks ;; inr (PlCreate sc)
      end
  end.

(** ** Running a plan *)

(** The rowid of a new row: one more than the largest in use (the last,
    rows being in rowid order), 1 in an empty table. *)
Definition new_rowid (rows : list row) : db_error + Z :=
  match last rows with
  | None => inr 1%Z
  | Some r => if (r.1 =? int64_max)%Z then inl EFull else inr (r.1 + 1)%Z
  end.

(** The value given for a column in an INSERT column list, if any. *)
Definition lookup_ref (cols : list colref) (vals : list value) (r : colref) : option value :=
  match find_index (fun c => bool_decide (c = r)) cols with
  | Some j => vals !! j
  | None => None
  end.

(** The first NOT NULL column holding NULL. *)
Definition check_notnull (sc : schema) (vals : list value) : option db_error :=
  match find_index (fun iv => col_notnull iv.1 && bool_decide (iv.2 = VNull))
                   (zip (sc_cols sc) vals) with
  | Some i => Some (ENotNull (sc_name sc) (default "" (col_name <$> sc_cols sc !! i)))
  | None => None
  end.

Definition pk_name (sc : schema) : string :=
  match sc_pk sc with
  | Some p => default "rowid" (col_name <$> sc_cols sc !! p)
  | None => "rowid"
  end.

(** The INTEGER PRIMARY KEY column holds the rowid. *)
Definition set_pk (sc : schema) (rid : Z) (vals : list value) : list value :=
  match sc_pk sc with
  | Some p => <[p := VInt rid]> vals
  | None => vals
  end.

(** A rowid given as a value: it must read as an integer. *)
Definition rowid_of_value (v : value) : db_error + Z :=
  match apply_affinity AInteger v with
  | VInt z => inr z
  | _ => inl EMismatch
  end.

(** The values of the new row's columns: the value given for a column,
    converted by its affinity, or NULL. *)
Definition given_values (sc : schema) (cols : list colref) (vals : list value) : list value :=
  imap (fun i col => match lookup_ref cols vals (CCol i) with
                     | Some v => apply_affinity (col_aff col) v
                     | None => VNull
                     end) (sc_cols sc).

(** The rowid given explicitly, through the INTEGER PRIMARY KEY column
    or a rowid name. *)
Definition explicit_rowid (sc : schema) (cols : list colref) (vals : list value)
    : option value :=
  match sc_pk sc with
  | Some p => match lookup_ref cols vals (CCol p) with
              | Some v => Some v
              | None => lookup_ref cols vals CRowid
              end
  | None => lookup_ref cols vals CRowid
  end.

(** No rowid or NULL: a new one; otherwise the given one as an integer. *)
Definition choose_rowid (rows : list row) (explicit : option value) : db_error + Z :=
  match explicit with
  | None | Some VNull => new_rowid rows
  | Some v => rowid_of_value v
  end.

Definition insert_row (sc : schema) (rows : list row) (cols : list colref)
    (vals : list value) : db_error + row :=
  rid <-? choose_rowid rows (explicit_rowid sc cols vals) ;;
  let vals' := set_pk sc rid (given_values sc cols vals) in
  match check_notnull sc vals' with
  | Some e => inl e
  | None =>
      if existsb (fun r => (r.1 =? rid)%Z) rows
      then inl (EUnique (sc_name sc) (pk_name sc))
      else inr (rid, vals')
  end.

(** [SET c = v] on the values of a row (the rowid is handled apart). *)
Definition set_value (sc : schema) (vals : list value) (sv : colref * value) : list value :=
  match sv.1 with
  | CCol i => <[i := apply_affinity (ref_affinity sc sv.1) sv.2]> vals
  | CRowid => vals
  end.

(** The last value assigned to the rowid, if any. *)
Definition rowid_assignment (sc : schema) (sets : list (colref * value)) : option value :=
  fold_left (fun acc sv => if is_rowid_ref sc sv.1 then Some sv.2 else acc) sets None.

Definition update_row (sc : schema) (sets : list (colref * value)) (r : row)
    : db_error + row :=
  let vals := fold_left (set_value sc) sets r.2 in
  rid <-? (match rowid_assignment sc sets with
           | Some v => rowid_of_value v
           | None => inr r.1
           end) ;;
  let vals' := set_pk sc rid vals in
  match check_notnull sc vals' with
  | Some e => inl e
  | None => inr (rid, vals')
  end.

Fixpoint update_rows (sc : schema) (sets conds : list (colref * value)) (rows : list row)
    : db_error + list row :=
  match rows with
  | [] => inr []
  | r :: rs =>
      r' <-? (if row_matches sc conds r then update_row sc sets r else inr r) ;;
      rs' <-? update_rows sc sets conds rs ;;
      inr (r' :: rs')
  end.

Fixpoint nodupb (zs : list Z) : bool :=
  match zs with
  | [] => true
  | z :: zs' => negb (existsb (Z.eqb z) zs') && nodupb zs'
  end.

Definition update_table (sc : schema) (sets conds : list (colref * value)) (rows : list row)
    : db_error + list row :=
  rows' <-? update_rows sc sets conds rows ;;
  if existsb (is_rowid_ref sc) (map fst sets) then
    if nodupb (map fst rows') then inr (sort_by_key rows')
    else inl (EUnique (sc_name sc) (pk_name sc))
  else inr rows'.

Definition delete_rows (sc : schema) (conds : list (colref * value)) (rows : list row)
    : list row :=
  List.filter (fun r => negb (row_matches sc conds r)) rows.

Definition select_rows (sc : schema) (conds : list (colref * value)) (rows : list row)
    : list (list value) :=
  map row_out (List.filter (row_matches sc conds) rows).

(** The outcome of a statement: the new database, the rows it returns
    and the rowid it inserted. *)
Record exec_result : Type := ExecResult {
  er_db : db;
  er_rows : list (list value);
  er_rowid : option Z
}.

Definition with_table (d : db) (t : string) {A} (k : table -> db_error + A) : db_error + A :=
  match find_table d t with
  | Some tb => k tb
  | None => inl (ENoTable t)
  end.

Definition run (d : db) (p : plan) (vals : list value) : db_error + exec_result :=
  match p with
  | PlSelect t conds =>
      with_table d t (fun tb =>
        inr (ExecResult d (select_rows (tb_schema tb) (zip conds vals) (tb_rows tb)) None))
  | PlInsert t cols =>
      with_table d t (fun tb =>
        r <-? insert_row (tb_schema tb) (tb_rows tb) cols vals ;;
        inr (ExecResult (set_table d (Table (tb_schema tb) (insert_by_key r (tb_rows tb))))
                        [] (Some r.1)))
  | PlUpdate t sets conds =>
      with_table d t (fun tb =>
        rows' <-? update_table (tb_schema tb) (zip sets (take (length sets) vals))
                               (zip conds (drop (length sets) vals)) (tb_rows tb) ;;
        inr (ExecResult (set_table d (Table (tb_schema tb) rows')) [] None))
  | PlDelete t conds =>
      with_table d t (fun tb =>
        inr (ExecResult (set_table d (Table (tb_schema tb)
                           (delete_rows (tb_schema tb) (zip conds vals) (tb_rows tb))))
                        [] None))
  | PlCreate sc => inr (ExecResult (d ++ [Table sc []]) [] None)
  | PlNoop => inr (ExecResult d [] None)
  end.

(** Number of parameters of a plan. *)
Definition plan_nparams (p : plan) : nat :=
  match p with
  | PlSelect _ conds | PlDelete _ conds => length conds
  | PlInsert _ cols => length cols
  | PlUpdate _ sets conds => length sets + length conds
  | PlCreate _ | PlNoop => 0
  end.

(** Whether a statement writes (the driver opens a transaction before a
    DML statement: INSERT, UPDATE, DELETE). *)
Definition is_dml (s : stmt) : bool :=
  match s with
  | SInsert _ _ _ | SUpdate _ _ _ | SDelete _ _ => true
  | _ => false
  end.

(** ** The well-formedness invariant *)

(** Integers are stored in the 64-bit range. *)
Definition value_in_range (v : value) : Prop :=
  match v with VInt z => in_int64 z = true | _ => True end.

Definition wf_schema (sc : schema) : Prop :=
  match sc_pk sc with Some p => p < length (sc_cols sc) | None => True end.

(** The INTEGER PRIMARY KEY column holds the rowid. *)
Definition pk_ok (sc : schema) (r : row) : Prop :=
  match sc_pk sc with Some p => r.2 !! p = Some (VInt r.1) | None => True end.

Definition wf_row (sc : schema) (r : row) : Prop :=
  length r.2 = length (sc_cols sc) /\ in_int64 r.1 = true /\ pk_ok sc r /\
  check_notnull sc r.2 = None /\ Forall value_in_range r.2.

(** Rows in strictly increasing rowid order, each well formed. *)
Definition wf_table (tb : table) : Prop :=
  wf_schema (tb_schema tb) /\
  StronglySorted Z.lt (map fst (tb_rows tb)) /\
  Forall (wf_row (tb_schema tb)) (tb_rows tb).

Definition wf_db (d : db) : Prop := Forall wf_table d.

(** ** A decision procedure for the invariant, for concrete databases *)

Definition in_range_b (v : value) : bool :=
  match v with VInt z => in_int64 z | _ => true end.

Definition pk_ok_b (sc : schema) (r : row) : bool :=
  match sc_pk sc with
  | Some p => bool_decide (r.2 !! p = Some (VInt r.1))
  | None => true
  end.

Definition wf_row_b (sc : schema) (r : row) : bool :=
  Nat.eqb (length r.2) (length (sc_cols sc)) && in_int64 r.1 && pk_ok_b sc r
  && bool_decide (check_notnull sc r.2 = None) && forallb in_range_b r.2.

Fixpoint sorted_b (zs : list Z) : bool :=
  match zs with
  | [] => true
  | z :: zs' => forallb (fun z' => (z <? z')%Z) zs' && sorted_b zs'
  end.

Definition wf_table_b (tb : table) : bool :=
  match sc_pk (tb_schema tb) with
  | Some p => Nat.ltb p (length (sc_cols (tb_schema tb)))
  | None => true
  end
  && sorted_b (map fst (tb_rows tb)) && forallb (wf_row_b (tb_schema tb)) (tb_rows tb).

Definition wf_db_b (d : db) : bool := forallb wf_table_b d.

(** ** Lemmas on the pieces of [run] *)

Lemma find_table_in d t tb : find_table d t = Some tb -> In tb d.
Proof. unfold find_table. intros H. now apply find_some in H as [H _]. Qed.

Lemma set_table_wf d tb : wf_db d -> wf_table tb -> wf_db (set_table d tb).
Proof.
  unfold wf_db, set_table. intros Hd Htb. apply Forall_map.
  eapply Forall_impl; [exact Hd|]. intros tb' Htb'. now destruct (name_eqb _ _).
Qed.

Lemma apply_affinity_in_range a v : value_in_range v -> value_in_range (apply_affinity a v).
Proof.
  destruct a, v as [|z|s]; simpl; auto.
  all: destruct (int_of_text s) as [z|]; simpl; auto.
  all: destruct (in_int64 z) eqn:E; simpl; auto.
Qed.

Lemma rowid_of_value_range v z :
  value_in_range v -> rowid_of_value v = inr z -> in_int64 z = true.
Proof.
  unfold rowid_of_value. intros Hv H.
  pose proof (apply_affinity_in_range AInteger v Hv) as Hr.
  destruct (apply_affinity AInteger v); try discriminate. now injection H as <-.
Qed.

Lemma set_pk_length sc rid vals : length (set_pk sc rid vals) = length vals.
Proof. unfold set_pk. destruct (sc_pk sc); [apply length_insert | reflexivity]. Qed.

Lemma set_pk_ok sc rid vals :
  wf_schema sc -> length vals = length (sc_cols sc) -> pk_ok sc (rid, set_pk sc rid vals).
Proof.
  unfold wf_schema, pk_ok, set_pk. simpl. destruct (sc_pk sc) as [p|]; [|trivial].
  intros Hp Hl. apply list_lookup_insert_eq. lia.
Qed.

Lemma set_pk_range sc rid vals :
  in_int64 rid = true -> Forall value_in_range vals -> Forall value_in_range (set_pk sc rid vals).
Proof.
  unfold set_pk. intros Hr Hv. destruct (sc_pk sc); [|exact Hv].
  apply Forall_insert; [exact Hv | exact Hr].
Qed.

Lemma lookup_ref_in cols vals r v : lookup_ref cols vals r = Some v -> In v vals.
Proof.
  unfold lookup_ref. destruct (find_index _ _); [|discriminate].
  intros H. apply list_elem_of_lookup_2 in H. now apply list_elem_of_In.
Qed.

(** In rowid order, the last row has the largest rowid. *)
Lemma last_is_max (rows : list row) r :
  StronglySorted Z.lt (map fst rows) -> last rows = Some r ->
  Forall (fun k => (k <= r.1)%Z) (map fst rows).
Proof.
  induction rows as [|r0 rs IH]; intros Hs Hl; [discriminate|].
  simpl in Hs. inversion Hs as [|? ? Hs' Hall]; subst.
  destruct rs as [|r1 rs].
  - simpl in Hl. injection Hl as ->. repeat constructor. lia.
  - assert (Hl' : last (r1 :: rs) = Some r) by exact Hl.
    specialize (IH Hs' Hl'). constructor; [|exact IH].
    inversion IH as [|? ? Hr1 _]; subst. inversion Hall as [|? ? Hlt _]; subst. simpl in *. lia.
Qed.

Lemma last_in (rows : list row) r : last rows = Some r -> In r rows.
Proof.
  intros H. apply last_Some in H as [l ->]. apply in_or_app. right. now left.
Qed.

Lemma new_rowid_fresh sc rows z :
  StronglySorted Z.lt (map fst rows) -> Forall (wf_row sc) rows ->
  new_rowid rows = inr z -> in_int64 z = true /\ ~ In z (map fst rows).
Proof.
  unfold new_rowid. intros Hs Hw H.
  destruct (last rows) as [r|] eqn:El.
  - destruct (Z.eqb_spec r.1 int64_max) as [|Hne]; [simpl in H; discriminate|].
    simpl in H. injection H as <-.
    pose proof (last_is_max rows r Hs El) as Hmax.
    apply last_in in El. rewrite List.Forall_forall in Hw.
    destruct (Hw r El) as (_ & Hr & _). apply in_int64_iff in Hr.
    split; [apply in_int64_iff; unfold int64_max in *; lia|].
    intros Hin. rewrite List.Forall_forall in Hmax. apply Hmax in Hin. lia.
  - simpl in H. injection H as <-. split; [reflexivity|].
    apply last_None in El. subst rows. intros [].
Qed.

Lemma given_values_range sc cols vals :
  Forall value_in_range vals -> Forall value_in_range (given_values sc cols vals).
Proof.
  intros Hv. apply Forall_lookup_2. intros i v Hi.
  unfold given_values in Hi. rewrite list_lookup_imap in Hi.
  destruct (sc_cols sc !! i) as [col|]; [|discriminate].
  simpl in Hi. injection Hi as <-.
  destruct (lookup_ref cols vals (CCol i)) as [v|] eqn:E; [|exact I].
  apply apply_affinity_in_range. apply lookup_ref_in in E.
  rewrite List.Forall_forall in Hv. now apply Hv.
Qed.

Lemma explicit_rowid_in sc cols vals v : explicit_rowid sc cols vals = Some v -> In v vals.
Proof.
  unfold explicit_rowid. destruct (sc_pk sc) as [p|]; [|apply lookup_ref_in].
  destruct (lookup_ref cols vals (CCol p)) eqn:E.
  - intros [= <-]. eapply lookup_ref_in. exact E.
  - apply lookup_ref_in.
Qed.

Lemma choose_rowid_range sc rows cols vals rid :
  StronglySorted Z.lt (map fst rows) -> Forall (wf_row sc) rows ->
  Forall value_in_range vals ->
  choose_rowid rows (explicit_rowid sc cols vals) = inr rid -> in_int64 rid = true.
Proof.
  intros Hs Hw Hv. unfold choose_rowid.
  destruct (explicit_rowid sc cols vals) as [v|] eqn:Ee.
  - assert (Hr : value_in_range v).
    { apply explicit_rowid_in in Ee. rewrite List.Forall_forall in Hv. now apply Hv. }
    destruct v; try (intros H; now apply (rowid_of_value_range _ _ Hr H)).
    intros H. now apply (new_rowid_fresh sc rows rid Hs Hw H).
  - intros H. now apply (new_rowid_fresh sc rows rid Hs Hw H).
Qed.

(** A row inserted is well formed and its rowid is new. *)
Lemma insert_row_wf sc rows cols vals r :
  wf_schema sc -> StronglySorted Z.lt (map fst rows) -> Forall (wf_row sc) rows ->
  Forall value_in_range vals ->
  insert_row sc rows cols vals = inr r -> wf_row sc r /\ ~ In r.1 (map fst rows).
Proof.
  intros Hsc Hs Hw Hv. unfold insert_row.
  destruct (choose_rowid rows (explicit_rowid sc cols vals)) as [e|rid] eqn:Er;
    [discriminate|].
  pose proof (choose_rowid_range sc rows cols vals rid Hs Hw Hv Er) as Hrange.
  destruct (check_notnull sc (set_pk sc rid (given_values sc cols vals))) eqn:En;
    [discriminate|].
  destruct (existsb (fun r0 => (r0.1 =? rid)%Z) rows) eqn:Ex; [discriminate|].
  intros H. injection H as <-. simpl. split.
  - unfold wf_row. simpl. refine (conj _ (conj _ (conj _ (conj _ _)))).
    + rewrite set_pk_length. apply length_imap.
    + exact Hrange.
    + apply set_pk_ok; [exact Hsc | apply length_imap].
    + exact En.
    + apply set_pk_range; [exact Hrange | now apply given_values_range].
  - intros Hin. apply in_map_iff in Hin as (r0 & Hr0 & Hin).
    assert (existsb (fun r1 => (r1.1 =? rid)%Z) rows = true) as Hc.
    { apply existsb_exists. exists r0. split; [exact Hin|]. now apply Z.eqb_eq. }
    congruence.
Qed.

Lemma set_values_length sc sets vals :
  length (fold_left (set_value sc) sets vals) = length vals.
Proof.
  revert vals. induction sets as [|sv sets IH]; intros vals; [reflexivity|].
  simpl. rewrite IH. unfold set_value. destruct sv.1; [reflexivity | apply length_insert].
Qed.

Lemma set_values_range sc sets vals :
  Forall value_in_range (map snd sets) -> Forall value_in_range vals ->
  Forall value_in_range (fold_left (set_value sc) sets vals).
Proof.
  revert vals. induction sets as [|sv sets IH]; intros vals Hs Hv; [exact Hv|].
  simpl in Hs. inversion Hs as [|? ? Hsv Hs']; subst. simpl. apply IH; [exact Hs'|].
  unfold set_value. destruct sv.1; [exact Hv|].
  apply Forall_insert; [exact Hv | now apply apply_affinity_in_range].
Qed.

Lemma rowid_assignment_acc sc (sets : list (colref * value)) (acc : option value) v :
  fold_left (fun acc sv => if is_rowid_ref sc sv.1 then Some sv.2 else acc) sets acc = Some v ->
  acc = Some v \/ In v (map snd sets).
Proof.
  revert acc. induction sets as [|sv sets IH]; intros acc H; [now left|].
  simpl in H. apply IH in H as [H|H].
  - destruct (is_rowid_ref sc sv.1); [|now left]. injection H as <-. right. now left.
  - right. now right.
Qed.

Lemma rowid_assignment_in sc sets v :
  rowid_assignment sc sets = Some v -> In v (map snd sets).
Proof. intros H. apply rowid_assignment_acc in H as [H|H]; [discriminate | exact H]. Qed.

Lemma rowid_assignment_none sc sets :
  existsb (is_rowid_ref sc) (map fst sets) = false -> rowid_assignment sc sets = None.
Proof.
  unfold rowid_assignment. generalize (@None value) as acc.
  induction sets as [|sv sets IH]; intros acc H; [reflexivity|].
  simpl in H. apply orb_false_iff in H as [H1 H2]. simpl. rewrite H1. now apply IH.
Qed.

(** An updated row is well formed. *)
Lemma update_row_wf sc sets r r' :
  wf_schema sc -> wf_row sc r -> Forall value_in_range (map snd sets) ->
  update_row sc sets r = inr r' -> wf_row sc r'.
Proof.
  intros Hsc (Hl & Hr & _ & _ & Hv) Hs. unfold update_row.
  destruct (match rowid_assignment sc sets with
            | Some v => rowid_of_value v | None => inr r.1 end) as [e|rid] eqn:Er;
    [discriminate|].
  assert (Hrid : in_int64 rid = true).
  { destruct (rowid_assignment sc sets) as [v|] eqn:Ea; [|now injection Er as <-].
    apply (rowid_of_value_range v); [|exact Er].
    apply rowid_assignment_in in Ea. rewrite List.Forall_forall in Hs. now apply Hs. }
  destruct (check_notnull _ _) eqn:En; [discriminate|].
  intros H. injection H as <-. unfold wf_row. simpl.
  refine (conj _ (conj Hrid (conj _ (conj En _)))).
  - now rewrite set_pk_length, set_values_length.
  - apply set_pk_ok; [exact Hsc|]. now rewrite set_values_length.
  - apply set_pk_range; [exact Hrid|]. now apply set_values_range.
Qed.

(** Without an assignment to the rowid, an updated row keeps it. *)
Lemma update_row_key sc sets r r' :
  existsb (is_rowid_ref sc) (map fst sets) = false ->
  update_row sc sets r = inr r' -> r'.1 = r.1.
Proof.
  intros Hn. unfold update_row. rewrite rowid_assignment_none by exact Hn. simpl.
  destruct (check_notnull _ _); [discriminate|]. now intros [= <-].
Qed.

Lemma update_rows_wf sc sets conds rows rows' :
  wf_schema sc -> Forall (wf_row sc) rows -> Forall value_in_range (map snd sets) ->
  update_rows sc sets conds rows = inr rows' -> Forall (wf_row sc) rows'.
Proof.
  intros Hsc. revert rows'. induction rows as [|r rs IH]; intros rows' Hw Hs H.
  - simpl in H. now injection H as <-.
  - inversion Hw as [|? ? Hr Hrs]; subst. simpl in H.
    destruct (if row_matches sc conds r then update_row sc sets r else inr r) as [e|r'] eqn:E1;
      [discriminate|].
    destruct (update_rows sc sets conds rs) as [e|rs'] eqn:E2; [discriminate|].
    injection H as <-. constructor; [|now apply IH].
    destruct (row_matches sc conds r); [|now injection E1 as <-].
    eapply update_row_wf; eassumption.
Qed.

Lemma update_rows_keys sc sets conds rows rows' :
  existsb (is_rowid_ref sc) (map fst sets) = false ->
  update_rows sc sets conds rows = inr rows' -> map fst rows' = map fst rows.
Proof.
  intros Hn. revert rows'. induction rows as [|r rs IH]; intros rows' H.
  - simpl in H. now injection H as <-.
  - simpl in H.
    destruct (if row_matches sc conds r then update_row sc sets r else inr r) as [e|r'] eqn:E1;
      [discriminate|].
    destruct (update_rows sc sets conds rs) as [e|rs'] eqn:E2; [discriminate|].
    injection H as <-. simpl. rewrite (IH rs' eq_refl). f_equal.
    destruct (row_matches sc conds r); [|now injection E1 as <-].
    eapply update_row_key; eassumption.
Qed.

Lemma nodupb_NoDup zs : nodupb zs = true -> List.NoDup zs.
Proof.
  induction zs as [|z zs IH]; intros H; simpl in H; [constructor|].
  apply andb_prop in H as [H1 H2]. constructor; [|now apply IH].
  intros Hin. apply negb_true_iff in H1.
  assert (existsb (Z.eqb z) zs = true) by (apply existsb_exists; exists z; split; [exact Hin | apply Z.eqb_refl]).
  congruence.
Qed.

Lemma update_table_wf sc sets conds rows rows' :
  wf_schema sc -> StronglySorted Z.lt (map fst rows) -> Forall (wf_row sc) rows ->
  Forall value_in_range (map snd sets) ->
  update_table sc sets conds rows = inr rows' ->
  StronglySorted Z.lt (map fst rows') /\ Forall (wf_row sc) rows'.
Proof.
  intros Hsc Hs Hw Hv. unfold update_table.
  destruct (update_rows sc sets conds rows) as [e|rows1] eqn:E; [discriminate|].
  pose proof (update_rows_wf sc sets conds rows rows1 Hsc Hw Hv E) as Hw1.
  destruct (existsb (is_rowid_ref sc) (map fst sets)) eqn:Ex.
  - destruct (nodupb (map fst rows1)) eqn:Ed; [|discriminate].
    intros H. injection H as <-. split.
    + apply sort_by_key_sorted. now apply nodupb_NoDup.
    + eapply Permutation_Forall; [symmetry; apply sort_by_key_perm | exact Hw1].
  - intros H. injection H as <-. split; [|exact Hw1].
    now rewrite (update_rows_keys sc sets conds rows rows1 Ex E).
Qed.

Lemma zip_snd_range (refs : list colref) vals :
  Forall value_in_range vals -> Forall value_in_range (map snd (zip refs vals)).
Proof.
  revert vals. induction refs as [|c refs IH]; intros [|v vals] H; simpl; try constructor.
  - now inversion H.
  - apply IH. now inversion H.
Qed.

Lemma schema_of_create_wf t cds fks sc :
  schema_of_create t cds fks = inr sc -> wf_schema sc.
Proof.
  unfold schema_of_create. destruct (has_dup_name _); [discriminate|].
  destruct (List.filter _ _) as [|[i cd] [|]] eqn:E.
  - intros [= <-]. exact I.
  - destruct (String.eqb _ _); [|discriminate]. intros [= <-]. unfold wf_schema. simpl.
    assert (Hin : In (i, cd) (imap pair cds)).
    { apply (List.filter_In (fun icd => cd_pk icd.2)). rewrite E. now left. }
    apply list_elem_of_In, elem_of_lookup_imap_1 in Hin as (j & y & Hj & Hl).
    injection Hj as -> ->. rewrite length_map. apply lookup_lt_Some in Hl. exact Hl.
  - discriminate.
Qed.

Lemma prepare_create_wf d s sc : prepare d s = inr (PlCreate sc) -> wf_schema sc.
Proof.
  destruct s; simpl.
  - destruct (find_table d t); [destruct (resolve_cols _ _)|]; discriminate.
  - destruct (find_table d t); [destruct (resolve_cols _ _); [|destruct (Nat.eqb _ _)]|];
      discriminate.
  - destruct (find_table d t); [destruct (resolve_cols _ sets); [|destruct (resolve_cols _ w)]|];
      discriminate.
  - destruct (find_table d t); [destruct (resolve_cols _ _)|]; discriminate.
  - destruct (find_table d t); [destruct ifne; discriminate|].
    destruct (schema_of_create t cols fks) eqn:E; [discriminate|].
    intros [= <-]. now apply schema_of_create_wf in E.
Qed.

Lemma Forall_filter_bool {A} (P : A -> Prop) (f : A -> bool) l :
  Forall P l -> Forall P (List.filter f l).
Proof.
  rewrite !List.Forall_forall. intros H x Hx. apply List.filter_In in Hx as [Hx _]. auto.
Qed.

(** Every statement keeps the database well formed: rowids strictly
    increasing in every table, rows of the schema's width, the INTEGER
    PRIMARY KEY column equal to the rowid, NOT NULL columns non-null and
    integers in the 64-bit range. *)
Theorem run_preserves_wf d s p vals r :
  wf_db d -> Forall value_in_range vals ->
  prepare d s = inr p -> run d p vals = inr r -> wf_db (er_db r).
Proof.
  intros Hd Hv Hp. destruct p as [t conds|t cols|t sets conds|t conds|sc|]; simpl.
  - unfold with_table. destruct (find_table d t); [|discriminate]. now intros [= <-].
  - unfold with_table. destruct (find_table d t) as [tb|] eqn:Et; [|discriminate].
    apply find_table_in in Et. unfold wf_db in Hd. rewrite List.Forall_forall in Hd.
    destruct (Hd tb Et) as (Hsc & Hs & Hw).
    destruct (insert_row _ _ cols vals) as [e|r'] eqn:Ei; [discriminate|].
    destruct (insert_row_wf _ _ _ _ _ Hsc Hs Hw Hv Ei) as [Hr' Hfresh].
    intros [= <-]. simpl. apply set_table_wf; [now apply List.Forall_forall|].
    split; [exact Hsc|]. simpl. split.
    + now apply insert_by_key_sorted.
    + eapply Permutation_Forall; [symmetry; apply insert_by_key_perm|]. now constructor.
  - unfold with_table. destruct (find_table d t) as [tb|] eqn:Et; [|discriminate].
    apply find_table_in in Et. unfold wf_db in Hd. rewrite List.Forall_forall in Hd.
    destruct (Hd tb Et) as (Hsc & Hs & Hw).
    destruct (update_table _ _ _ _) as [e|rows'] eqn:Eu; [discriminate|].
    apply update_table_wf in Eu as [Hs' Hw']; [|exact Hsc|exact Hs|exact Hw|].
    + intros [= <-]. simpl. apply set_table_wf; [now apply List.Forall_forall|].
      split; [exact Hsc|]. now split.
    + apply zip_snd_range. now apply Forall_take.
  - unfold with_table. destruct (find_table d t) as [tb|] eqn:Et; [|discriminate].
    apply find_table_in in Et. unfold wf_db in Hd. rewrite List.Forall_forall in Hd.
    destruct (Hd tb Et) as (Hsc & Hs & Hw).
    intros [= <-]. simpl. apply set_table_wf; [now apply List.Forall_forall|].
    split; [exact Hsc|]. split.
    + now apply sorted_keys_filter.
    + now apply Forall_filter_bool.
  - intros [= <-]. simpl. apply Forall_app; split; [exact Hd|].
    constructor; [|constructor]. split; [now apply prepare_create_wf in Hp|].
    split; constructor.
  - now intros [= <-].
Qed.

Lemma sorted_b_sound zs : sorted_b zs = true -> StronglySorted Z.lt zs.
Proof.
  induction zs as [|z zs IH]; simpl; intros H; [constructor|].
  apply andb_prop in H as [H1 H2]. constructor; [now apply IH|].
  apply List.Forall_forall. intros x Hx. rewrite forallb_forall in H1.
  apply Z.ltb_lt. now apply H1.
Qed.

Lemma wf_row_b_sound sc r : wf_row_b sc r = true -> wf_row sc r.
Proof.
  unfold wf_row_b, wf_row, pk_ok_b, pk_ok. rewrite !andb_true_iff.
  intros ((((Hl & Hr) & Hp) & Hn) & Hv).
  refine (conj (proj1 (Nat.eqb_eq _ _) Hl) (conj Hr (conj _ (conj _ _)))).
  - destruct (sc_pk sc); [now apply bool_decide_eq_true in Hp | exact I].
  - now apply bool_decide_eq_true in Hn.
  - apply List.Forall_forall. rewrite forallb_forall in Hv. intros v Hin.
    specialize (Hv v Hin). destruct v; simpl in *; auto.
Qed.

Lemma wf_table_b_sound tb : wf_table_b tb = true -> wf_table tb.
Proof.
  unfold wf_table_b. rewrite !andb_true_iff. intros ((Hp & Hs) & Hw).
  split; [|split].
  - unfold wf_schema. destruct (sc_pk (tb_schema tb)); [now apply Nat.ltb_lt | exact I].
  - now apply sorted_b_sound.
  - apply List.Forall_forall. rewrite forallb_forall in Hw. intros r Hr.
    apply wf_row_b_sound. now apply Hw.
Qed.

Lemma wf_db_b_sound d : wf_db_b d = true -> wf_db d.
Proof.
  unfold wf_db_b, wf_db. rewrite forallb_forall. intros H.
  apply List.Forall_forall. intros tb Hin. now apply wf_table_b_sound, H.
Qed.

(** ** Resolution *)

Lemma resolve_cols_length sc cs rs : resolve_cols sc cs = inr rs -> length rs = length cs.
Proof.
  revert rs. induction cs as [|c cs IH]; simpl; intros rs H; [now invc H|].
  destruct (resolve_col sc c); [|discriminate].
  destruct (resolve_cols sc cs) eqn:E; [discriminate|]. invc H. simpl. now rewrite (IH _ eq_refl).
Qed.

(** ** Tables by name *)

Lemma find_set_table d t tb rows :
  find_table d t = Some tb ->
  find_table (set_table d (Table (tb_schema tb) rows)) t = Some (Table (tb_schema tb) rows).
Proof.
  unfold find_table, set_table. induction d as [|tb0 d IH]; simpl; [discriminate|].
  destruct (name_eqb (sc_name (tb_schema tb0)) t) eqn:E.
  - intros [= ->]. rewrite name_eqb_refl. simpl. now rewrite E.
  - intros H. destruct (name_eqb (sc_name (tb_schema tb0)) (sc_name (tb_schema tb))) eqn:E2.
    + apply find_some in H as [_ Ht].
      rewrite (name_eqb_trans _ _ _ E2 Ht) in E. discriminate.
    + simpl. rewrite E. now apply IH.
Qed.

(** ** Selecting by rowid *)

Lemma row_get_rowid sc ref r :
  is_rowid_ref sc ref = true -> pk_ok sc r -> row_get r ref = VInt r.1.
Proof.
  unfold pk_ok. destruct ref as [|i]; [reflexivity|]. simpl.
  destruct (sc_pk sc) as [p|]; [|discriminate].
  intros Hr Hp. apply Nat.eqb_eq in Hr as ->. now rewrite Hp.
Qed.

Lemma row_matches_rowid sc ref v r :
  is_rowid_ref sc ref = true -> pk_ok sc r ->
  row_matches sc [(ref, v)] r = sql_eqb (VInt r.1) (apply_affinity (ref_affinity sc ref) v).
Proof.
  intros Hr Hp. unfold row_matches. simpl. rewrite andb_true_r.
  now rewrite (row_get_rowid sc ref r Hr Hp).
Qed.

(** A WHERE on a rowid reference with an integer compares the rowids. *)
Lemma select_rows_by_rowid sc ref z rows :
  is_rowid_ref sc ref = true -> ref_affinity sc ref = AInteger ->
  Forall (pk_ok sc) rows ->
  select_rows sc [(ref, VInt z)] rows = map row_out (List.filter (fun r => (r.1 =? z)%Z) rows).
Proof.
  intros Hr Ha Hpk. unfold select_rows. f_equal.
  apply List.filter_ext_in. intros r Hin. rewrite List.Forall_forall in Hpk.
  rewrite row_matches_rowid by auto. now rewrite Ha.
Qed.

(** Bound parameters are in the 64-bit range. *)
Lemma bind_values_range ps vs : bind_values ps = Some vs -> Forall value_in_range vs.
Proof.
  revert vs. induction ps as [|p ps IH]; simpl; intros vs H; [now invc H|].
  destruct (bind_value p) as [v|] eqn:Ev; [|discriminate].
  destruct (bind_values ps) as [vs'|]; [|discriminate]. invc H.
  constructor; [|now apply IH].
  destruct p; simpl in Ev; [now invc Ev| |now invc Ev].
  destruct (in_int64 z) eqn:Ez; [|discriminate]. now invc Ev.
Qed.

Lemma set_table_idem d tb : set_table (set_table d tb) tb = set_table d tb.
Proof.
  unfold set_table. rewrite map_map. apply map_ext. intros tb'.
  destruct (name_eqb (sc_name (tb_schema tb')) (sc_name (tb_schema tb))) eqn:E;
    [now rewrite name_eqb_refl | now rewrite E].
Qed.

Lemma map_fst_zip {A B} (l : list A) (k : list B) :
  length l = length k -> map fst (zip l k) = l.
Proof.
  revert k. induction l as [|a l IH]; intros [|b k] H; simpl in *; try lia; [reflexivity|].
  f_equal. apply IH. lia.
Qed.

Lemma map_snd_zip {A B} (l : list A) (k : list B) :
  length l = length k -> map snd (zip l k) = k.
Proof.
  revert k. induction l as [|a l IH]; intros [|b k] H; simpl in *; try lia; [reflexivity|].
  f_equal. apply IH. lia.
Qed.

Lemma find_index_none {A} (p : A -> bool) l :
  Forall (fun x => p x = false) l -> find_index p l = None.
Proof. induction 1 as [|x l Hx _ IH]; simpl; [reflexivity|]. now rewrite Hx, IH. Qed.

Lemma lookup_ref_notin cols vals r : r ∉ cols -> lookup_ref cols vals r = None.
Proof.
  intros Hn. unfold lookup_ref. rewrite find_index_none; [reflexivity|].
  apply Forall_forall. intros x Hx. apply bool_decide_eq_false. intros ->. contradiction.
Qed.

(** Without the rowid nor the INTEGER PRIMARY KEY among the inserted
    columns, the row gets no explicit rowid. *)
Lemma explicit_rowid_none sc cols vals :
  CRowid ∉ cols -> (forall p, sc_pk sc = Some p -> CCol p ∉ cols) ->
  explicit_rowid sc cols vals = None.
Proof.
  intros Hr Hp. unfold explicit_rowid.
  destruct (sc_pk sc) as [p|]; [|now apply lookup_ref_notin].
  rewrite (lookup_ref_notin _ _ (CCol p)) by now apply Hp.
  now apply lookup_ref_notin.
Qed.

Lemma insert_row_auto_rowid sc rows cols vals r :
  CRowid ∉ cols -> (forall p, sc_pk sc = Some p -> CCol p ∉ cols) ->
  insert_row sc rows cols vals = inr r -> new_rowid rows = inr r.1.
Proof.
  intros Hr Hp. unfold insert_row. rewrite explicit_rowid_none by assumption.
  cbn [choose_rowid]. destruct (new_rowid rows) as [e|rid]; [discriminate|].
  destruct (check_notnull _ _); [discriminate|].
  destruct (existsb _ rows); [discriminate|]. now intros [= <-].
Qed.

(** A fresh rowid is one more than the last (largest) rowid, 1 in an
    empty table. *)
Lemma new_rowid_next (rows : list row) z :
  StronglySorted Z.lt (map fst rows) -> new_rowid rows = inr z ->
  z = default 1%Z ((fun r0 : row => r0.1 + 1)%Z <$> last rows) /\
  Forall (fun k => (k < z)%Z) (map fst rows).
Proof.
  unfold new_rowid. intros Hs H. destruct (last rows) as [r|] eqn:El.
  - destruct (r.1 =? int64_max)%Z; [discriminate|]. injection H as <-.
    split; [reflexivity|]. eapply Forall_impl; [exact (last_is_max rows r Hs El)|].
    simpl. lia.
  - injection H as <-. apply last_None in El. subst rows. split; [reflexivity | constructor].
Qed.

