(* ===== verification/Updates.v ===== *)
(** * Updates: what an UPDATE does to the rows it selects

    The SET list of an UPDATE writes the values at the positions of its
    columns ([set_value], folded over the list by [update_row]).  Here the
    value a SET list leaves at a position is computed apart
    ([assigned]); from it follow the facts about [update_row],
    [update_rows] and [update_table] the program's [update] relies on:
    the columns not named keep their values, a row keyed by its rowid is
    selected again after the update, and updating twice is updating
    once. *)

From S2P Require Import Prelude Values Engine.

(** The SET list names no rowid (neither [rowid] nor the INTEGER PRIMARY
    KEY column). *)
Definition keeps_rowid (sc : schema) (sets : list (colref * value)) : bool :=
  negb (existsb (is_rowid_ref sc) (map fst sets)).

(** The failures of an UPDATE are constraint failures: NOT NULL, a
    rowid that is no integer, a rowid used twice. *)
Definition is_constraint (e : db_error) : bool :=
  match e with ENotNull _ _ | EMismatch | EUnique _ _ => true | _ => false end.

Section Assign.
Context (sc : schema).

(** The value the SET list [sets] leaves at position [i] of a row that
    holds [o] there. *)
Definition assigned (sets : list (colref * value)) (o : option value) (i : nat)
    : option value :=
  fold_left (fun acc sv => match sv.1 with
                           | CCol j => if Nat.eqb j i
                                       then Some (apply_affinity (ref_affinity sc sv.1) sv.2)
                                       else acc
                           | CRowid => acc
                           end) sets o.

Lemma assigned_split sets o i :
  assigned sets o i = match assigned sets None i with Some x => Some x | None => o end.
Proof.
  unfold assigned. revert o. induction sets as [|[[|j] v] sets IH]; intros o; simpl;
    [now destruct o | apply IH |].
  rewrite (IH (if Nat.eqb j i then _ else o)), (IH (if Nat.eqb j i then _ else None)).
  destruct (fold_left _ sets None); [reflexivity|]. now destruct (Nat.eqb j i).
Qed.

Lemma assigned_idem sets o i : assigned sets (assigned sets o i) i = assigned sets o i.
Proof.
  rewrite (assigned_split sets (assigned sets o i)), (assigned_split sets o).
  now destruct (assigned sets None i).
Qed.

Lemma assigned_some sets v i : exists x, assigned sets (Some v) i = Some x.
Proof. rewrite assigned_split. destruct (assigned sets None i); eauto. Qed.

(** A position holds, after the SET list, what [assigned] says (writes
    past the end of the row are dropped). *)
Lemma fold_set_value_lookup sets vals i :
  fold_left (set_value sc) sets vals !! i =
  match vals !! i with None => None | Some _ => assigned sets (vals !! i) i end.
Proof.
  unfold assigned. revert vals. induction sets as [|sv sets IH]; intros vals; simpl.
  - now destruct (vals !! i).
  - rewrite IH. unfold set_value. destruct sv as [[|j] v]; simpl; [reflexivity|].
    rewrite list_lookup_insert.
    destruct (Nat.eqb_spec j i) as [->|Hne].
    + destruct (decide (i = i /\ i < length vals)) as [[_ Hlt]|Hn].
      * destruct (lookup_lt_is_Some_2 vals i Hlt) as [y ->]. reflexivity.
      * rewrite lookup_ge_None_2; [reflexivity|]. lia.
    + rewrite decide_False by tauto. reflexivity.
Qed.

(** Running a SET list twice is running it once. *)
Lemma fold_set_value_idem sets vals :
  fold_left (set_value sc) sets (fold_left (set_value sc) sets vals) =
  fold_left (set_value sc) sets vals.
Proof.
  apply list_eq. intros i. rewrite !fold_set_value_lookup.
  destruct (vals !! i) as [v|]; [|reflexivity].
  destruct (assigned_some sets v i) as [x Hx]. rewrite Hx, <- Hx. apply assigned_idem.
Qed.

Lemma assigned_other sets o i :
  Forall (fun sv => sv.1 <> CCol i) sets -> assigned sets o i = o.
Proof.
  unfold assigned. revert o.
  induction sets as [|[[|j] v] sets IH]; intros o H; [reflexivity| |];
    apply Forall_cons in H as [Hj H]; simpl; [now apply IH|].
  destruct (Nat.eqb_spec j i); [subst; contradiction|]. now apply IH.
Qed.

End Assign.

(** ** Rows *)

Lemma keeps_rowid_not_pk sc sets p :
  sc_pk sc = Some p -> keeps_rowid sc sets = true -> Forall (fun sv => sv.1 <> CCol p) sets.
Proof.
  intros Hp Hk. unfold keeps_rowid in Hk. apply negb_true_iff in Hk.
  apply List.Forall_forall. intros sv Hin Heq.
  assert (existsb (is_rowid_ref sc) (map fst sets) = true) as Hx.
  { apply existsb_exists. exists sv.1. split; [now apply in_map|].
    rewrite Heq. simpl. rewrite Hp. apply Nat.eqb_refl. }
  congruence.
Qed.

Lemma keeps_rowid_none sc sets :
  keeps_rowid sc sets = true -> rowid_assignment sc sets = None.
Proof. intros H. apply rowid_assignment_none. now apply negb_true_iff. Qed.

Lemma set_pk_lookup sc rid vals i :
  set_pk sc rid vals !! i =
  match sc_pk sc with
  | Some p => if decide (p = i /\ p < length vals) then Some (VInt rid) else vals !! i
  | None => vals !! i
  end.
Proof. unfold set_pk. destruct (sc_pk sc); [apply list_lookup_insert | reflexivity]. Qed.

(** The row an UPDATE that keeps the rowid makes of a row whose primary
    key column holds its rowid: same rowid, and at every position what
    the SET list leaves there. *)
Lemma update_row_lookup sc sets r r' :
  keeps_rowid sc sets = true -> pk_ok sc r -> update_row sc sets r = inr r' ->
  r'.1 = r.1 /\
  forall i, r'.2 !! i = match r.2 !! i with None => None | Some _ => assigned sc sets (r.2 !! i) i end.
Proof.
  intros Hk Hpk. unfold update_row. rewrite keeps_rowid_none by exact Hk. simpl.
  destruct (check_notnull _ _); [discriminate|]. intros [= <-]. split; [reflexivity|].
  intros i. simpl. rewrite set_pk_lookup, fold_set_value_lookup, set_values_length.
  unfold pk_ok in Hpk. destruct (sc_pk sc) as [p|] eqn:Ep; [|reflexivity].
  destruct (decide (p = i /\ p < length r.2)) as [[<- _]|]; [|reflexivity].
  rewrite Hpk. symmetry. now apply assigned_other, (keeps_rowid_not_pk sc sets p).
Qed.

Lemma set_pk_fold_commute sc sets rid vals :
  keeps_rowid sc sets = true ->
  fold_left (set_value sc) sets (set_pk sc rid vals) =
  set_pk sc rid (fold_left (set_value sc) sets vals).
Proof.
  intros Hk. apply list_eq. intros i.
  rewrite fold_set_value_lookup, !set_pk_lookup, set_values_length, fold_set_value_lookup.
  destruct (sc_pk sc) as [p|] eqn:Ep; [|reflexivity].
  destruct (decide (p = i /\ p < length vals)) as [[<- _]|Hn]; [|reflexivity].
  now apply assigned_other, (keeps_rowid_not_pk sc sets p).
Qed.

Lemma set_pk_idem sc rid vals : set_pk sc rid (set_pk sc rid vals) = set_pk sc rid vals.
Proof. unfold set_pk. destruct (sc_pk sc); [apply list_insert_insert_eq | reflexivity]. Qed.

(** Updating a row twice is updating it once. *)
Lemma update_row_idem sc sets r r' :
  keeps_rowid sc sets = true -> update_row sc sets r = inr r' -> update_row sc sets r' = inr r'.
Proof.
  intros Hk. unfold update_row. rewrite keeps_rowid_none by exact Hk. simpl.
  destruct (check_notnull _ _) eqn:En; [discriminate|]. intros [= <-]. simpl.
  rewrite set_pk_fold_commute, set_pk_idem, fold_set_value_idem by exact Hk.
  now rewrite En.
Qed.

(** ** Tables *)

Lemma update_table_keeps sc sets conds rows :
  keeps_rowid sc sets = true -> update_table sc sets conds rows = update_rows sc sets conds rows.
Proof.
  unfold update_table, keeps_rowid. intros Hk. apply negb_true_iff in Hk. rewrite Hk.
  now destruct (update_rows sc sets conds rows).
Qed.

(** Row by row: a row the WHERE selects is updated, the others are
    kept. *)
Lemma update_rows_rel sc sets conds rows rows' :
  update_rows sc sets conds rows = inr rows' ->
  Forall2 (fun r r' => if row_matches sc conds r then update_row sc sets r = inr r' else r' = r)
          rows rows'.
Proof.
  revert rows'. induction rows as [|r rs IH]; simpl; intros rows' H; [now invc H|].
  destruct (if row_matches sc conds r then update_row sc sets r else inr r) as [|r0] eqn:E0;
    [discriminate|].
  destruct (update_rows sc sets conds rs) as [|rs'] eqn:Er; [discriminate|]. invc H.
  constructor; [|now apply IH].
  destruct (row_matches sc conds r); [exact E0|]. now invc E0.
Qed.

(** An UPDATE keyed by the rowid that keeps the rowid, run a second
    time, changes nothing more. *)
Lemma update_rows_idem sc sets ref v rows rows' :
  wf_schema sc -> Forall (wf_row sc) rows -> Forall value_in_range (map snd sets) ->
  keeps_rowid sc sets = true -> is_rowid_ref sc ref = true ->
  update_rows sc sets [(ref, v)] rows = inr rows' ->
  update_rows sc sets [(ref, v)] rows' = inr rows'.
Proof.
  intros Hsc Hw Hv Hk Hr. revert rows'.
  induction rows as [|r rs IH]; cbn [update_rows]; intros rows' H; [now invc H|].
  apply Forall_cons in Hw as [Hwr Hw].
  destruct (if row_matches sc [(ref, v)] r then update_row sc sets r else inr r) as [|r0] eqn:E0;
    [discriminate|].
  destruct (update_rows sc sets [(ref, v)] rs) as [|rs'] eqn:Er; [discriminate|]. invc H.
  cbn [update_rows]. rewrite (IH Hw rs' eq_refl).
  destruct (row_matches sc [(ref, v)] r) eqn:Em; [|invc E0; now rewrite Em].
  pose proof (update_row_wf sc sets r r0 Hsc Hwr Hv E0) as (_ & _ & Hpk0 & _).
  pose proof (update_row_key sc sets r r0 (proj1 (negb_true_iff _) Hk) E0) as Hkey.
  rewrite row_matches_rowid in Em |- * by (apply Hwr || assumption).
  rewrite Hkey, Em, (update_row_idem sc sets r r0 Hk E0). reflexivity.
Qed.

(** ** Failures *)

Lemma rowid_of_value_constraint v e : rowid_of_value v = inl e -> is_constraint e = true.
Proof. unfold rowid_of_value. destruct (apply_affinity AInteger v); now intros [= <-]. Qed.

Lemma check_notnull_constraint sc vals e : check_notnull sc vals = Some e -> is_constraint e = true.
Proof. unfold check_notnull. destruct (find_index _ _); now intros [= <-]. Qed.

Lemma update_row_constraint sc sets r e : update_row sc sets r = inl e -> is_constraint e = true.
Proof.
  unfold update_row.
  destruct (match rowid_assignment sc sets with
            | Some v => rowid_of_value v | None => inr r.1 end) as [e'|rid] eqn:Er.
  - intros [= <-]. destruct (rowid_assignment sc sets); [|discriminate].
    now apply (rowid_of_value_constraint v).
  - destruct (check_notnull _ _) eqn:En; [|discriminate]. intros [= <-].
    now apply (check_notnull_constraint sc _ _ En).
Qed.

Lemma update_table_constraint sc sets conds rows e :
  update_table sc sets conds rows = inl e -> is_constraint e = true.
Proof.
  unfold update_table.
  assert (Hrows : forall rows, update_rows sc sets conds rows = inl e -> is_constraint e = true).
  { induction rows0 as [|r rs IH]; cbn [update_rows]; [discriminate|].
    destruct (if row_matches sc conds r then update_row sc sets r else inr r) eqn:E0.
    - intros [= <-]. destruct (row_matches sc conds r); [|discriminate].
      now apply (update_row_constraint sc sets r).
    - destruct (update_rows sc sets conds rs); [|discriminate]. intros [= <-]. auto. }
  destruct (update_rows sc sets conds rows) eqn:Er; [intros [= <-]; eauto|].
  destruct (existsb _ _); [|discriminate]. destruct (nodupb _); [discriminate|].
  now intros [= <-].
Qed.
