(* ===== verification/Conn.v ===== *)
(** * Conn: the [sqlite3] driver — files, connections, transactions

    The state the program acts on is a [world]: the database files by
    path (the shared store every connection to a path reads and commits
    to), the connections the program opened, and what it printed.  A
    connection has its own pending transaction: the driver issues an
    implicit BEGIN before an INSERT, UPDATE or DELETE when none is open
    (after preparing the statement and before binding its parameters, as
    CPython's [_pysqlite_query_execute] does), the first write takes the
    file's write lock and the statement changes the connection's view,
    [commit] writes the view of a transaction that wrote to the file, and
    [close] drops it (rollback).  A transaction that has not written
    reads the file as committed.  A writing connection holds the file's
    write lock until it commits or closes; another connection that tries
    to write meanwhile gets "database is locked".  Readers take no lock
    (the shared locks of SQLite's rollback journal are not modelled).
    DDL runs in autocommit mode when no transaction is open.  Errors of
    the engine surface as the exception classes of [sqlite3]. *)

From S2P Require Import Prelude Values Sql Engine.

Local Open Scope py_scope.

(** ** Exceptions *)

Inductive prog_reason : Type :=
  | PClosed                          (** Cannot operate on a closed database. *)
  | PBindings (needed given : nat).  (** Incorrect number of bindings supplied. *)

Inductive exc : Type :=
  | OperationalError (e : db_error)
  | IntegrityError (e : db_error)
  | ProgrammingError (r : prog_reason)
  | OverflowError                    (** Python int too large to convert to SQLite INTEGER *)
  | AttributeError.                  (** 'NoneType' object has no attribute 'cursor' *)

(** The class [sqlite3] raises for an engine error (constraint and
    datatype-mismatch failures are [IntegrityError]). *)
Definition exc_of_db_error (e : db_error) : exc :=
  match e with
  | ENotNull _ _ | EUnique _ _ | EMismatch => IntegrityError e
  | _ => OperationalError e
  end.

(** [except sqlite3.Error]: the driver's exception family. *)
Definition is_sqlite_error (e : exc) : bool :=
  match e with
  | OperationalError _ | IntegrityError _ | ProgrammingError _ => true
  | OverflowError | AttributeError => false
  end.

(** [except sqlite3.OperationalError]. *)
Definition is_operational (e : exc) : bool :=
  match e with OperationalError _ => true | _ => false end.

(** ** The world *)

(** What [print] wrote: a string, an exception's message, a list of rows,
    or row ids. *)
Inductive event : Type :=
  | EvText (s : string)
  | EvExc (e : exc)
  | EvRows (rows : list (list value))
  | EvIds (ids : list (option Z)).

Record conn : Type := Conn {
  c_path : string;
  c_txn : option db;     (** the view of an open transaction *)
  c_locked : bool;       (** holds the write lock of its file *)
  c_open : bool
}.

Record world : Type := World {
  w_files : gmap string db;
  w_conns : list conn;
  w_bad_paths : list string;   (** paths the OS refuses to open *)
  w_out : list event
}.

(** A connection object is its index among the connections opened. *)
Abbreviation handle := nat.

Record cursor : Type := Cursor {
  cu_conn : handle;
  cu_rows : list (list value);
  cu_lastrowid : option Z
}.

Definition M (A : Type) : Type := PyM world exc A.

Definition set_files (fs : gmap string db) (w : world) : world :=
  World fs (w_conns w) (w_bad_paths w) (w_out w).
Definition set_conns (cs : list conn) (w : world) : world :=
  World (w_files w) cs (w_bad_paths w) (w_out w).
Definition add_out (ev : event) (w : world) : world :=
  World (w_files w) (w_conns w) (w_bad_paths w) (w_out w ++ [ev]).

(** [print(...)]. *)
Definition emit (ev : event) : M unit := py_modify (add_out ev).

Definition file_db (w : world) (path : string) : db := default [] (w_files w !! path).

(** What a connection reads: the view of its transaction once that has
    written (and so holds the write lock), or else the file as other
    connections committed it. *)
Definition view (w : world) (c : conn) : db :=
  match c_txn c with
  | Some d => if c_locked c then d else file_db w (c_path c)
  | None => file_db w (c_path c)
  end.

Definition update_conn (h : handle) (c : conn) : M unit :=
  py_modify (fun w => set_conns (<[h := c]> (w_conns w)) w).

(** The open connection behind a handle ([ProgrammingError] when
    closed). *)
Definition get_conn (h : handle) : M conn :=
  w <- py_get ;;
  match w_conns w !! h with
  | Some c => if c_open c then py_ret c else py_raise (ProgrammingError PClosed)
  | None => py_raise (ProgrammingError PClosed)
  end.

(** Another open connection to the same file holds its write lock
    ([i] is the handle of the first connection of [cs]). *)
Fixpoint locked_from (i h : handle) (path : string) (cs : list conn) : bool :=
  match cs with
  | [] => false
  | c :: cs' =>
      (negb (Nat.eqb i h) && c_open c && c_locked c && String.eqb (c_path c) path)
      || locked_from (S i) h path cs'
  end.

Definition locked_by_other (w : world) (h : handle) (path : string) : bool :=
  locked_from 0 h path (w_conns w).

(** ** Driver operations *)

(** [sqlite3.connect(path)]: opens (and creates when missing) the file. *)
Definition connect (path : string) : M handle :=
  w <- py_get ;;
  if existsb (String.eqb path) (w_bad_paths w) then py_raise (OperationalError ECantOpen)
  else
    let fs := match w_files w !! path with
              | Some _ => w_files w
              | None => <[path := []]> (w_files w)
              end in
    py_put (set_conns (w_conns w ++ [Conn path None false true]) (set_files fs w)) ;;
    py_ret (length (w_conns w)).

(** [conn.cursor()]: [None] has no [cursor] attribute. *)
Definition cursor_of (conn : option handle) : M cursor :=
  match conn with
  | Some h => _ <- get_conn h ;; py_ret (Cursor h [] None)
  | None => py_raise AttributeError
  end.

(** A statement that writes (and so needs the file's write lock). *)
Definition plan_writes (p : plan) : bool :=
  match p with PlSelect _ _ | PlNoop => false | _ => true end.

(** [cur.execute(sql, params)]: check the connection, prepare, begin
    a transaction before DML, bind, step. *)
Definition execute (cu : cursor) (sql : string) (params : list pyval) : M cursor :=
  let h := cu_conn cu in
  c <- get_conn h ;;
  w <- py_get ;;
  match parse_sql sql with
  | None => py_raise (OperationalError ESyntax)
  | Some s =>
      match prepare (view w c) s with
      | inl e => py_raise (exc_of_db_error e)
      | inr p =>
          (* the implicit BEGIN comes before the parameters are bound *)
          let c1 := if is_dml s && bool_decide (c_txn c = None)
                    then Conn (c_path c) (Some (view w c)) (c_locked c) true
                    else c in
          update_conn h c1 ;;
          if negb (Nat.eqb (plan_nparams p) (length params)) then
            py_raise (ProgrammingError (PBindings (plan_nparams p) (length params)))
          else
            match bind_values params with
            | None => py_raise OverflowError
            | Some vals =>
                let writes := plan_writes p in
                if writes && locked_by_other w h (c_path c) then
                  py_raise (OperationalError ELocked)
                else
                  (* a transaction keeps the lock once it has tried to write;
                     an autocommit statement releases it when it ends *)
                  let c2 := Conn (c_path c1) (c_txn c1)
                              (c_locked c1 || (writes && bool_decide (c_txn c1 <> None)))
                              true in
                  update_conn h c2 ;;
                  match run (view w c1) p vals with
                  | inl e => py_raise (exc_of_db_error e)
                  | inr r =>
                      (if writes then
                         match c_txn c2 with
                         | Some _ =>
                             update_conn h (Conn (c_path c2) (Some (er_db r)) (c_locked c2) true)
                         | None =>
                             (* autocommit: DDL outside a transaction *)
                             py_modify (fun w' =>
                               set_files (<[c_path c2 := er_db r]> (w_files w')) w') ;;
                             update_conn h (Conn (c_path c2) None false true)
                         end
                       else py_ret tt) ;;
                      py_ret (Cursor h (er_rows r)
                                (match er_rowid r with
                                 | Some z => Some z
                                 | None => cu_lastrowid cu
                                 end))
                  end
            end
      end
  end.

(** [conn.commit()]: the view of a transaction that wrote becomes the
    file; the transaction ends and the lock is released.  A transaction
    that never wrote has nothing to write. *)
Definition commit (conn : option handle) : M unit :=
  match conn with
  | None => py_raise AttributeError
  | Some h =>
      c <- get_conn h ;;
      match c_txn c with
      | Some d =>
          (if c_locked c
           then py_modify (fun w => set_files (<[c_path c := d]> (w_files w)) w)
           else py_ret tt) ;;
          update_conn h (Conn (c_path c) None false true)
      | None => py_ret tt
      end
  end.

(** [conn.close()]: pending changes are dropped. *)
Definition close (conn : option handle) : M unit :=
  match conn with
  | None => py_raise AttributeError
  | Some h =>
      w <- py_get ;;
      match w_conns w !! h with
      | Some c => update_conn h (Conn (c_path c) None false false)
      | None => py_ret tt
      end
  end.

(** [cur.fetchall()]. *)
Definition fetchall (cu : cursor) : list (list value) := cu_rows cu.

(** The connection after its commit. *)
Definition committed (c : conn) : conn := Conn (c_path c) None false true.

(** The world after a committed write of [d] through connection [h]. *)
Definition after_commit (w : world) (h : handle) (c : conn) (d : db) : world :=
  set_conns (<[h := Conn (c_path c) None false true]> (w_conns w))
            (set_files (<[c_path c := d]> (w_files w)) w).

(** ** Operational lemmas *)

Lemma set_conns_id w h c : w_conns w !! h = Some c -> set_conns (<[h := c]> (w_conns w)) w = w.
Proof. intros H. rewrite list_insert_id by exact H. now destruct w. Qed.

Lemma get_conn_ok w h c :
  w_conns w !! h = Some c -> c_open c = true -> get_conn h w = (Ok c, w).
Proof. intros H1 H2. unfold get_conn, py_bind, py_get. simpl. now rewrite H1, H2. Qed.

Lemma cursor_of_ok w h c :
  w_conns w !! h = Some c -> c_open c = true ->
  cursor_of (Some h) w = (Ok (Cursor h [] None), w).
Proof. intros H1 H2. unfold cursor_of, py_bind. now rewrite (get_conn_ok w h c H1 H2). Qed.

Lemma conn_eta c : Conn (c_path c) (c_txn c) (c_locked c) (c_open c) = c.
Proof. now destruct c. Qed.

(** A transaction that began on the file reads the file, whether or not
    it has taken the lock yet. *)
Lemma view_snapshot w p l o : view w (Conn p (Some (file_db w p)) l o) = file_db w p.
Proof. unfold view. now destruct l. Qed.

(** The implicit BEGIN does not change what the connection reads. *)
Lemma view_begin w c : view w (Conn (c_path c) (Some (view w c)) (c_locked c) true) = view w c.
Proof.
  unfold view at 1. cbn. destruct (c_locked c) eqn:El; [reflexivity|].
  unfold view. now rewrite El; destruct (c_txn c).
Qed.

(** A SELECT changes nothing and returns the rows [run] computes. *)
Lemma execute_read w cu sql params c s p vals r :
  w_conns w !! cu_conn cu = Some c -> c_open c = true ->
  parse_sql sql = Some s -> is_dml s = false ->
  prepare (view w c) s = inr p ->
  plan_writes p = false ->
  plan_nparams p = length params -> bind_values params = Some vals ->
  run (view w c) p vals = inr r ->
  execute cu sql params w =
  (Ok (Cursor (cu_conn cu) (er_rows r)
         (match er_rowid r with Some z => Some z | None => cu_lastrowid cu end)), w).
Proof.
  intros Hc Ho Hs Hd Hp Hsel Hn Hb Hr. unfold execute.
  rewrite (py_bind_ok _ _ _ _ _ (get_conn_ok w _ c Hc Ho)).
  unfold py_bind at 1, py_get. cbv beta iota.
  rewrite Hs, Hp, Hn, Nat.eqb_refl, Hb, Hd, Hsel. cbn -[run view set_conns]. rewrite Hr.
  unfold set_conns; cbn; rewrite orb_false_r, <- Ho, conn_eta, !(list_insert_id _ _ _ Hc).
  destruct w; reflexivity.
Qed.

Lemma prepare_dml_writes d s p : is_dml s = true -> prepare d s = inr p -> plan_writes p = true.
Proof.
  destruct s; simpl; intros Hd; try discriminate.
  - destruct (find_table d t); [|discriminate].
    destruct (resolve_cols _ _); [discriminate|]. destruct (Nat.eqb _ _); [|discriminate].
    now intros [= <-].
  - destruct (find_table d t); [|discriminate].
    destruct (resolve_cols _ sets); [discriminate|].
    destruct (resolve_cols _ w); [discriminate|]. now intros [= <-].
  - destruct (find_table d t); [|discriminate].
    destruct (resolve_cols _ _); [discriminate|]. now intros [= <-].
Qed.

(** A DML statement on a connection without a transaction: BEGIN, the
    write lock taken, the new database held in the connection's view. *)
Lemma execute_write w cu sql params c s p vals r :
  w_conns w !! cu_conn cu = Some c -> c_open c = true -> c_txn c = None ->
  parse_sql sql = Some s -> is_dml s = true ->
  prepare (file_db w (c_path c)) s = inr p ->
  plan_nparams p = length params -> bind_values params = Some vals ->
  locked_by_other w (cu_conn cu) (c_path c) = false ->
  run (file_db w (c_path c)) p vals = inr r ->
  execute cu sql params w =
  (Ok (Cursor (cu_conn cu) (er_rows r)
         (match er_rowid r with Some z => Some z | None => cu_lastrowid cu end)),
   set_conns (<[cu_conn cu := Conn (c_path c) (Some (er_db r)) true true]> (w_conns w)) w).
Proof.
  intros Hc Ho Ht Hs Hd Hp Hn Hb Hl Hr.
  assert (Hv : view w c = file_db w (c_path c)) by (unfold view; now rewrite Ht).
  pose proof (prepare_dml_writes _ _ _ Hd Hp) as Hw.
  unfold execute.
  rewrite (py_bind_ok _ _ _ _ _ (get_conn_ok w _ c Hc Ho)).
  unfold py_bind at 1, py_get. cbv beta iota.
  rewrite Hs, Hv, Hp, Hn, Nat.eqb_refl, Hb, Hd, Ht. simpl negb. cbv iota beta.
  rewrite bool_decide_eq_true_2 by reflexivity. simpl andb. cbv iota beta.
  cbn -[run view set_conns plan_writes locked_by_other].
  rewrite Hw, Hl, view_snapshot, andb_false_r, Hr, orb_true_r.
  unfold update_conn, py_modify, py_bind, py_ret, set_conns. cbv beta iota.
  cbn [w_conns w_files w_bad_paths w_out]. rewrite !list_insert_insert_eq. reflexivity.
Qed.

(** [commit] of an open transaction writes its view to the file. *)
Lemma commit_txn w h c d :
  w_conns w !! h = Some c -> c_open c = true -> c_txn c = Some d -> c_locked c = true ->
  commit (Some h) w = (Ok tt, after_commit w h c d).
Proof.
  intros Hc Ho Ht Hl. unfold commit.
  rewrite (py_bind_ok _ _ _ _ _ (get_conn_ok w _ c Hc Ho)), Ht, Hl. reflexivity.
Qed.

(** What connection [h] itself holds does not lock it out. *)
Lemma locked_from_insert_self i n path cs c :
  locked_from i (i + n) path (<[n := c]> cs) = locked_from i (i + n) path cs.
Proof.
  revert i n. induction cs as [|c0 cs IH]; intros i [|n]; simpl; try reflexivity.
  - now rewrite Nat.add_0_r, Nat.eqb_refl.
  - f_equal. replace (i + S n) with (S i + n) by lia. apply IH.
Qed.

Lemma locked_by_other_set_conn w h c path :
  locked_by_other (set_conns (<[h := c]> (w_conns w)) w) h path = locked_by_other w h path.
Proof. apply (locked_from_insert_self 0 h). Qed.

Lemma lookup_set_conn w h c c' :
  w_conns w !! h = Some c -> w_conns (set_conns (<[h := c']> (w_conns w)) w) !! h = Some c'.
Proof. intros H. apply list_lookup_insert_eq. eapply lookup_lt_Some, H. Qed.

Lemma after_commit_set_conn w h c c' d :
  c_path c' = c_path c ->
  after_commit (set_conns (<[h := c']> (w_conns w)) w) h c' d = after_commit w h c d.
Proof.
  intros Hp. unfold after_commit, set_conns, set_files. cbn [w_conns w_files w_bad_paths w_out].
  now rewrite Hp, list_insert_insert_eq.
Qed.

(** A DML statement outside a transaction followed by [commit]: the
    statement's database is written to the file and the connection is
    back in autocommit state without the lock. *)
Lemma execute_commit {A} w h c sql params s p vals r (k : cursor -> M A) :
  w_conns w !! h = Some c -> c_open c = true -> c_txn c = None ->
  parse_sql sql = Some s -> is_dml s = true ->
  prepare (file_db w (c_path c)) s = inr p ->
  plan_nparams p = length params -> bind_values params = Some vals ->
  locked_by_other w h (c_path c) = false ->
  run (file_db w (c_path c)) p vals = inr r ->
  (cur <- execute (Cursor h [] None) sql params ;; commit (Some h) ;; k cur) w =
  k (Cursor h (er_rows r) (er_rowid r)) (after_commit w h c (er_db r)).
Proof.
  intros Hc Ho Ht Hs Hd Hp Hn Hb Hl Hr.
  rewrite (py_bind_ok _ _ _ _ _ (execute_write w (Cursor h [] None) sql params c s p vals r
                                   Hc Ho Ht Hs Hd Hp Hn Hb Hl Hr)).
  cbn [cu_conn cu_lastrowid].
  rewrite (py_bind_ok _ _ _ _ _
             (commit_txn _ h (Conn (c_path c) (Some (er_db r)) true true) (er_db r)
                (lookup_set_conn w h c _ Hc) eq_refl eq_refl eq_refl)).
  rewrite (after_commit_set_conn w h c) by reflexivity.
  now destruct (er_rowid r).
Qed.


(** A statement that writes but is no DML (CREATE TABLE), outside a
    transaction, runs in autocommit mode: its database is written to the
    file at once and the connection keeps no lock. *)
Lemma execute_autocommit w cu sql params c s p vals r :
  w_conns w !! cu_conn cu = Some c -> c_open c = true -> c_txn c = None ->
  parse_sql sql = Some s -> is_dml s = false ->
  prepare (file_db w (c_path c)) s = inr p -> plan_writes p = true ->
  plan_nparams p = length params -> bind_values params = Some vals ->
  locked_by_other w (cu_conn cu) (c_path c) = false ->
  run (file_db w (c_path c)) p vals = inr r ->
  execute cu sql params w =
  (Ok (Cursor (cu_conn cu) (er_rows r)
         (match er_rowid r with Some z => Some z | None => cu_lastrowid cu end)),
   after_commit w (cu_conn cu) c (er_db r)).
Proof.
  intros Hc Ho Ht Hs Hd Hp Hw Hn Hb Hl Hr.
  assert (Hv : view w c = file_db w (c_path c)) by (unfold view; now rewrite Ht).
  unfold execute.
  rewrite (py_bind_ok _ _ _ _ _ (get_conn_ok w _ c Hc Ho)).
  unfold py_bind at 1, py_get. cbv beta iota.
  rewrite Hs, Hv, Hp, Hd. cbv iota beta. simpl andb. cbv iota beta.
  unfold update_conn at 1, py_modify at 1, py_bind at 1. cbv beta iota.
  rewrite Hn, Nat.eqb_refl, Hb. cbv iota beta.
  cbn -[run view set_conns plan_writes locked_by_other].
  rewrite Hw, Hl, Ht. cbv iota beta.
  rewrite Hv, Hr. cbn -[set_conns].
  unfold after_commit, set_conns, set_files. cbn [w_conns w_files w_bad_paths w_out].
  now rewrite !list_insert_insert_eq.
Qed.

Lemma after_commit_conn w h c d :
  w_conns w !! h = Some c -> w_conns (after_commit w h c d) !! h = Some (committed c).
Proof. intros H. apply list_lookup_insert_eq. eapply lookup_lt_Some, H. Qed.

Lemma after_commit_view w h c d : view (after_commit w h c d) (committed c) = d.
Proof. unfold view, file_db. simpl. now rewrite lookup_insert_eq. Qed.

Lemma after_commit_locked w h c d path :
  locked_by_other (after_commit w h c d) h path = locked_by_other w h path.
Proof. apply (locked_by_other_set_conn (set_files _ w)). Qed.

(** Committing what the file already holds changes nothing. *)
Lemma after_commit_id w h c d :
  w_conns w !! h = Some (committed c) -> w_files w !! c_path c = Some d ->
  after_commit w h (committed c) d = w.
Proof.
  intros Hc Hf. unfold after_commit, set_conns, set_files, committed in *.
  cbn [w_conns w_files w_bad_paths w_out c_path].
  rewrite (list_insert_id _ _ _ Hc), (insert_id _ _ _ Hf). now destruct w.
Qed.

Lemma after_commit_add_out w h c d ev :
  after_commit (add_out ev w) h c d = add_out ev (after_commit w h c d).
Proof. reflexivity. Qed.

(** ** Failing statements *)

(** A text that is no statement raises [OperationalError] and changes
    nothing. *)
Lemma execute_syntax w cu sql params c :
  w_conns w !! cu_conn cu = Some c -> c_open c = true -> parse_sql sql = None ->
  execute cu sql params w = (Raise (OperationalError ESyntax), w).
Proof.
  intros Hc Ho Hs. unfold execute.
  rewrite (py_bind_ok _ _ _ _ _ (get_conn_ok w _ c Hc Ho)). cbn. now rewrite Hs.
Qed.

(** A parameter out of the 64-bit range raises [OverflowError]; for a
    DML statement outside a transaction the implicit BEGIN has already
    happened, so the connection is left in a transaction (without the
    write lock, and with no file written). *)
Lemma execute_overflow w cu sql params c s p :
  w_conns w !! cu_conn cu = Some c -> c_open c = true -> c_txn c = None ->
  parse_sql sql = Some s -> is_dml s = true -> prepare (file_db w (c_path c)) s = inr p ->
  plan_nparams p = length params -> bind_values params = None ->
  execute cu sql params w =
  (Raise OverflowError,
   set_conns (<[cu_conn cu := Conn (c_path c) (Some (file_db w (c_path c))) (c_locked c) true]>
                (w_conns w)) w).
Proof.
  intros Hc Ho Ht Hs Hd Hp Hn Hb.
  assert (Hv : view w c = file_db w (c_path c)) by (unfold view; now rewrite Ht).
  unfold execute.
  rewrite (py_bind_ok _ _ _ _ _ (get_conn_ok w _ c Hc Ho)).
  unfold py_bind at 1, py_get. cbv beta iota.
  rewrite Hs, Hv, Hp, Hd, Ht, bool_decide_eq_true_2 by reflexivity. cbv beta iota. simpl andb.
  cbv iota beta. unfold update_conn, py_modify, py_bind. cbv beta iota.
  now rewrite Hn, Nat.eqb_refl, Hb.
Qed.

(** A statement the engine cannot prepare (no such table or column)
    raises before anything changes. *)
Lemma execute_prepare_error w cu sql params c s e :
  w_conns w !! cu_conn cu = Some c -> c_open c = true ->
  parse_sql sql = Some s -> prepare (view w c) s = inl e ->
  execute cu sql params w = (Raise (exc_of_db_error e), w).
Proof.
  intros Hc Ho Hs Hp. unfold execute.
  rewrite (py_bind_ok _ _ _ _ _ (get_conn_ok w _ c Hc Ho)). cbn. now rewrite Hs, Hp.
Qed.

(** A DML statement the engine refuses, outside a transaction: the
    exception is raised after the implicit BEGIN, so the connection is
    left in a transaction that holds the write lock. *)
Lemma execute_write_fail w cu sql params c s p vals e :
  w_conns w !! cu_conn cu = Some c -> c_open c = true -> c_txn c = None ->
  parse_sql sql = Some s -> is_dml s = true ->
  prepare (file_db w (c_path c)) s = inr p ->
  plan_nparams p = length params -> bind_values params = Some vals ->
  locked_by_other w (cu_conn cu) (c_path c) = false ->
  run (file_db w (c_path c)) p vals = inl e ->
  execute cu sql params w =
  (Raise (exc_of_db_error e),
   set_conns (<[cu_conn cu := Conn (c_path c) (Some (file_db w (c_path c))) true true]>
                (w_conns w)) w).
Proof.
  intros Hc Ho Ht Hs Hd Hp Hn Hb Hl Hr.
  assert (Hv : view w c = file_db w (c_path c)) by (unfold view; now rewrite Ht).
  pose proof (prepare_dml_writes _ _ _ Hd Hp) as Hw.
  unfold execute.
  rewrite (py_bind_ok _ _ _ _ _ (get_conn_ok w _ c Hc Ho)).
  unfold py_bind at 1, py_get. cbv beta iota.
  rewrite Hs, Hv, Hp, Hn, Nat.eqb_refl, Hb, Hd, Ht. simpl negb. cbv iota beta.
  rewrite bool_decide_eq_true_2 by reflexivity. simpl andb. cbv iota beta.
  cbn -[run view set_conns plan_writes locked_by_other].
  rewrite Hw, Hl, view_snapshot, andb_false_r, Hr, orb_true_r.
  unfold update_conn, py_modify, py_bind, py_raise, set_conns. cbv beta iota.
  cbn [w_conns w_files w_bad_paths w_out]. rewrite !list_insert_insert_eq. reflexivity.
Qed.

(** A DML statement outside a transaction while another connection holds
    the file's write lock: the implicit BEGIN has happened, the statement
    fails with [OperationalError] "database is locked" and no file
    changes. *)
Lemma execute_locked w cu sql params c s p vals :
  w_conns w !! cu_conn cu = Some c -> c_open c = true -> c_txn c = None ->
  parse_sql sql = Some s -> is_dml s = true ->
  prepare (file_db w (c_path c)) s = inr p ->
  plan_nparams p = length params -> bind_values params = Some vals ->
  locked_by_other w (cu_conn cu) (c_path c) = true ->
  execute cu sql params w =
  (Raise (OperationalError ELocked),
   set_conns (<[cu_conn cu := Conn (c_path c) (Some (file_db w (c_path c))) (c_locked c) true]>
                (w_conns w)) w).
Proof.
  intros Hc Ho Ht Hs Hd Hp Hn Hb Hl.
  assert (Hv : view w c = file_db w (c_path c)) by (unfold view; now rewrite Ht).
  pose proof (prepare_dml_writes _ _ _ Hd Hp) as Hw.
  unfold execute.
  rewrite (py_bind_ok _ _ _ _ _ (get_conn_ok w _ c Hc Ho)).
  unfold py_bind at 1, py_get. cbv beta iota.
  rewrite Hs, Hv, Hp, Hn, Nat.eqb_refl, Hb, Hd, Ht. simpl negb. cbv iota beta.
  rewrite bool_decide_eq_true_2 by reflexivity. simpl andb. cbv iota beta.
  cbn -[run view set_conns plan_writes locked_by_other].
  rewrite Hw, Hl. reflexivity.
Qed.

(** A path the system refuses: [OperationalError], nothing opened. *)
Lemma connect_bad w path :
  existsb (String.eqb path) (w_bad_paths w) = true ->
  connect path w = (Raise (OperationalError ECantOpen), w).
Proof. intros H. unfold connect, py_bind, py_get. simpl. now rewrite H. Qed.

(** ** Reading statements change nothing *)

Lemma get_conn_spec h w r w' :
  get_conn h w = (r, w') ->
  w' = w /\ forall c, r = Ok c -> w_conns w !! h = Some c /\ c_open c = true.
Proof.
  unfold get_conn, py_bind, py_get. simpl.
  destruct (w_conns w !! h) as [c|] eqn:E; [destruct (c_open c) eqn:Eo|]; intros [= <- <-];
    (split; [reflexivity|]); intros c' [=]; subst; auto.
Qed.

Lemma update_conn_same w h c : w_conns w !! h = Some c -> update_conn h c w = (Ok tt, w).
Proof. intros H. unfold update_conn, py_modify. now rewrite set_conns_id. Qed.

Lemma prepare_select_inv d t ws p :
  prepare d (SSelect t ws) = inr p ->
  exists tb rs, find_table d t = Some tb /\ p = PlSelect t rs.
Proof.
  simpl. destruct (find_table d t) as [tb|]; [|discriminate].
  destruct (resolve_cols _ ws) as [|rs]; [discriminate|]. intros [= <-]. eauto.
Qed.

Lemma prepare_select d t ws p : prepare d (SSelect t ws) = inr p -> plan_writes p = false.
Proof.
  simpl. destruct (find_table d t); [|discriminate].
  destruct (resolve_cols _ ws); [discriminate|]. now intros [= <-].
Qed.

(** A text that can only be a SELECT leaves the world as it was, on
    every path: closed connection, syntax error, unknown table or
    column, wrong number or range of parameters, or success. *)
Lemma execute_select_same w cu sql params :
  (forall s, parse_sql sql = Some s -> exists t ws, s = SSelect t ws) ->
  (execute cu sql params w).2 = w.
Proof.
  intros Hsel. unfold execute. unfold py_bind at 1.
  destruct (get_conn (cu_conn cu) w) as [[c|e] w'] eqn:Eg;
    apply get_conn_spec in Eg as [-> Hc]; [|reflexivity].
  destruct (Hc c eq_refl) as [Hc' Ho]. clear Hc.
  unfold py_bind at 1, py_get. cbv beta iota.
  destruct (parse_sql sql) as [s|] eqn:Es; [|reflexivity].
  destruct (Hsel s eq_refl) as (t & ws & ->).
  destruct (prepare (view w c) (SSelect t ws)) as [e|p] eqn:Ep; [reflexivity|].
  pose proof (prepare_select _ _ _ _ Ep) as Hw.
  cbn [is_dml andb]. rewrite (py_bind_ok _ _ _ _ _ (update_conn_same w _ c Hc')).
  destruct (negb _); [reflexivity|].
  destruct (bind_values params) as [vals|]; [|reflexivity].
  rewrite Hw. cbn [andb].
  rewrite orb_false_r, <- Ho, conn_eta.
  rewrite (py_bind_ok _ _ _ _ _ (update_conn_same w _ c Hc')).
  destruct (run (view w c) p vals); reflexivity.
Qed.

(** Conversely, a DML statement outside a transaction that succeeds
    has prepared, bound and run on the file, without a lock held by
    another connection. *)
Lemma execute_dml_inv w cu sql params c s cu' w' :
  w_conns w !! cu_conn cu = Some c -> c_txn c = None ->
  parse_sql sql = Some s -> is_dml s = true ->
  execute cu sql params w = (Ok cu', w') ->
  exists p vals r, prepare (file_db w (c_path c)) s = inr p /\
    plan_nparams p = length params /\ bind_values params = Some vals /\
    locked_by_other w (cu_conn cu) (c_path c) = false /\
    run (file_db w (c_path c)) p vals = inr r.
Proof.
  intros Hc Ht Hs Hd. unfold execute. unfold py_bind at 1.
  destruct (get_conn (cu_conn cu) w) as [[c0|e] w0] eqn:Eg;
    apply get_conn_spec in Eg as [-> Hc0]; [|discriminate].
  destruct (Hc0 c0 eq_refl) as [Hc0' _]. rewrite Hc in Hc0'. injection Hc0' as <-. clear Hc0.
  assert (Hv : view w c = file_db w (c_path c)) by (unfold view; now rewrite Ht).
  unfold py_bind at 1, py_get. cbv beta iota. rewrite Hs, Hv.
  destruct (prepare _ s) as [e|p] eqn:Ep; [discriminate|].
  pose proof (prepare_dml_writes _ _ _ Hd Ep) as Hw.
  rewrite Hd, Ht, bool_decide_eq_true_2 by reflexivity. cbv iota beta. simpl andb.
  unfold update_conn at 1, py_modify at 1, py_bind at 1. cbv beta iota.
  destruct (negb _) eqn:En; [discriminate|].
  destruct (bind_values params) as [vals|] eqn:Eb; [|discriminate].
  cbn -[run view set_conns plan_writes locked_by_other].
  rewrite Hw. simpl andb.
  destruct (locked_by_other w (cu_conn cu) (c_path c)) eqn:El; [discriminate|].
  cbn -[run set_conns view]. rewrite view_snapshot.
  destruct (run _ p vals) as [e|r] eqn:Er; [discriminate|].
  intros _. exists p, vals, r. repeat split; try assumption.
  apply negb_false_iff, Nat.eqb_eq in En. exact En.
Qed.

(** A DML statement outside a transaction followed by [commit] that
    succeeds is the run [execute_commit] describes. *)
Lemma execute_commit_inv {A} w h c sql params s (k : cursor -> M A) a w' :
  w_conns w !! h = Some c -> c_txn c = None ->
  parse_sql sql = Some s -> is_dml s = true ->
  (cur <- cursor_of (Some h) ;; cur' <- execute cur sql params ;; commit (Some h) ;; k cur') w
  = (Ok a, w') ->
  exists p vals r, c_open c = true /\ prepare (file_db w (c_path c)) s = inr p /\
    plan_nparams p = length params /\ bind_values params = Some vals /\
    locked_by_other w h (c_path c) = false /\ run (file_db w (c_path c)) p vals = inr r /\
    k (Cursor h (er_rows r) (er_rowid r)) (after_commit w h c (er_db r)) = (Ok a, w').
Proof.
  intros Hc Ht Hs Hd. destruct (c_open c) eqn:Ho.
  2: { unfold cursor_of, get_conn, py_bind, py_get. rewrite Hc, Ho. discriminate. }
  rewrite (py_bind_ok _ _ _ _ _ (cursor_of_ok w h c Hc Ho)). intros H.
  assert (Hx : exists cu' w1, execute (Cursor h [] None) sql params w = (Ok cu', w1)).
  { unfold py_bind at 1 in H.
    destruct (execute (Cursor h [] None) sql params w) as [[cu'|e] w1]; [eauto|discriminate]. }
  destruct Hx as (cu' & w1 & Ex).
  destruct (execute_dml_inv w (Cursor h [] None) sql params c s _ _ Hc Ht Hs Hd Ex) as (p & vals & r & Hp & Hn & Hb & Hl & Hr).
  exists p, vals, r. rewrite (execute_commit w h c sql params s p vals r k) in H by assumption.
  auto 7.
Qed.

(** A statement that raises has written no file (DDL outside a
    transaction writes its file only on success). *)
Lemma execute_raise_files cu sql params w e w' :
  execute cu sql params w = (Raise e, w') -> w_files w' = w_files w.
Proof.
  unfold execute. unfold py_bind at 1.
  destruct (get_conn (cu_conn cu) w) as [[c|e0] w0] eqn:Eg;
    apply get_conn_spec in Eg as [-> _]; [|now intros [= _ <-]].
  unfold py_bind at 1, py_get. cbv beta iota.
  destruct (parse_sql sql) as [s|]; [|now intros [= _ <-]].
  destruct (prepare (view w c) s); [now intros [= _ <-]|].
  destruct (negb _); [now intros [= _ <-]|].
  destruct (bind_values params); [|now intros [= _ <-]].
  unfold update_conn, py_modify, py_bind, py_raise, py_ret. cbv beta iota.
  destruct (_ && locked_by_other w _ _); [now intros [= _ <-]|].
  destruct (run _ _ _); [now intros [= _ <-]|].
  destruct (plan_writes _); [|discriminate]. cbn.
  destruct (c_txn _); discriminate.
Qed.

(** A statement that returns leaves its connection open. *)
Lemma execute_ok_open cu sql params w cu' w' :
  execute cu sql params w = (Ok cu', w') ->
  exists c, w_conns w' !! cu_conn cu = Some c /\ c_open c = true.
Proof.
  unfold execute. unfold py_bind at 1.
  destruct (get_conn (cu_conn cu) w) as [[c|e0] w0] eqn:Eg;
    apply get_conn_spec in Eg as [-> Hg]; [|discriminate].
  destruct (Hg c eq_refl) as [Hc Ho]. clear Hg.
  assert (Hh : cu_conn cu < length (w_conns w)) by (eapply lookup_lt_Some; exact Hc).
  unfold py_bind at 1, py_get. cbv beta iota.
  destruct (parse_sql sql) as [s|]; [|discriminate].
  destruct (prepare (view w c) s); [discriminate|].
  destruct (negb _); [discriminate|].
  destruct (bind_values params); [|discriminate].
  unfold update_conn, py_modify, py_bind, py_raise, py_ret. cbv beta iota.
  destruct (_ && locked_by_other w _ _); [discriminate|].
  destruct (run _ _ _); [discriminate|].
  destruct (plan_writes _); cbn; [destruct (c_txn _)|]; intros [= _ <-]; cbn;
    rewrite ?list_insert_insert_eq; (eexists; split; [apply list_lookup_insert_eq; exact Hh | reflexivity]).
Qed.
