(* ===== verification/Preserve.v ===== *)
(** * Preserve: predicates of the world that computations preserve

    [preserves P m]: whenever [P] holds of the world before [m], it holds
    of the world after, whatever [m] returns or raises.  The program's
    functions are built from the driver's operations with [py_bind],
    [py_try], [if] and [match]; the lemmas of this file compose
    preservation through those, so that each invariant of the
    development ([Invariant.wf_world], the lock disciplines of [Locks])
    only proves its pieces and lets [preserve_solve] put them together,
    as a Hoare logic for one predicate would.  The hint database
    [preserve] holds the composition lemmas and, filled by the files that
    define invariants, their pieces. *)

From S2P Require Import Prelude Values Sql Engine Conn.

Local Open Scope py_scope.

Definition preserves (P : world -> Prop) {A} (m : M A) : Prop :=
  forall w, P w -> P (m w).2.

Create HintDb preserve discriminated.

Section Compose.
Context (P : world -> Prop).

Lemma preserves_ret {A} (a : A) : preserves P (py_ret a).
Proof. now intros w Hw. Qed.

Lemma preserves_raise {A} e : preserves P (py_raise (A := A) e).
Proof. now intros w Hw. Qed.

Lemma preserves_bind {A B} (m : M A) (k : A -> M B) :
  preserves P m -> (forall a, preserves P (k a)) -> preserves P (py_bind m k).
Proof.
  intros Hm Hk w Hw. unfold py_bind. specialize (Hm w Hw).
  destruct (m w) as [[a|e] w']; [now apply Hk | exact Hm].
Qed.

Lemma preserves_try {A} (m : M A) handles (h : exc -> M A) :
  preserves P m -> (forall e, preserves P (h e)) -> preserves P (py_try m handles h).
Proof.
  intros Hm Hh w Hw. unfold py_try. specialize (Hm w Hw).
  destruct (m w) as [[a|e] w']; [exact Hm|]. destruct (handles e); [now apply Hh | exact Hm].
Qed.

Lemma preserves_if {A} (b : bool) (m1 m2 : M A) :
  preserves P m1 -> preserves P m2 -> preserves P (if b then m1 else m2).
Proof. now destruct b. Qed.

(** Reading the world, or a connection of it, changes nothing. *)
Lemma preserves_get_conn h : preserves P (get_conn h).
Proof.
  intros w Hw. unfold get_conn, py_bind, py_get. simpl.
  destruct (w_conns w !! h) as [c|]; [destruct (c_open c)|]; exact Hw.
Qed.

Lemma preserves_cursor_of conn : preserves P (cursor_of conn).
Proof.
  destruct conn as [h|]; unfold cursor_of; [|apply preserves_raise].
  apply preserves_bind; [apply preserves_get_conn | intros; apply preserves_ret].
Qed.

(** The computation left to run, once its snapshot [w] of the world is
    fixed, preserves [P]. *)
Lemma preserves_rest {A} (m : M A) w : preserves P m -> P w -> P (m w).2.
Proof. intros Hm Hw. exact (Hm w Hw). Qed.

End Compose.

#[export] Hint Resolve preserves_ret preserves_raise preserves_bind preserves_try preserves_if
  preserves_get_conn preserves_cursor_of : preserve.

(** A composed computation preserves the predicate when its pieces do;
    side conditions (the transactions or locks the pieces install) are
    left to the hints of the predicate. *)
Ltac preserve_solve :=
  repeat match goal with
  | |- preserves _ (py_bind _ _) => apply preserves_bind; [|intros ?]
  | |- preserves _ (py_try _ _ _) => apply preserves_try; [|intros ?]
  | |- preserves _ (if _ then _ else _) => apply preserves_if
  | |- preserves _ (match ?o with Some _ => _ | None => _ end) => destruct o
  | |- preserves _ (match ?o with inl _ => _ | inr _ => _ end) => destruct o
  | |- _ => solve [auto with preserve]
  end.

(** The goal [P (m w).2] at a point where [m] is the rest of a
    computation. *)
Ltac preserve_rest Hw :=
  match goal with |- ?P (?m ?w).2 => apply (preserves_rest P m w); [|exact Hw] end.
