(* ===== verification/Dal.v ===== *)
(** * Dal: the functions of src/bazajedenplik.py

    One definition per function of the module, written as the source is:
    the SQL text is built by the same f-strings and joins, the loops that
    collect [qs] and [values] are folds, and [try]/[except] are
    [py_try] with the class the source names.  A Python [None]
    connection is [None : option handle]; keyword arguments are the list
    of their (name, value) pairs in call order, as Python's [**kwargs]
    dict keeps them. *)

From S2P Require Import Prelude Values Sql Engine Updates Conn.

Local Open Scope py_scope.
Local Open Scope string_scope.

(** The 13 spaces that indent the continuation lines of the source's
    triple-quoted SQL strings. *)
Definition sp13 : string := "             ".

(** [create_connection(db_file)]: [sqlite3.Error] is printed and [None]
    returned. *)
Definition create_connection (db_file : string) : M (option handle) :=
  py_try (h <- connect db_file ;; py_ret (Some h))
         is_sqlite_error
         (fun e => emit (EvExc e) ;; py_ret None).

(** [execute_sql(conn, sql)]: a statement without parameters; a
    [sqlite3.Error] is printed. *)
Definition execute_sql (conn : option handle) (sql : string) : M unit :=
  py_try (c <- cursor_of conn ;; _ <- execute c sql [] ;; py_ret tt)
         is_sqlite_error
         (fun e => emit (EvExc e)).

Definition add_item_sql : string :=
  "INSERT INTO items(nazwa, quantity, description)" ++ nl ++ sp13 ++ "VALUES(?,?,?)".

(** [add_item(conn, item)]: insert, commit, return [cur.lastrowid]. *)
Definition add_item (conn : option handle) (item : list pyval) : M (option Z) :=
  cur <- cursor_of conn ;;
  cur' <- execute cur add_item_sql item ;;
  commit conn ;;
  py_ret (cu_lastrowid cur').

Definition add_sale_sql : string :=
  "INSERT INTO sales(items_id, sales_quantity, status, sales_date)" ++ nl ++ sp13
  ++ "VALUES(?,?,?,?)".

(** [add_sale(conn, sale)]. *)
Definition add_sale (conn : option handle) (sale : list pyval) : M (option Z) :=
  cur <- cursor_of conn ;;
  cur' <- execute cur add_sale_sql sale ;;
  commit conn ;;
  py_ret (cu_lastrowid cur').

(** [select_all(conn, table)]: [f"SELECT * FROM {table}"]. *)
Definition select_all (conn : option handle) (table : string) : M (list (list value)) :=
  cur <- cursor_of conn ;;
  cur' <- execute cur ("SELECT * FROM " ++ table) [] ;;
  py_ret (fetchall cur').

(** The loop of [select_where] and [delete_where]:
    [for k, v in query.items(): qs.append(f"{k}=?"); values += (v,)]. *)
Definition where_loop (query : list (string * pyval)) : list string * list pyval :=
  fold_left (fun acc kv => (acc.1 ++ [(kv.1 ++ "=?")%string], acc.2 ++ [kv.2])%list)
            query ([], []).

(** The statement of [select_where] and its parameters:
    [q = " AND ".join(qs)], [f"SELECT * FROM {table} WHERE {q}"]. *)
Definition select_where_sql (table : string) (query : list (string * pyval))
    : string * list pyval :=
  let qs_values := where_loop query in
  let q := py_join " AND " qs_values.1 in
  ("SELECT * FROM " ++ table ++ " WHERE " ++ q, qs_values.2).

(** [select_where(conn, table, **query)]. *)
Definition select_where (conn : option handle) (table : string)
    (query : list (string * pyval)) : M (list (list value)) :=
  cur <- cursor_of conn ;;
  let sql_values := select_where_sql table query in
  cur' <- execute cur sql_values.1 sql_values.2 ;;
  py_ret (fetchall cur').

(** The statement text of [update]. *)
Definition update_sql (table : string) (kwargs : list (string * pyval)) : string :=
  let parameters := map (fun kv => kv.1 ++ " = ?") kwargs in
  let parameters := py_join ", " parameters in
  " UPDATE " ++ table ++ nl ++ sp13 ++ "SET " ++ parameters ++ nl ++ sp13 ++ "WHERE id = ?".

(** [update(conn, table, id, **kwargs)]: only
    [sqlite3.OperationalError] is caught (and printed). *)
Definition update (conn : option handle) (table : string) (id : pyval)
    (kwargs : list (string * pyval)) : M unit :=
  let values := (map snd kwargs ++ [id])%list in
  let sql := update_sql table kwargs in
  py_try (cur <- cursor_of conn ;;
          _ <- execute cur sql values ;;
          commit conn ;;
          emit (EvText "OK"))
         is_operational
         (fun e => emit (EvExc e)).

(** The statement of [delete_where] and its parameters:
    [f"DELETE FROM {table} WHERE {q}"]. *)
Definition delete_where_sql (table : string) (kwargs : list (string * pyval))
    : string * list pyval :=
  let qs_values := where_loop kwargs in
  let q := py_join " AND " qs_values.1 in
  ("DELETE FROM " ++ table ++ " WHERE " ++ q, qs_values.2).

(** [delete_where(conn, table, **kwargs)]. *)
Definition delete_where (conn : option handle) (table : string)
    (kwargs : list (string * pyval)) : M unit :=
  let sql_values := delete_where_sql table kwargs in
  cur <- cursor_of conn ;;
  _ <- execute cur sql_values.1 sql_values.2 ;;
  commit conn ;;
  emit (EvText "Deleted").

(** ** The text the functions build *)

Lemma where_loop_acc (q : list (string * pyval)) a b :
  fold_left (fun acc kv => (acc.1 ++ [(kv.1 ++ "=?")%string], acc.2 ++ [kv.2])%list) q (a, b)
  = (a ++ map (fun kv => (kv.1 ++ "=?")%string) q, b ++ map snd q)%list.
Proof.
  revert a b. induction q as [|kv q IH]; intros a b; simpl.
  - now rewrite !app_nil_r.
  - rewrite IH, <- !app_assoc. reflexivity.
Qed.

(** The loop collects the conditions and the values in call order. *)
Lemma where_loop_map q :
  where_loop q = (map (fun k => k ++ "=?") (map fst q), map snd q).
Proof. unfold where_loop. rewrite where_loop_acc, map_map. reflexivity. Qed.

Lemma lex_and_join ks toks :
  ks <> [] -> forallb is_ident ks = true ->
  lex_from (LStart, toks) (py_join " AND " (map (fun k => k ++ "=?") ks)) =
  Some (LStart, rev (join_toks [TWord "AND"] [TSym "="; TSym "?"] ks) ++ toks)%list.
Proof. apply lex_join; reflexivity. Qed.

Lemma sql_names_ident ks : forallb sql_name ks = true -> forallb is_ident ks = true.
Proof.
  induction ks as [|k ks IH]; [reflexivity|]. simpl. unfold sql_name.
  destruct (is_ident k), (is_name k); simpl; try discriminate. exact IH.
Qed.

Lemma sql_names_name ks : forallb sql_name ks = true -> forallb is_name ks = true.
Proof.
  induction ks as [|k ks IH]; [reflexivity|]. simpl. unfold sql_name.
  destruct (is_ident k), (is_name k); simpl; try discriminate. exact IH.
Qed.

(** [t WHERE k1=? AND k2=? ...] after the statement's leading words. *)
Lemma lex_table_where t ks toks :
  is_ident t = true -> ks <> [] -> forallb is_ident ks = true ->
  lex_from (LStart, toks) (t ++ " WHERE " ++ py_join " AND " (map (fun k => k ++ "=?") ks)) =
  Some (LStart, rev (join_toks [TWord "AND"] [TSym "="; TSym "?"] ks)
                ++ TWord "WHERE" :: TWord t :: toks)%list.
Proof.
  intros Ht Hne Hks.
  rewrite lex_from_app, lex_ident by exact Ht. cbv beta iota.
  rewrite lex_from_app. simpl. rewrite rev_involutive, string_of_list_ascii_of_string.
  rewrite lex_and_join by assumption. reflexivity.
Qed.

(** Reading a token list whose end is [WHERE k1 = ? AND ...]. *)
Ltac read_where Htn Hks :=
  rewrite rev_app_distr, rev_involutive; cbn -[p_where join_toks];
  rewrite Htn; cbn -[p_where join_toks];
  rewrite p_where_join by auto using sql_names_name; reflexivity.

(** The statement [select_all] builds from an SQL name reads back as
    [SELECT * FROM table] without conditions. *)
Lemma select_all_sql_parse t :
  sql_name t = true -> parse_sql ("SELECT * FROM " ++ t)%string = Some (SSelect t []).
Proof.
  intros Ht. apply andb_prop in Ht as [Hti Htn].
  unfold parse_sql, lex. rewrite lex_from_app. simpl.
  rewrite lex_ident by exact Hti. simpl. rewrite rev_involutive, string_of_list_ascii_of_string.
  cbn -[p_where]. now rewrite Htn.
Qed.

(** The statement [select_where] builds from a table
    name and a non-empty set of filters that are SQL names reads back as
    [SELECT * FROM table WHERE k1 = ? AND ...] with the filters' names in
    call order. *)
Lemma select_where_sql_parse t q :
  sql_name t = true -> q <> [] -> forallb sql_name (map fst q) = true ->
  parse_sql (select_where_sql t q).1 = Some (SSelect t (map fst q)).
Proof.
  intros Ht Hq Hks. apply andb_prop in Ht as [Hti Htn].
  assert (Hne : map fst q <> []) by (destruct q; simpl; congruence).
  unfold select_where_sql, parse_sql, lex. rewrite where_loop_map. cbn [fst].
  rewrite lex_from_app. simpl.
  rewrite lex_table_where by auto using sql_names_ident. simpl.
  read_where Htn Hks.
Qed.

(** The statement [delete_where] builds from a table
    name and a non-empty set of filters that are SQL names reads back as
    [DELETE FROM table WHERE k1 = ? AND ...], the names in call order. *)
Lemma delete_where_sql_parse t q :
  sql_name t = true -> q <> [] -> forallb sql_name (map fst q) = true ->
  parse_sql (delete_where_sql t q).1 = Some (SDelete t (map fst q)).
Proof.
  intros Ht Hq Hks. apply andb_prop in Ht as [Hti Htn].
  assert (Hne : map fst q <> []) by (destruct q; simpl; congruence).
  unfold delete_where_sql, parse_sql, lex. rewrite where_loop_map. cbn [fst].
  rewrite lex_from_app. simpl.
  rewrite lex_table_where by auto using sql_names_ident. simpl.
  read_where Htn Hks.
Qed.

Lemma lex_set_join ks toks :
  ks <> [] -> forallb is_ident ks = true ->
  lex_from (LStart, toks) (py_join ", " (map (fun k => k ++ " = ?") ks)) =
  Some (LStart, rev (join_toks [TSym ","] [TSym "="; TSym "?"] ks) ++ toks)%list.
Proof. apply lex_join; reflexivity. Qed.

(** The statement [update] builds from a table name
    and non-empty keyword arguments that are SQL names reads back as
    [UPDATE table SET k1 = ?, k2 = ? ... WHERE id = ?]. *)
Lemma update_sql_parse t kw :
  sql_name t = true -> kw <> [] -> forallb sql_name (map fst kw) = true ->
  parse_sql (update_sql t kw) = Some (SUpdate t (map fst kw) ["id"]).
Proof.
  intros Ht Hkw Hks. apply andb_prop in Ht as [Hti Htn].
  destruct kw as [|[k v] kw]; [congruence|].
  unfold update_sql, parse_sql, lex.
  replace (map (fun kv => kv.1 ++ " = ?") ((k, v) :: kw))
    with (map (fun k => k ++ " = ?") (map fst ((k, v) :: kw))) by now rewrite map_map.
  remember (py_join ", " _) as J eqn:HJ.
  rewrite lex_from_app. simpl.
  rewrite lex_from_app, lex_ident by exact Hti. cbv beta iota.
  rewrite lex_from_app. simpl. rewrite rev_involutive, string_of_list_ascii_of_string.
  rewrite str_app_nil_l, lex_from_app, HJ, lex_set_join
    by (discriminate || auto using sql_names_ident).
  simpl. rewrite !rev_app_distr, rev_involutive. simpl. rewrite <- !app_assoc. simpl.
  simpl in Hks.
  apply andb_prop in Hks as [Hk Hks]. apply andb_prop in Hk as [_ Hk].
  cbn -[p_set_more]. rewrite Htn, Hk. cbn -[p_set_more].
  rewrite p_set_more_join by auto using sql_names_name. reflexivity.
Qed.


Lemma select_where_sql_values t q : (select_where_sql t q).2 = map snd q.
Proof. unfold select_where_sql. now rewrite where_loop_map. Qed.

Lemma delete_where_sql_values t q : (delete_where_sql t q).2 = map snd q.
Proof. unfold delete_where_sql. now rewrite where_loop_map. Qed.

Lemma bind_values_map_length (q : list (string * pyval)) rs vals sc :
  resolve_cols sc (map fst q) = inr rs -> bind_values (map snd q) = Some vals ->
  length rs = length vals.
Proof.
  intros Hr Hb. rewrite (resolve_cols_length _ _ _ Hr), (bind_values_length _ _ Hb).
  now rewrite !length_map.
Qed.

(** ** What the functions do

    The connection [h] is open; a function that writes runs outside a
    transaction ([c_txn c = None], as after [create_connection] or a
    [commit]) and no other connection holds the file's write lock. *)

Lemma exc_of_constraint e : is_constraint e = true -> exc_of_db_error e = IntegrityError e.
Proof. destruct e; simpl; congruence. Qed.

(** Without conditions a query returns every row. *)
Lemma select_rows_all sc rows : select_rows sc [] rows = map row_out rows.
Proof. unfold select_rows. f_equal. induction rows as [|r rs IH]; [reflexivity|]. cbn. now rewrite IH. Qed.

Section Functional.
Context (w : world) (h : handle) (c : conn).
Hypothesis Hc : w_conns w !! h = Some c.
Hypothesis Ho : c_open c = true.

(** The database the connection reads. *)
Let d := view w c.

Lemma select_where_result t q tb rs vals :
  sql_name t = true -> q <> [] -> forallb sql_name (map fst q) = true ->
  find_table d t = Some tb ->
  resolve_cols (tb_schema tb) (map fst q) = inr rs ->
  bind_values (map snd q) = Some vals ->
  select_where (Some h) t q w = (Ok (select_rows (tb_schema tb) (zip rs vals) (tb_rows tb)), w).
Proof.
  intros Ht Hq Hks Htb Hrs Hb. unfold select_where.
  rewrite (py_bind_ok _ _ _ _ _ (cursor_of_ok w h c Hc Ho)). cbv zeta.
  assert (Hp : prepare d (SSelect t (map fst q)) = inr (PlSelect t rs))
    by (cbn; now rewrite Htb, Hrs).
  assert (Hn : plan_nparams (PlSelect t rs) = length (select_where_sql t q).2).
  { rewrite select_where_sql_values. cbn. rewrite length_map.
    rewrite (bind_values_map_length _ _ _ _ Hrs Hb), (bind_values_length _ _ Hb).
    now rewrite length_map. }
  assert (Hr : run d (PlSelect t rs) vals =
               inr (ExecResult d (select_rows (tb_schema tb) (zip rs vals) (tb_rows tb)) None))
    by (cbn; unfold with_table; now rewrite Htb).
  rewrite <- (select_where_sql_values t q) in Hb.
  rewrite (py_bind_ok _ _ _ _ _
             (execute_read w (Cursor h [] None) _ _ c _ _ _ _
                Hc Ho (select_where_sql_parse t q Ht Hq Hks) eq_refl Hp eq_refl Hn Hb Hr)).
  reflexivity.
Qed.

(** C7 (functional): [select_all] through an open connection, on a
    table name that is an SQL name, returns every row of that table of
    the database the connection reads, in rowid order, and changes
    nothing; when that database has no such table the
    [OperationalError] "no such table" escapes [select_all] (it has no
    [except]) and nothing changes. *)
Theorem select_all_spec t :
  sql_name t = true ->
  select_all (Some h) t w =
  match find_table d t with
  | Some tb => (Ok (map row_out (tb_rows tb)), w)
  | None => (Raise (OperationalError (ENoTable t)), w)
  end.
Proof.
  intros Ht. pose proof (select_all_sql_parse t Ht) as Hs. unfold select_all.
  rewrite (py_bind_ok _ _ _ _ _ (cursor_of_ok w h c Hc Ho)).
  destruct (find_table d t) as [tb|] eqn:Htb.
  - assert (Hr : run d (PlSelect t []) [] =
                 inr (ExecResult d (select_rows (tb_schema tb) [] (tb_rows tb)) None))
      by (cbn; unfold with_table; now rewrite Htb).
    assert (Hp : prepare d (SSelect t []) = inr (PlSelect t [])) by (cbn; now rewrite Htb).
    rewrite (py_bind_ok _ _ _ _ _
               (execute_read w (Cursor h [] None) _ [] c _ _ [] _
                  Hc Ho Hs eq_refl Hp eq_refl eq_refl eq_refl Hr)).
    cbn. now rewrite select_rows_all.
  - assert (Hp : prepare d (SSelect t []) = inl (ENoTable t)) by (cbn; now rewrite Htb).
    rewrite (py_bind_raise _ _ _ _ _
               (execute_prepare_error w (Cursor h [] None) _ [] c _ _ Hc Ho Hs Hp)).
    reflexivity.
Qed.

Hypothesis Ht : c_txn c = None.
Hypothesis Hl : locked_by_other w h (c_path c) = false.

Lemma view_file : d = file_db w (c_path c).
Proof. unfold d, view. now rewrite Ht. Qed.

(** C10 (error): an item with an integer outside the 64-bit range makes
    [add_item] raise [OverflowError] while binding.  The driver has
    issued the implicit BEGIN before it binds, and [add_item] neither
    catches nor rolls back: the exception escapes, no file and no output
    changes, and [h] is left inside an open transaction over the file,
    without the write lock. *)
Lemma add_item_overflow item tb rs :
  find_table d "items" = Some tb ->
  resolve_cols (tb_schema tb) ["nazwa"; "quantity"; "description"] = inr rs ->
  length item = 3 ->
  Exists (fun p => exists z, p = PyInt z /\ in_int64 z = false) item ->
  add_item (Some h) item w =
  (Raise OverflowError,
   set_conns (<[h := Conn (c_path c) (Some (file_db w (c_path c))) (c_locked c) true]>
                (w_conns w)) w).
Proof.
  intros Htb Hrs Hlen Hx. apply bind_values_none in Hx. unfold add_item.
  rewrite (py_bind_ok _ _ _ _ _ (cursor_of_ok w h c Hc Ho)).
  assert (Hp : prepare (file_db w (c_path c)) (SInsert "items" ["nazwa"; "quantity"; "description"] 3)
               = inr (PlInsert "items" rs))
    by (rewrite <- view_file; unfold prepare; now rewrite Htb, Hrs).
  rewrite (py_bind_raise _ _ _ _ _
             (execute_overflow w (Cursor h [] None) add_item_sql item c _ _ Hc Ho Ht
                ltac:(vm_compute; reflexivity) eq_refl Hp
                ltac:(cbn; now rewrite (resolve_cols_length _ _ _ Hrs), Hlen) Hx)).
  reflexivity.
Qed.

Lemma delete_where_result t q tb rs vals :
  sql_name t = true -> q <> [] -> forallb sql_name (map fst q) = true ->
  find_table d t = Some tb ->
  resolve_cols (tb_schema tb) (map fst q) = inr rs ->
  bind_values (map snd q) = Some vals ->
  delete_where (Some h) t q w =
  (Ok tt, add_out (EvText "Deleted")
            (after_commit w h c
               (set_table d (Table (tb_schema tb)
                               (delete_rows (tb_schema tb) (zip rs vals) (tb_rows tb)))))).
Proof.
  intros Htn Hq Hks Htb Hrs Hb. unfold delete_where. cbv zeta.
  rewrite (py_bind_ok _ _ _ _ _ (cursor_of_ok w h c Hc Ho)).
  assert (Hp : prepare (file_db w (c_path c)) (SDelete t (map fst q)) = inr (PlDelete t rs))
    by (rewrite <- view_file; cbn; now rewrite Htb, Hrs).
  assert (Hn : plan_nparams (PlDelete t rs) = length (delete_where_sql t q).2).
  { rewrite delete_where_sql_values. cbn.
    rewrite (bind_values_map_length _ _ _ _ Hrs Hb), (bind_values_length _ _ Hb).
    now rewrite length_map. }
  rewrite <- (delete_where_sql_values t q) in Hb.
  rewrite (execute_commit w h c _ _ _ _ _
             (ExecResult (set_table d (Table (tb_schema tb)
                             (delete_rows (tb_schema tb) (zip rs vals) (tb_rows tb)))) [] None)
             (fun _ => emit (EvText "Deleted"))
             Hc Ho Ht (delete_where_sql_parse t q Htn Hq Hks) eq_refl Hp Hn Hb Hl).
  - reflexivity.
  - rewrite <- view_file. cbn. unfold with_table. now rewrite Htb.
Qed.

(** The plan of [update]'s statement and what running it does. *)
Lemma update_plan t id kw tb ss rs vs vid :
  find_table d t = Some tb ->
  resolve_cols (tb_schema tb) (map fst kw) = inr ss ->
  resolve_cols (tb_schema tb) ["id"] = inr rs ->
  bind_values (map snd kw) = Some vs -> bind_value id = Some vid ->
  prepare (file_db w (c_path c)) (SUpdate t (map fst kw) ["id"]) = inr (PlUpdate t ss rs) /\
  plan_nparams (PlUpdate t ss rs) = length (map snd kw ++ [id])%list /\
  bind_values (map snd kw ++ [id]) = Some (vs ++ [vid])%list /\
  run (file_db w (c_path c)) (PlUpdate t ss rs) (vs ++ [vid])%list =
    (rows' <-? update_table (tb_schema tb) (zip ss vs) (zip rs [vid]) (tb_rows tb) ;;
     inr (ExecResult (set_table d (Table (tb_schema tb) rows')) [] None)).
Proof.
  intros Htb Hss Hrs Hb Hid.
  assert (Hlen : length ss = length vs)
    by now rewrite (bind_values_map_length _ _ _ _ Hss Hb).
  rewrite <- view_file. refine (conj _ (conj _ (conj _ _))).
  - unfold prepare. now rewrite Htb, Hss, Hrs.
  - cbn. rewrite (resolve_cols_length _ _ _ Hrs), length_app, length_map, Hlen.
    rewrite (bind_values_length _ _ Hb), length_map. cbn. lia.
  - rewrite bind_values_app, Hb. cbn. now rewrite Hid.
  - unfold run, with_table. rewrite Htb, Hlen, take_app_length, drop_app_length. reflexivity.
Qed.

Lemma update_result t id kw tb ss rs vs vid rows' :
  sql_name t = true -> kw <> [] -> forallb sql_name (map fst kw) = true ->
  find_table d t = Some tb ->
  resolve_cols (tb_schema tb) (map fst kw) = inr ss ->
  resolve_cols (tb_schema tb) ["id"] = inr rs ->
  bind_values (map snd kw) = Some vs -> bind_value id = Some vid ->
  update_table (tb_schema tb) (zip ss vs) (zip rs [vid]) (tb_rows tb) = inr rows' ->
  update (Some h) t id kw w =
  (Ok tt, add_out (EvText "OK") (after_commit w h c (set_table d (Table (tb_schema tb) rows')))).
Proof.
  intros Htn Hkw Hks Htb Hss Hrs Hb Hid Hu. unfold update, py_try. cbv zeta.
  destruct (update_plan t id kw tb ss rs vs vid Htb Hss Hrs Hb Hid) as (Hp & Hn & Hb' & Hr).
  rewrite Hu in Hr.
  rewrite (py_bind_ok _ _ _ _ _ (cursor_of_ok w h c Hc Ho)).
  rewrite (execute_commit w h c _ _ _ _ _ _ (fun _ => emit (EvText "OK"))
             Hc Ho Ht (update_sql_parse t kw Htn Hkw Hks) eq_refl Hp Hn Hb' Hl Hr).
  reflexivity.
Qed.

(** C8 (error): a constraint failure in [update] (NOT NULL, a rowid
    that is no integer or is taken) is an [IntegrityError], which the
    [except] clause of [update] does not name: it escapes [update], and
    the connection is left in the transaction the statement opened,
    holding the write lock. *)
Lemma update_constraint t id kw tb ss rs vs vid e :
  sql_name t = true -> kw <> [] -> forallb sql_name (map fst kw) = true ->
  find_table d t = Some tb ->
  resolve_cols (tb_schema tb) (map fst kw) = inr ss ->
  resolve_cols (tb_schema tb) ["id"] = inr rs ->
  bind_values (map snd kw) = Some vs -> bind_value id = Some vid ->
  update_table (tb_schema tb) (zip ss vs) (zip rs [vid]) (tb_rows tb) = inl e ->
  update (Some h) t id kw w =
  (Raise (IntegrityError e),
   set_conns (<[h := Conn (c_path c) (Some d) true true]> (w_conns w)) w).
Proof.
  intros Htn Hkw Hks Htb Hss Hrs Hb Hid Hu. unfold update, py_try. cbv zeta.
  destruct (update_plan t id kw tb ss rs vs vid Htb Hss Hrs Hb Hid) as (Hp & Hn & Hb' & Hr).
  rewrite Hu in Hr.
  rewrite (py_bind_ok _ _ _ _ _ (cursor_of_ok w h c Hc Ho)).
  rewrite (py_bind_raise _ _ _ _ _
             (execute_write_fail w (Cursor h [] None) _ _ c _ _ _ e
                Hc Ho Ht (update_sql_parse t kw Htn Hkw Hks) eq_refl Hp Hn Hb' Hl Hr)).
  rewrite (exc_of_constraint e (update_table_constraint _ _ _ _ _ Hu)), view_file. reflexivity.
Qed.

(** [add_item] and [add_sale]: a fixed INSERT, [commit], [lastrowid]. *)
Lemma insert_commit sql t cols (item : list pyval) tb rs vals r :
  parse_sql sql = Some (SInsert t cols (length cols)) ->
  find_table d t = Some tb ->
  resolve_cols (tb_schema tb) cols = inr rs ->
  length item = length cols -> bind_values item = Some vals ->
  insert_row (tb_schema tb) (tb_rows tb) rs vals = inr r ->
  (cur <- cursor_of (Some h) ;; cur' <- execute cur sql item ;; commit (Some h) ;;
   py_ret (cu_lastrowid cur')) w =
  (Ok (Some r.1),
   after_commit w h c (set_table d (Table (tb_schema tb) (insert_by_key r (tb_rows tb))))).
Proof.
  intros Hs Htb Hrs Hlen Hb Hi.
  assert (Hp : prepare (file_db w (c_path c)) (SInsert t cols (length cols)) = inr (PlInsert t rs))
    by (rewrite <- view_file; cbn; now rewrite Htb, Hrs, Nat.eqb_refl).
  assert (Hn : plan_nparams (PlInsert t rs) = length item)
    by (cbn; now rewrite (resolve_cols_length _ _ _ Hrs)).
  rewrite (py_bind_ok _ _ _ _ _ (cursor_of_ok w h c Hc Ho)).
  rewrite (execute_commit w h c _ _ _ _ _
             (ExecResult (set_table d (Table (tb_schema tb) (insert_by_key r (tb_rows tb))))
                         [] (Some r.1))
             (fun cur' => py_ret (cu_lastrowid cur'))
             Hc Ho Ht Hs eq_refl Hp Hn Hb Hl).
  - reflexivity.
  - rewrite <- view_file. cbn. unfold with_table. rewrite Htb. now rewrite Hi.
Qed.

Lemma add_item_result item tb rs vals r :
  find_table d "items" = Some tb ->
  resolve_cols (tb_schema tb) ["nazwa"; "quantity"; "description"] = inr rs ->
  length item = 3 -> bind_values item = Some vals ->
  insert_row (tb_schema tb) (tb_rows tb) rs vals = inr r ->
  add_item (Some h) item w =
  (Ok (Some r.1),
   after_commit w h c (set_table d (Table (tb_schema tb) (insert_by_key r (tb_rows tb))))).
Proof. apply insert_commit. vm_compute. reflexivity. Qed.

Lemma add_sale_result sale tb rs vals r :
  find_table d "sales" = Some tb ->
  resolve_cols (tb_schema tb) ["items_id"; "sales_quantity"; "status"; "sales_date"] = inr rs ->
  length sale = 4 -> bind_values sale = Some vals ->
  insert_row (tb_schema tb) (tb_rows tb) rs vals = inr r ->
  add_sale (Some h) sale w =
  (Ok (Some r.1),
   after_commit w h c (set_table d (Table (tb_schema tb) (insert_by_key r (tb_rows tb))))).
Proof. apply insert_commit. vm_compute. reflexivity. Qed.

End Functional.

(** C20 (error): while another connection holds the file's write lock
    (as the transaction a failed [update] leaves open does, C8), a write
    through a connection outside a transaction fails with
    [OperationalError] "database is locked" after its implicit BEGIN:
    [add_item] lets it escape, [update] catches it, prints it and returns
    [None]; neither changes a file. *)
Theorem writes_locked_out w h c item tbi rsi valsi t id kw tb ss rs vs vid :
  w_conns w !! h = Some c -> c_open c = true -> c_txn c = None ->
  locked_by_other w h (c_path c) = true ->
  find_table (view w c) "items" = Some tbi ->
  resolve_cols (tb_schema tbi) ["nazwa"; "quantity"; "description"] = inr rsi ->
  length item = 3 -> bind_values item = Some valsi ->
  sql_name t = true -> kw <> [] -> forallb sql_name (map fst kw) = true ->
  find_table (view w c) t = Some tb ->
  resolve_cols (tb_schema tb) (map fst kw) = inr ss ->
  resolve_cols (tb_schema tb) ["id"] = inr rs ->
  bind_values (map snd kw) = Some vs -> bind_value id = Some vid ->
  let w1 := set_conns (<[h := Conn (c_path c) (Some (file_db w (c_path c))) (c_locked c) true]>
                         (w_conns w)) w in
  add_item (Some h) item w = (Raise (OperationalError ELocked), w1) /\
  update (Some h) t id kw w = (Ok tt, add_out (EvExc (OperationalError ELocked)) w1).
Proof.
  intros Hc Ho Ht Hl Hti Hrsi Hlen Hbi Htn Hkw Hks Htb Hss Hrs Hb Hid w1.
  assert (Hv : view w c = file_db w (c_path c)) by (unfold view; now rewrite Ht).
  rewrite Hv in Hti. split.
  - unfold add_item. rewrite (py_bind_ok _ _ _ _ _ (cursor_of_ok w h c Hc Ho)).
    assert (Hp : prepare (file_db w (c_path c)) (SInsert "items" ["nazwa"; "quantity"; "description"] 3)
                 = inr (PlInsert "items" rsi))
      by (unfold prepare; now rewrite Hti, Hrsi).
    rewrite (py_bind_raise _ _ _ _ _
               (execute_locked w (Cursor h [] None) add_item_sql item c _ _ _ Hc Ho Ht
                  ltac:(vm_compute; reflexivity) eq_refl Hp
                  ltac:(cbn; now rewrite (resolve_cols_length _ _ _ Hrsi), Hlen) Hbi Hl)).
    reflexivity.
  - unfold update, py_try. cbv zeta.
    destruct (update_plan w c Ht t id kw tb ss rs vs vid Htb Hss Hrs Hb Hid) as (Hp & Hn & Hb' & _).
    rewrite (py_bind_ok _ _ _ _ _ (cursor_of_ok w h c Hc Ho)).
    rewrite (py_bind_raise _ _ _ _ _
               (execute_locked w (Cursor h [] None) _ _ c _ _ _
                  Hc Ho Ht (update_sql_parse t kw Htn Hkw Hks) eq_refl Hp Hn Hb' Hl)).
    reflexivity.
Qed.

(** The rows of a table after an insertion keep the invariant's row
    facts, and the new row is among them. *)
Lemma insert_by_key_pk sc rows r :
  Forall (wf_row sc) rows -> wf_row sc r -> Forall (pk_ok sc) (insert_by_key r rows).
Proof.
  intros Hw Hr. eapply Permutation_Forall; [symmetry; apply insert_by_key_perm|].
  constructor; [apply Hr|]. eapply Forall_impl; [exact Hw|]. now intros ? (_ & _ & ? & _).
Qed.

(** Selecting by the rowid of a row just inserted into a well-formed
    table returns that row alone. *)
Lemma select_inserted_row sc rows vals cols r ref :
  wf_table (Table sc rows) -> Forall value_in_range vals ->
  insert_row sc rows cols vals = inr r ->
  is_rowid_ref sc ref = true -> ref_affinity sc ref = AInteger ->
  select_rows sc [(ref, VInt r.1)] (insert_by_key r rows) = [r.2] /\ in_int64 r.1 = true.
Proof.
  intros (Hsc & Hs & Hw) Hv Hi Hr Ha.
  destruct (insert_row_wf sc rows cols vals r Hsc Hs Hw Hv Hi) as [Hwr Hnew].
  split; [|apply Hwr].
  rewrite select_rows_by_rowid by auto using insert_by_key_pk.
  rewrite filter_key_unique; [reflexivity| |].
  - now apply insert_by_key_sorted.
  - apply (Permutation_in _ (Permutation_sym (insert_by_key_perm r rows))). now left.
Qed.

(** C1 (functional): inserting an item through [add_item] on a
    connection outside a transaction commits the new row and returns its
    rowid; [select_where(conn, "items", id=<that id>)] then returns
    exactly that one row, holding the values inserted. *)
Theorem add_item_then_select w h c item tb rs vals r ref :
  w_conns w !! h = Some c -> c_open c = true -> c_txn c = None ->
  locked_by_other w h (c_path c) = false ->
  wf_table tb -> find_table (view w c) "items" = Some tb ->
  resolve_cols (tb_schema tb) ["nazwa"; "quantity"; "description"] = inr rs ->
  length item = 3 -> bind_values item = Some vals ->
  insert_row (tb_schema tb) (tb_rows tb) rs vals = inr r ->
  resolve_cols (tb_schema tb) ["id"] = inr [ref] ->
  is_rowid_ref (tb_schema tb) ref = true -> ref_affinity (tb_schema tb) ref = AInteger ->
  let w' := after_commit w h c (set_table (view w c)
                                  (Table (tb_schema tb) (insert_by_key r (tb_rows tb)))) in
  add_item (Some h) item w = (Ok (Some r.1), w') /\
  select_where (Some h) "items" [("id", PyInt r.1)] w' = (Ok [r.2], w').
Proof.
  intros Hc Ho Ht Hl Hwf Htb Hrs Hlen Hb Hi Hid Hr Ha w'.
  split; [eapply add_item_result; eauto|].
  destruct tb as [sc rows].
  destruct (select_inserted_row sc rows vals rs r ref Hwf (bind_values_range _ _ Hb) Hi Hr Ha)
    as [Hsel Hrange].
  rewrite <- Hsel.
  apply (select_where_result w' h (committed c) (after_commit_conn _ _ _ _ Hc) eq_refl
           "items" [("id", PyInt r.1)] (Table sc (insert_by_key r rows)) [ref] [VInt r.1]);
    [reflexivity | discriminate | reflexivity | | exact Hid | cbn; now rewrite Hrange].
  unfold w'. rewrite after_commit_view. now apply (find_set_table _ _ (Table sc rows)).
Qed.

(** C17 (functional): when the INSERT of [add_item] names neither the
    rowid nor the table's INTEGER PRIMARY KEY, the id [add_item] returns
    is the one the database assigns: one more than the last (largest) id
    of the table, or 1 in an empty table; it is larger than every id
    already present. *)
Theorem add_item_next_id w h c item tb rs vals r :
  w_conns w !! h = Some c -> c_open c = true -> c_txn c = None ->
  locked_by_other w h (c_path c) = false ->
  wf_table tb -> find_table (view w c) "items" = Some tb ->
  resolve_cols (tb_schema tb) ["nazwa"; "quantity"; "description"] = inr rs ->
  CRowid ∉ rs -> (forall p, sc_pk (tb_schema tb) = Some p -> CCol p ∉ rs) ->
  length item = 3 -> bind_values item = Some vals ->
  insert_row (tb_schema tb) (tb_rows tb) rs vals = inr r ->
  (add_item (Some h) item w).1 = Ok (Some r.1) /\
  r.1 = default 1%Z ((fun r0 : row => r0.1 + 1)%Z <$> last (tb_rows tb)) /\
  Forall (fun k => (k < r.1)%Z) (map fst (tb_rows tb)).
Proof.
  intros Hc Ho Ht Hl (_ & Hs & _) Htb Hrs Hr Hp Hlen Hb Hi.
  split; [now rewrite (add_item_result w h c Hc Ho Ht Hl item tb rs vals r)|].
  apply new_rowid_next; [exact Hs|]. eapply insert_row_auto_rowid; eassumption.
Qed.

(** C2 (functional): [select_where] changes nothing and returns, in
    table order, exactly the rows that satisfy every filter (the filters
    are a conjunction), each filter value converted by its column's
    affinity before the comparison. *)
Theorem select_where_conjunction w h c t q tb rs vals :
  w_conns w !! h = Some c -> c_open c = true ->
  sql_name t = true -> q <> [] -> forallb sql_name (map fst q) = true ->
  find_table (view w c) t = Some tb ->
  resolve_cols (tb_schema tb) (map fst q) = inr rs ->
  bind_values (map snd q) = Some vals ->
  exists res, select_where (Some h) t q w = (Ok res, w) /\
  forall out, In out res <->
    exists r, In r (tb_rows tb) /\ row_out r = out /\
      Forall (fun cv => sql_eqb (row_get r cv.1)
                          (apply_affinity (ref_affinity (tb_schema tb) cv.1) cv.2) = true)
             (zip rs vals).
Proof.
  intros Hc Ho Htn Hq Hks Htb Hrs Hb.
  eexists. split; [eapply select_where_result; eauto|].
  intros out. unfold select_rows, row_matches. rewrite in_map_iff.
  split.
  - intros (r & Hout & Hin). apply List.filter_In in Hin as [Hin Hm].
    exists r. rewrite forallb_forall in Hm. rewrite List.Forall_forall. auto.
  - intros (r & Hin & Hout & Hm). exists r. split; [exact Hout|].
    apply List.filter_In. rewrite forallb_forall. rewrite List.Forall_forall in Hm. auto.
Qed.

(** C5 (functional): [delete_where] commits, prints "Deleted" and
    leaves the table with exactly the rows that do not satisfy all the
    filters; when no row satisfies them the table is unchanged. *)
Theorem delete_where_spec w h c t q tb rs vals :
  w_conns w !! h = Some c -> c_open c = true -> c_txn c = None ->
  locked_by_other w h (c_path c) = false ->
  sql_name t = true -> q <> [] -> forallb sql_name (map fst q) = true ->
  find_table (view w c) t = Some tb ->
  resolve_cols (tb_schema tb) (map fst q) = inr rs ->
  bind_values (map snd q) = Some vals ->
  let rows' := delete_rows (tb_schema tb) (zip rs vals) (tb_rows tb) in
  delete_where (Some h) t q w =
    (Ok tt, add_out (EvText "Deleted")
              (after_commit w h c (set_table (view w c) (Table (tb_schema tb) rows')))) /\
  (forall r, In r rows' <-> In r (tb_rows tb) /\ row_matches (tb_schema tb) (zip rs vals) r = false) /\
  (Forall (fun r => row_matches (tb_schema tb) (zip rs vals) r = false) (tb_rows tb) ->
   rows' = tb_rows tb).
Proof.
  intros Hc Ho Ht Hl Htn Hq Hks Htb Hrs Hb rows'.
  split; [eapply delete_where_result; eauto|]. unfold rows', delete_rows. split.
  - intros r. rewrite List.filter_In, negb_true_iff. reflexivity.
  - intros Hnone. apply List.forallb_filter_id. apply forallb_forall.
    rewrite List.Forall_forall in Hnone. intros r Hin. now rewrite Hnone.
Qed.


(** C4 (functional): the same [update] applied twice leaves the
    database as applying it once (the second prints "OK" again and
    changes nothing else). *)
Theorem update_idempotent w h c t id kw tb ss ref vs vid rows' :
  w_conns w !! h = Some c -> c_open c = true -> c_txn c = None ->
  locked_by_other w h (c_path c) = false ->
  sql_name t = true -> kw <> [] -> forallb sql_name (map fst kw) = true ->
  wf_table tb -> find_table (view w c) t = Some tb ->
  resolve_cols (tb_schema tb) (map fst kw) = inr ss ->
  resolve_cols (tb_schema tb) ["id"] = inr [ref] -> is_rowid_ref (tb_schema tb) ref = true ->
  existsb (is_rowid_ref (tb_schema tb)) ss = false ->
  bind_values (map snd kw) = Some vs -> bind_value id = Some vid ->
  update_table (tb_schema tb) (zip ss vs) (zip [ref] [vid]) (tb_rows tb) = inr rows' ->
  let w1 := add_out (EvText "OK")
              (after_commit w h c (set_table (view w c) (Table (tb_schema tb) rows'))) in
  update (Some h) t id kw w = (Ok tt, w1) /\
  update (Some h) t id kw w1 = (Ok tt, add_out (EvText "OK") w1).
Proof.
  intros Hc Ho Ht Hl Htn Hkw Hks Hwf Htb Hss Hid Hr Hno Hb Hv Hu w1.
  split; [eapply update_result; eauto|].
  destruct tb as [sc rows]. destruct Hwf as (Hsc & _ & Hw). cbn [tb_schema tb_rows] in *.
  assert (Hlen : length ss = length vs)
    by now rewrite (bind_values_map_length _ _ _ _ Hss Hb).
  assert (Hk : keeps_rowid sc (zip ss vs) = true)
    by (unfold keeps_rowid; now rewrite map_fst_zip, Hno).
  assert (Hu2 : update_table sc (zip ss vs) (zip [ref] [vid]) rows' = inr rows').
  { rewrite update_table_keeps in Hu |- * by exact Hk.
    eapply update_rows_idem; eauto. rewrite map_snd_zip by exact Hlen.
    eapply bind_values_range; eauto. }
  set (D := set_table (view w c) (Table sc rows')).
  assert (Hc1 : w_conns w1 !! h = Some (committed c)) by now apply after_commit_conn.
  assert (Hv1 : view w1 (committed c) = D) by apply after_commit_view.
  assert (Hl1 : locked_by_other w1 h (c_path (committed c)) = false)
    by exact (eq_trans (after_commit_locked w h c D (c_path c)) Hl).
  assert (Htb1 : find_table (view w1 (committed c)) t = Some (Table sc rows'))
    by (rewrite Hv1; now apply (find_set_table _ _ (Table sc rows))).
  rewrite (update_result w1 h (committed c) Hc1 eq_refl eq_refl Hl1 t id kw (Table sc rows')
             ss [ref] vs vid rows' Htn Hkw Hks Htb1 Hss Hid Hb Hv Hu2).
  rewrite Hv1. unfold D. cbn [tb_schema]. rewrite set_table_idem. do 2 f_equal.
  apply after_commit_id; [exact Hc1|]. apply lookup_insert_eq.
Qed.


(** C3 (functional): [update] commits and prints "OK"; a row the id
    selects keeps its rowid, gets at each named column the value given
    (the last one given for it), and keeps every column not named; the
    other rows are unchanged. *)
Theorem update_only_named w h c t id kw tb ss rs vs vid rows' :
  w_conns w !! h = Some c -> c_open c = true -> c_txn c = None ->
  locked_by_other w h (c_path c) = false ->
  sql_name t = true -> kw <> [] -> forallb sql_name (map fst kw) = true ->
  wf_table tb -> find_table (view w c) t = Some tb ->
  resolve_cols (tb_schema tb) (map fst kw) = inr ss ->
  resolve_cols (tb_schema tb) ["id"] = inr rs ->
  existsb (is_rowid_ref (tb_schema tb)) ss = false ->
  bind_values (map snd kw) = Some vs -> bind_value id = Some vid ->
  update_table (tb_schema tb) (zip ss vs) (zip rs [vid]) (tb_rows tb) = inr rows' ->
  update (Some h) t id kw w =
    (Ok tt, add_out (EvText "OK")
              (after_commit w h c (set_table (view w c) (Table (tb_schema tb) rows')))) /\
  Forall2 (fun r r' =>
             if row_matches (tb_schema tb) (zip rs [vid]) r then
               r'.1 = r.1 /\
               (forall i, r'.2 !! i = match r.2 !! i with
                                      | None => None
                                      | Some _ => assigned (tb_schema tb) (zip ss vs) (r.2 !! i) i
                                      end) /\
               (forall i, Forall (fun sv => sv.1 <> CCol i) (zip ss vs) -> r'.2 !! i = r.2 !! i)
             else r' = r)
          (tb_rows tb) rows'.
Proof.
  intros Hc Ho Ht Hl Htn Hkw Hks Hwf Htb Hss Hid Hno Hb Hv Hu.
  split; [eapply update_result; eauto|].
  destruct tb as [sc rows]. destruct Hwf as (_ & _ & Hw). cbn [tb_schema tb_rows] in *.
  assert (Hk : keeps_rowid sc (zip ss vs) = true).
  { unfold keeps_rowid. rewrite map_fst_zip, Hno; [reflexivity|].
    now rewrite (bind_values_map_length _ _ _ _ Hss Hb). }
  rewrite update_table_keeps in Hu by exact Hk.
  pose proof (update_rows_rel _ _ _ _ _ Hu) as Hrel.
  eapply (Forall_Forall2_impl _ _ _ _ _ Hw Hrel). intros r r' Hwr Hrr.
  destruct (row_matches sc (zip rs [vid]) r); [|exact Hrr].
  destruct (update_row_lookup sc _ r r' Hk (proj1 (proj2 (proj2 Hwr))) Hrr) as [Hkey Hlook].
  split; [exact Hkey|]. split; [exact Hlook|].
  intros i Hi. rewrite Hlook. destruct (r.2 !! i); [|reflexivity]. now apply assigned_other.
Qed.

(** ** Failures *)

Lemma select_where_sql_empty t : sql_name t = true -> parse_sql (select_where_sql t []).1 = None.
Proof.
  intros Ht. apply andb_prop in Ht as [Hti Htn].
  unfold select_where_sql, parse_sql, lex. cbn [where_loop fold_left fst py_join].
  rewrite lex_from_app. simpl.
  rewrite lex_from_app, lex_ident by exact Hti. cbv beta iota.
  simpl. rewrite rev_involutive, string_of_list_ascii_of_string. simpl.
  now rewrite Htn.
Qed.

Lemma delete_where_sql_empty t : sql_name t = true -> parse_sql (delete_where_sql t []).1 = None.
Proof.
  intros Ht. apply andb_prop in Ht as [Hti Htn].
  unfold delete_where_sql, parse_sql, lex. cbn [where_loop fold_left fst py_join].
  rewrite lex_from_app. simpl.
  rewrite lex_from_app, lex_ident by exact Hti. cbv beta iota.
  simpl. rewrite rev_involutive, string_of_list_ascii_of_string. simpl.
  now rewrite Htn.
Qed.

Lemma update_sql_empty t : is_ident t = true -> parse_sql (update_sql t []) = None.
Proof.
  intros Hti. unfold update_sql, parse_sql, lex. cbn [map py_join].
  rewrite lex_from_app. simpl.
  rewrite lex_from_app, lex_ident by exact Hti. cbv beta iota.
  simpl. reflexivity.
Qed.



(** C9 (error): with no filters [select_where] and [delete_where]
    raise [OperationalError] (the statement ends in [WHERE]) and change
    nothing; [update] with no keyword arguments prints that error and
    changes nothing. *)
Theorem empty_filters_fail w h c t id :
  w_conns w !! h = Some c -> c_open c = true -> sql_name t = true ->
  select_where (Some h) t [] w = (Raise (OperationalError ESyntax), w) /\
  delete_where (Some h) t [] w = (Raise (OperationalError ESyntax), w) /\
  update (Some h) t id [] w = (Ok tt, add_out (EvExc (OperationalError ESyntax)) w).
Proof.
  intros Hc Ho Ht. pose proof (cursor_of_ok w h c Hc Ho) as Hcur.
  refine (conj _ (conj _ _)).
  - unfold select_where. rewrite (py_bind_ok _ _ _ _ _ Hcur). cbv zeta.
    now rewrite (py_bind_raise _ _ _ _ _
                   (execute_syntax w (Cursor h [] None) _ [] c Hc Ho (select_where_sql_empty t Ht))).
  - unfold delete_where. cbv zeta. rewrite (py_bind_ok _ _ _ _ _ Hcur).
    now rewrite (py_bind_raise _ _ _ _ _
                   (execute_syntax w (Cursor h [] None) _ [] c Hc Ho (delete_where_sql_empty t Ht))).
  - unfold update, py_try. cbv zeta. rewrite (py_bind_ok _ _ _ _ _ Hcur).
    apply andb_prop in Ht as [Hti _].
    now rewrite (py_bind_raise _ _ _ _ _
                   (execute_syntax w (Cursor h [] None) _ [id] c Hc Ho (update_sql_empty t Hti))).
Qed.

(** C11 (error): a path that cannot be opened makes
    [create_connection] print the error and return [None]; a later call
    with that [None] raises [AttributeError]. *)
Theorem create_connection_refused w path item :
  existsb (String.eqb path) (w_bad_paths w) = true ->
  create_connection path w = (Ok None, add_out (EvExc (OperationalError ECantOpen)) w) /\
  add_item None item w = (Raise AttributeError, w).
Proof.
  intros Hbad. split; [|reflexivity].
  unfold create_connection, py_try. now rewrite (py_bind_raise _ _ _ _ _ (connect_bad w path Hbad)).
Qed.

(** ** Reading back the statements *)

(** C12 (round trip): the statement [select_where] builds from a table
    name and a non-empty set of filters that are SQL names reads back as
    [SELECT * FROM table WHERE k1 = ? AND ...] with the filters' names
    in call order. *)
Theorem select_where_sql_parses t q :
  sql_name t = true -> q <> [] -> forallb sql_name (map fst q) = true ->
  parse_sql (select_where_sql t q).1 = Some (SSelect t (map fst q)).
Proof. apply select_where_sql_parse. Qed.

(** C13 (round trip): the statement [update] builds from a table name
    and non-empty keyword arguments that are SQL names reads back as
    [UPDATE table SET k1 = ?, k2 = ? ... WHERE id = ?]. *)
Theorem update_sql_parses t kw :
  sql_name t = true -> kw <> [] -> forallb sql_name (map fst kw) = true ->
  parse_sql (update_sql t kw) = Some (SUpdate t (map fst kw) ["id"]).
Proof. apply update_sql_parse. Qed.

(** C14 (round trip): the statement [delete_where] builds reads back as
    [DELETE FROM table WHERE k1 = ? AND ...], the names in call order. *)
Theorem delete_where_sql_parses t q :
  sql_name t = true -> q <> [] -> forallb sql_name (map fst q) = true ->
  parse_sql (delete_where_sql t q).1 = Some (SDelete t (map fst q)).
Proof. apply delete_where_sql_parse. Qed.

Lemma select_where_sql_parses_witness :
  parse_sql (select_where_sql "sales" [("status", PyStr "started"); ("id", PyInt 1)]).1
  = Some (SSelect "sales" ["status"; "id"]).
Proof. apply (select_where_sql_parses "sales"); [reflexivity | discriminate | reflexivity]. Defined.

Lemma update_sql_parses_witness :
  parse_sql (update_sql "sales" [("status", PyStr "done")]) = Some (SUpdate "sales" ["status"] ["id"]).
Proof. apply (update_sql_parses "sales"); [reflexivity | discriminate | reflexivity]. Defined.

Lemma delete_where_sql_parses_witness :
  parse_sql (delete_where_sql "sales" [("id", PyInt 1)]).1 = Some (SDelete "sales" ["id"]).
Proof. apply (delete_where_sql_parses "sales"); [reflexivity | discriminate | reflexivity]. Defined.

(** ** Reading changes nothing *)

Lemma cursor_of_cases conn w :
  exists r, cursor_of conn w = (r, w) /\
            forall cu, r = Ok cu -> exists h, conn = Some h /\ cu = Cursor h [] None.
Proof.
  destruct conn as [h|]; [|eexists; split; [reflexivity | discriminate]].
  unfold cursor_of, py_bind at 1.
  destruct (get_conn h w) as [[c|e] w'] eqn:Eg; apply get_conn_spec in Eg as [-> _];
    eexists; (split; [reflexivity|]); [|discriminate].
  intros cu [= <-]. eauto.
Qed.

(** ** What the [except] clause of [update] sees *)

(** The body of a write that returns ends with its print. *)
Lemma write_body_ok_last conn sql params ev w u w' :
  (cur <- cursor_of conn ;; _ <- execute cur sql params ;; commit conn ;; emit ev) w = (Ok u, w') ->
  last (w_out w') = Some ev.
Proof.
  intros H. apply py_bind_ok_inv in H as (cu & w1 & _ & H).
  apply py_bind_ok_inv in H as (cu' & w2 & _ & H).
  apply py_bind_ok_inv in H as (v & w3 & _ & H).
  injection H as _ <-. apply last_snoc.
Qed.

(** The body of a write that raises has written no file: only
    [execute] can raise after the cursor, and it then writes nothing. *)
Lemma write_body_raise_files conn sql params ev w e w1 :
  (cur <- cursor_of conn ;; _ <- execute cur sql params ;; commit conn ;; emit ev) w = (Raise e, w1) ->
  w_files w1 = w_files w.
Proof.
  destruct (cursor_of_cases conn w) as (r & E & Hr). unfold py_bind at 1. rewrite E.
  destruct r as [cu|e0]; [|now intros [= _ <-]].
  destruct (Hr cu eq_refl) as (h & -> & ->).
  unfold py_bind at 1.
  destruct (execute (Cursor h [] None) sql params w) as [[cu'|e1] w2] eqn:Ex;
    [|intros [= _ <-]; exact (execute_raise_files _ _ _ _ _ _ Ex)].
  destruct (execute_ok_open _ _ _ _ _ _ Ex) as (c & Hc & Ho). cbn [cu_conn] in Hc.
  assert (Hcm : exists w3, commit (Some h) w2 = (Ok tt, w3)).
  { unfold commit. rewrite (py_bind_ok _ _ _ _ _ (get_conn_ok w2 h c Hc Ho)).
    destruct (c_txn c); [destruct (c_locked c)|]; eexists; reflexivity. }
  destruct Hcm as (w3 & Hcm). rewrite (py_bind_ok _ _ _ _ _ Hcm). discriminate.
Qed.

(** C23 (error): [update] reports its errors without writing: whatever
    the connection and the arguments, when [update] returns having
    printed an exception, that exception is an [OperationalError] (the
    only class its [except] names) and no database file has changed. *)
Theorem update_error_no_write conn t id kw w w' e :
  update conn t id kw w = (Ok tt, w') -> last (w_out w') = Some (EvExc e) ->
  is_operational e = true /\ w_files w' = w_files w.
Proof.
  unfold update. cbv zeta. intros H Hout.
  apply py_try_ok_inv in H as [H|(e1 & w1 & Hr & Ho & H)].
  - rewrite (write_body_ok_last _ _ _ _ _ _ _ H) in Hout. discriminate.
  - injection H as <-. cbn in Hout. rewrite last_snoc in Hout. injection Hout as ->.
    split; [exact Ho|]. exact (write_body_raise_files _ _ _ _ _ _ _ Hr).
Qed.


(** A query and then [fetchall] on a text that can only be a SELECT. *)
Lemma query_same conn sql params w :
  (forall s, parse_sql sql = Some s -> exists t ws, s = SSelect t ws) ->
  ((cur <- cursor_of conn ;; cur' <- execute cur sql params ;; py_ret (fetchall cur')) w).2 = w.
Proof.
  intros Hsel. destruct (cursor_of_cases conn w) as (r & E & _).
  unfold py_bind at 1. rewrite E. destruct r as [cu|e]; [|reflexivity].
  unfold py_bind. pose proof (execute_select_same w cu sql params Hsel) as Hx.
  destruct (execute cu sql params w) as [[cu'|e] w']; simpl in Hx; now subst.
Qed.

(** C15 (safety): [select_all] and [select_where] leave the world as it
    was, whatever the connection, the table name and the filters — also
    when the table name carries more SQL text, and on every error path:
    the text they build starts with [SELECT * FROM], so it is a SELECT
    or no statement. *)
Theorem reads_change_nothing conn table q w :
  (select_all conn table w).2 = w /\ (select_where conn table q w).2 = w.
Proof.
  split.
  - apply query_same. apply parse_select_prefix.
  - unfold select_where. cbv zeta. apply query_same.
    unfold select_where_sql. cbn [fst]. apply parse_select_prefix.
Qed.

(** ** The order of the filters *)

(** A filter [k = v] as the engine compares it: the column [k] names
    and the value [v] binds to. *)
Definition cond_of (sc : schema) (kv : string * pyval) : option (colref * value) :=
  match resolve_col sc kv.1, bind_value kv.2 with
  | Some r, Some v => Some (r, v)
  | _, _ => None
  end.

Fixpoint conds_of (sc : schema) (q : list (string * pyval)) : option (list (colref * value)) :=
  match q with
  | [] => Some []
  | kv :: q' =>
      match cond_of sc kv, conds_of sc q' with
      | Some c, Some cs => Some (c :: cs)
      | _, _ => None
      end
  end.

Lemma conds_of_spec sc q rs vals :
  resolve_cols sc (map fst q) = inr rs -> bind_values (map snd q) = Some vals ->
  conds_of sc q = Some (zip rs vals).
Proof.
  revert rs vals. induction q as [|[k v] q IH]; simpl; intros rs vals Hr Hb.
  - invc Hr. now invc Hb.
  - destruct (resolve_col sc k) as [r|] eqn:Er; [|discriminate].
    destruct (resolve_cols sc (map fst q)) as [|rs'] eqn:Ers; [discriminate|]. invc Hr.
    destruct (bind_value v) as [x|] eqn:Ev; [|discriminate].
    destruct (bind_values (map snd q)) as [vs'|]; [|discriminate]. invc Hb.
    unfold cond_of. simpl. rewrite Er, Ev, (IH rs' vs' eq_refl eq_refl). reflexivity.
Qed.

Lemma conds_of_inv sc q l :
  conds_of sc q = Some l ->
  resolve_cols sc (map fst q) = inr (map fst l) /\ bind_values (map snd q) = Some (map snd l).
Proof.
  revert l. induction q as [|[k v] q IH]; simpl; intros l H; [now invc H|].
  unfold cond_of in H. simpl in H.
  destruct (resolve_col sc k) as [r|] eqn:Er; [|discriminate].
  destruct (bind_value v) as [x|] eqn:Ev; [|discriminate].
  destruct (conds_of sc q) as [cs|]; [|discriminate]. invc H.
  destruct (IH cs eq_refl) as [H1 H2]. simpl. now rewrite H1, H2.
Qed.

Lemma conds_of_perm sc q q' l :
  Permutation q q' -> conds_of sc q = Some l -> exists l', conds_of sc q' = Some l' /\ Permutation l l'.
Proof.
  intros Hp. revert l. induction Hp as [|kv q q' Hp IH|kv1 kv2 q|q q' q'' _ IH1 _ IH2]; intros l H.
  - eauto.
  - simpl in *. destruct (cond_of sc kv) as [c|]; [|discriminate].
    destruct (conds_of sc q) as [cs|]; [|discriminate]. invc H.
    destruct (IH cs eq_refl) as (cs' & -> & Hcs). eauto using perm_skip.
  - simpl in *. destruct (cond_of sc kv1) as [c1|], (cond_of sc kv2) as [c2|];
      destruct (conds_of sc q) as [cs|]; try discriminate. invc H.
    eexists. split; [reflexivity|]. apply perm_swap.
  - destruct (IH1 l H) as (l1 & H1 & P1). destruct (IH2 l1 H1) as (l2 & H2 & P2).
    exists l2. split; [exact H2|]. now transitivity l1.
Qed.

Lemma zip_fst_snd {A B} (l : list (A * B)) : zip (map fst l) (map snd l) = l.
Proof. induction l as [|[a b] l IH]; simpl; [reflexivity|]. now rewrite IH. Qed.

Lemma forallb_perm {A} (f : A -> bool) l l' : Permutation l l' -> forallb f l = forallb f l'.
Proof.
  intros Hp. apply Bool.eq_iff_eq_true. rewrite !forallb_forall.
  split; intros H x Hx; apply H; [apply (Permutation_in _ (Permutation_sym Hp)) | apply (Permutation_in _ Hp)];
    exact Hx.
Qed.

Lemma select_rows_perm sc l l' rows :
  Permutation l l' -> select_rows sc l rows = select_rows sc l' rows.
Proof.
  intros Hp. unfold select_rows, row_matches. f_equal. apply List.filter_ext. intros r.
  now apply forallb_perm.
Qed.

(** C16 (equivalence): the order of [select_where]'s keyword filters
    does not matter: any permutation of them gives the same rows (the
    WHERE clause is a conjunction, as the spec says). *)
Theorem select_where_order w h c t q q' tb rs vals :
  w_conns w !! h = Some c -> c_open c = true ->
  sql_name t = true -> q <> [] -> forallb sql_name (map fst q) = true ->
  find_table (view w c) t = Some tb ->
  resolve_cols (tb_schema tb) (map fst q) = inr rs ->
  bind_values (map snd q) = Some vals ->
  Permutation q q' ->
  select_where (Some h) t q' w = select_where (Some h) t q w.
Proof.
  intros Hc Ho Htn Hq Hks Htb Hrs Hb Hp.
  destruct (conds_of_perm _ _ _ _ Hp (conds_of_spec _ _ _ _ Hrs Hb)) as (l' & Hc2 & Hl).
  destruct (conds_of_inv _ _ _ Hc2) as [Hrs' Hb'].
  assert (Hq' : q' <> []) by (intros ->; now apply Hq, Permutation_nil).
  assert (Hks' : forallb sql_name (map fst q') = true)
    by (rewrite <- Hks; symmetry; now apply forallb_perm, Permutation_map).
  rewrite (select_where_result w h c Hc Ho t q tb rs vals Htn Hq Hks Htb Hrs Hb).
  rewrite (select_where_result w h c Hc Ho t q' tb _ _ Htn Hq' Hks' Htb Hrs' Hb').
  now rewrite zip_fst_snd, <- (select_rows_perm _ _ _ _ Hl).
Qed.
