(* ===== verification/Invariant.v ===== *)
(** * Invariant: every database the program can reach is well formed

    [wf_world] asks that every database file and every connection's
    pending transaction satisfy [Engine.wf_db] (sorted distinct rowids,
    rows of the table's width, the INTEGER PRIMARY KEY equal to the rowid,
    NOT NULL columns filled, integers in the 64-bit range).  A
    computation [keeps] the invariant when it holds after it whenever it
    held before, whatever the computation returns or raises.  The driver's
    operations keep it; the program's functions, built from them with
    [py_bind] and [py_try], keep it by the composition lemmas of
    [Preserve] ([keeps] is [preserves wf_world]). *)

From S2P Require Import Prelude Values Sql Engine Updates Conn Preserve Dal.

Local Open Scope py_scope.

Definition txn_wf (c : conn) : Prop := forall d, c_txn c = Some d -> wf_db d.

Definition wf_world (w : world) : Prop :=
  map_Forall (fun _ d => wf_db d) (w_files w) /\ Forall txn_wf (w_conns w).

(** ** Any sequence of calls *)

(** A call of one of the program's functions (or of the connection's
    [commit] and [close], which the script calls directly), its result
    dropped. *)
Inductive call : Type :=
  | CConnect (path : string)
  | CExecuteSql (conn : option handle) (sql : string)
  | CAddItem (conn : option handle) (item : list pyval)
  | CAddSale (conn : option handle) (sale : list pyval)
  | CSelectAll (conn : option handle) (table : string)
  | CSelectWhere (conn : option handle) (table : string) (q : list (string * pyval))
  | CUpdate (conn : option handle) (table : string) (id : pyval) (kw : list (string * pyval))
  | CDeleteWhere (conn : option handle) (table : string) (kw : list (string * pyval))
  | CCommit (conn : option handle)
  | CClose (conn : option handle).

Definition perform (k : call) : M unit :=
  match k with
  | CConnect path => _ <- create_connection path ;; py_ret tt
  | CExecuteSql conn sql => execute_sql conn sql
  | CAddItem conn item => _ <- add_item conn item ;; py_ret tt
  | CAddSale conn sale => _ <- add_sale conn sale ;; py_ret tt
  | CSelectAll conn t => _ <- select_all conn t ;; py_ret tt
  | CSelectWhere conn t q => _ <- select_where conn t q ;; py_ret tt
  | CUpdate conn t id kw => update conn t id kw
  | CDeleteWhere conn t kw => delete_where conn t kw
  | CCommit conn => commit conn
  | CClose conn => close conn
  end.

(** The worlds a run reaches from files that are well formed, whatever
    the calls, their arguments and their exceptions (a caller that
    catches an exception goes on with the world it left). *)
Inductive reachable : world -> Prop :=
  | reach_init fs bad :
      map_Forall (fun _ d => wf_db d) fs -> reachable (World fs [] bad [])
  | reach_step w k : reachable w -> reachable (perform k w).2.

(** [m] keeps the invariant, on success and on failure alike. *)
Abbreviation keeps := (preserves wf_world).

(** ** The pieces of the world *)

Lemma set_conn_wf w h c :
  wf_world w -> txn_wf c -> wf_world (set_conns (<[h := c]> (w_conns w)) w).
Proof. intros [Hf Hc] Ht. split; [exact Hf|]. now apply Forall_insert. Qed.

Lemma set_file_wf w p d :
  wf_world w -> wf_db d -> wf_world (set_files (<[p := d]> (w_files w)) w).
Proof. intros [Hf Hc] Hd. split; [|exact Hc]. now apply map_Forall_insert_2. Qed.

Lemma add_out_wf w ev : wf_world w -> wf_world (add_out ev w).
Proof. now intros [Hf Hc]. Qed.

Lemma conn_wf w h c : wf_world w -> w_conns w !! h = Some c -> txn_wf c.
Proof. intros [_ Hc] E. eapply Forall_lookup_1; eauto. Qed.

Lemma file_wf w p : wf_world w -> wf_db (file_db w p).
Proof.
  intros Hw. unfold file_db. destruct (w_files w !! p) as [d|] eqn:Ef; simpl; [|constructor].
  apply (map_Forall_lookup_1 _ _ _ _ (proj1 Hw) Ef).
Qed.

Lemma view_wf w h c : wf_world w -> w_conns w !! h = Some c -> wf_db (view w c).
Proof.
  intros Hw E. unfold view. destruct (c_txn c) as [d|] eqn:Et; [destruct (c_locked c)|];
    [now apply (conn_wf w h c Hw E) | apply file_wf..]; exact Hw.
Qed.

Lemma txn_none p l o : txn_wf (Conn p None l o).
Proof. discriminate. Qed.

Lemma txn_some p d l o : wf_db d -> txn_wf (Conn p (Some d) l o).
Proof. now intros Hd d' [= <-]. Qed.

Lemma txn_same c p l o : txn_wf c -> txn_wf (Conn p (c_txn c) l o).
Proof. now intros H. Qed.

#[export] Hint Resolve txn_none txn_some txn_same : preserve.

(** ** The driver's operations *)

Lemma emit_keeps ev : keeps (emit ev).
Proof. intros w Hw. now apply add_out_wf. Qed.

Lemma update_conn_keeps h c : txn_wf c -> keeps (update_conn h c).
Proof. intros Hc w Hw. now apply set_conn_wf. Qed.

Lemma connect_keeps path : keeps (connect path).
Proof.
  intros w Hw. unfold connect, py_bind, py_get. simpl.
  destruct (existsb _ _); [exact Hw|]. simpl. destruct Hw as [Hf Hc]. split.
  - simpl. destruct (w_files w !! path); [exact Hf|]. apply map_Forall_insert_2; [constructor|exact Hf].
  - simpl. apply Forall_app; split; [exact Hc|]. constructor; [apply txn_none|constructor].
Qed.

Lemma keeps_write_file p d : wf_db d -> keeps (py_modify (fun w => set_files (<[p := d]> (w_files w)) w)).
Proof. intros Hd w Hw. now apply set_file_wf. Qed.

Lemma commit_keeps conn : keeps (commit conn).
Proof.
  destruct conn as [h|]; [|apply preserves_raise]. intros w Hw.
  unfold commit, get_conn, py_bind, py_get. simpl.
  destruct (w_conns w !! h) as [c|] eqn:E; [|exact Hw]. destruct (c_open c); [|exact Hw].
  simpl. destruct (c_txn c) as [d|] eqn:Et; [|exact Hw]. destruct (c_locked c); simpl;
    [|now apply set_conn_wf].
  apply (set_conn_wf (set_files (<[c_path c := d]> (w_files w)) w)); [|apply txn_none].
  apply set_file_wf; [exact Hw|]. now apply (conn_wf w h c Hw E).
Qed.

Lemma close_keeps conn : keeps (close conn).
Proof.
  destruct conn as [h|]; [|apply preserves_raise]. intros w Hw.
  unfold close, py_bind, py_get. simpl. destruct (w_conns w !! h); [|exact Hw].
  now apply set_conn_wf, txn_none.
Qed.

#[export] Hint Resolve emit_keeps update_conn_keeps connect_keeps keeps_write_file
  commit_keeps close_keeps : preserve.

Lemma execute_keeps cu sql params : keeps (execute cu sql params).
Proof.
  intros w Hw. unfold execute. unfold py_bind at 1.
  destruct (get_conn (cu_conn cu) w) as [[c|e] w'] eqn:Eg;
    apply get_conn_spec in Eg as [-> Hc]; [|exact Hw].
  destruct (Hc c eq_refl) as [Hc' _]. clear Hc. rename Hc' into Hc. pose proof (view_wf w _ c Hw Hc) as Hv.
  unfold py_bind at 1, py_get. cbv beta iota.
  destruct (parse_sql sql) as [s|]; [|exact Hw].
  destruct (prepare (view w c) s) as [e|p] eqn:Ep; [exact Hw|].
  set (c1 := if is_dml s && bool_decide (c_txn c = None) then _ else c).
  assert (Hv1 : view w c1 = view w c).
  { unfold c1. destruct (is_dml s && _); [apply view_begin | reflexivity]. }
  assert (Ht1 : txn_wf c1).
  { unfold c1. destruct (is_dml s && _); [now apply txn_some | exact (conn_wf w _ c Hw Hc)]. }
  preserve_rest Hw. apply preserves_bind; [solve [auto with preserve] | intros _].
  apply preserves_if; [solve [auto with preserve]|].
  destruct (bind_values params) as [vals|] eqn:Eb; [|solve [auto with preserve]].
  destruct (run (view w c1) p vals) as [e|r] eqn:Er; [preserve_solve|].
  assert (Hr : wf_db (er_db r)).
  { rewrite Hv1 in Er. exact (run_preserves_wf _ s p vals r Hv (bind_values_range _ _ Eb) Ep Er). }
  preserve_solve.
Qed.

#[export] Hint Resolve execute_keeps : preserve.

(** ** The program's functions *)

Section Functions.
Context (conn : option handle) (table : string).

Lemma create_connection_keeps path : keeps (create_connection path).
Proof. unfold create_connection. preserve_solve. Qed.

Lemma execute_sql_keeps sql : keeps (execute_sql conn sql).
Proof. unfold execute_sql. preserve_solve. Qed.

Lemma add_item_keeps item : keeps (add_item conn item).
Proof. unfold add_item. preserve_solve. Qed.

Lemma add_sale_keeps sale : keeps (add_sale conn sale).
Proof. unfold add_sale. preserve_solve. Qed.

Lemma select_all_keeps : keeps (select_all conn table).
Proof. unfold select_all. preserve_solve. Qed.

Lemma select_where_keeps q : keeps (select_where conn table q).
Proof. unfold select_where. preserve_solve. Qed.

Lemma update_keeps id kw : keeps (update conn table id kw).
Proof. unfold update. preserve_solve. Qed.

Lemma delete_where_keeps kw : keeps (delete_where conn table kw).
Proof. unfold delete_where. preserve_solve. Qed.
End Functions.

#[export] Hint Resolve create_connection_keeps execute_sql_keeps add_item_keeps add_sale_keeps
  select_all_keeps select_where_keeps update_keeps delete_where_keeps : preserve.

Lemma perform_keeps k : keeps (perform k).
Proof. destruct k; simpl; preserve_solve. Qed.

(** Every world reachable from well-formed database
    files by any sequence of calls of the program's functions (and of
    [commit] and [close]) is well formed: in every file and every open
    transaction the rows are in strictly increasing rowid order, have
    the table's width, hold their rowid in the INTEGER PRIMARY KEY
    column, fill their NOT NULL columns and keep integers in 64 bits. *)
Theorem reachable_wf w : reachable w -> wf_world w.
Proof.
  induction 1 as [fs bad Hfs|w k _ IH].
  - split; [exact Hfs | constructor].
  - now apply perform_keeps.
Qed.


