(* ===== verification/Refine.v ===== *)
(** * Refine: the tables the functions write, as finite maps

    A table of [Engine] is a list of rows kept in rowid order; what the
    functions of src/bazajedenplik.py promise their callers is less: a
    table is a finite map from the row's id to its values.  [tmap] is
    that abstraction (stdpp's [gmap]), [table_map] the abstract table of
    a database by name.  The theorems show that every [add_item] and
    [add_sale] that succeeds on a connection outside a transaction is an
    insertion at a fresh key of the abstract table, and every
    [delete_where] that succeeds is a [filter] of it, the other tables of
    the file untouched: the sorted-list operations of the engine refine
    the map operations. *)

From stdpp Require Import gmap.
From S2P Require Import Prelude Values Sql Engine Updates Conn Dal Invariant.

Local Open Scope py_scope.

(** The abstract table: rowid to values. *)
Definition tmap (rows : list row) : gmap Z (list value) := list_to_map rows.

Definition table_map (d : db) (t : string) : option (gmap Z (list value)) :=
  (fun tb => tmap (tb_rows tb)) <$> find_table d t.

(** ** The sorted-list operations refine the map operations *)

Lemma tmap_lookup_none k rows : ~ In k (map fst rows) -> tmap rows !! k = None.
Proof.
  intros Hn. apply not_elem_of_list_to_map_1. intros Hin. apply Hn.
  apply list_elem_of_fmap in Hin as [x [-> Hx]]. apply in_map. now apply list_elem_of_In.
Qed.

Lemma tmap_insert_by_key r rows :
  ~ In r.1 (map fst rows) -> tmap (insert_by_key r rows) = <[r.1 := r.2]> (tmap rows).
Proof.
  unfold tmap. induction rows as [|r' rs IH]; intros Hn; [reflexivity|].
  simpl. destruct (r.1 <? r'.1)%Z; [reflexivity|].
  simpl. rewrite IH by (intros H; apply Hn; now right).
  apply insert_insert_ne. intros E. apply Hn. left. exact E.
Qed.

Lemma tmap_filter (P : row -> bool) rows :
  StronglySorted Z.lt (map fst rows) ->
  tmap (List.filter (fun r => negb (P r)) rows) = filter (fun kv => P kv = false) (tmap rows).
Proof.
  unfold tmap. induction rows as [|[k v] rs IH]; intros Hs.
  { now rewrite list_to_map_nil, map_filter_empty. }
  inversion Hs as [|? ? Hs' Hlt]; subst. cbn [List.filter]. rewrite list_to_map_cons.
  rewrite map_filter_insert. specialize (IH Hs').
  assert (Hk : ~ In k (map fst rs)).
  { intros Hin. rewrite List.Forall_forall in Hlt. specialize (Hlt k Hin). lia. }
  destruct (P (k, v)) eqn:E; cbn [negb].
  - rewrite decide_False by (simpl; congruence).
    rewrite delete_id by now apply tmap_lookup_none. exact IH.
  - rewrite decide_True by (simpl; congruence). now rewrite list_to_map_cons, IH.
Qed.

(** A row [insert_row] accepts has a rowid the table does not hold. *)
Lemma insert_row_fresh sc rows cols vals r :
  insert_row sc rows cols vals = inr r -> ~ In r.1 (map fst rows).
Proof.
  unfold insert_row. destruct (choose_rowid _ _) as [|rid]; [discriminate|].
  destruct (check_notnull _ _); [discriminate|].
  destruct (existsb _ rows) eqn:E; [discriminate|]. intros [= <-] Hin. simpl in Hin.
  apply in_map_iff in Hin as (r0 & Hr0 & Hin).
  assert (existsb (fun r => (r.1 =? rid)%Z) rows = true)
    by (apply existsb_exists; exists r0; split; [exact Hin | now apply Z.eqb_eq]).
  congruence.
Qed.

Lemma find_set_table_other d tb t :
  name_eqb (sc_name (tb_schema tb)) t = false -> find_table (set_table d tb) t = find_table d t.
Proof.
  intros Hn. unfold find_table, set_table. induction d as [|tb0 d IH]; [reflexivity|].
  simpl. destruct (name_eqb (sc_name (tb_schema tb0)) (sc_name (tb_schema tb))) eqn:E.
  - rewrite Hn. destruct (name_eqb (sc_name (tb_schema tb0)) t) eqn:E0; [|exact IH].
    rewrite name_eqb_sym in E. rewrite (name_eqb_trans _ _ _ E E0) in Hn. discriminate.
  - now rewrite IH.
Qed.

Lemma find_table_name d t tb : find_table d t = Some tb -> name_eqb (sc_name (tb_schema tb)) t = true.
Proof. unfold find_table. intros H. now apply find_some in H as [_ H]. Qed.

(** ** The contracts

    [inserted d d' t a]: [d'] is [d] with one more entry in table [t], at
    a key [t] did not hold, and [a] is that key; the other tables are as
    they were.  [deleted d d' t P]: table [t] of [d'] is that of [d]
    without the entries [P] selects; the other tables are as they were. *)
Definition others_same (d d' : db) (t : string) : Prop :=
  forall t', name_eqb t t' = false -> find_table d' t' = find_table d t'.

Definition inserted (d d' : db) (t : string) (a : option Z) : Prop :=
  exists id vals m, a = Some id /\ table_map d t = Some m /\ m !! id = None /\
    table_map d' t = Some (<[id := vals]> m) /\ others_same d d' t.

Definition deleted (d d' : db) (t : string) (P : row -> bool) : Prop :=
  exists m, table_map d t = Some m /\
    table_map d' t = Some (filter (fun kv => P kv = false) m) /\ others_same d d' t.

(** [updated d d' t z f]: table [t] of [d'] is that of [d] with the
    entry at key [z], if there is one, replaced by [f] of it; the other
    tables are as they were. *)
Definition updated (d d' : db) (t : string) (z : Z) (f : list value -> list value) : Prop :=
  exists m, table_map d t = Some m /\
    table_map d' t = Some (alter f z m) /\ others_same d d' t.

(** Writing back the table found under [t] changes no other table. *)
Lemma set_table_others d t tb rows :
  find_table d t = Some tb -> others_same d (set_table d (Table (tb_schema tb) rows)) t.
Proof.
  intros Htb t' Hn. apply find_set_table_other. cbn [tb_schema].
  destruct (name_eqb (sc_name (tb_schema tb)) t') eqn:E; [|reflexivity].
  rewrite (name_eqb_trans _ _ _ (eq_trans (name_eqb_sym _ _) (find_table_name _ _ _ Htb)) E) in Hn.
  discriminate.
Qed.

Lemma table_map_set d t tb rows :
  find_table d t = Some tb ->
  table_map (set_table d (Table (tb_schema tb) rows)) t = Some (tmap rows).
Proof. intros Htb. unfold table_map. now rewrite (find_set_table _ _ _ _ Htb). Qed.

(** Rewriting the row at key [z], and only it, is [alter] at [z]. *)
Lemma tmap_update (f : list value -> list value) z rows rows' :
  StronglySorted Z.lt (map fst rows) ->
  Forall2 (fun r r' => r' = if (r.1 =? z)%Z then (r.1, f r.2) else r) rows rows' ->
  tmap rows' = alter f z (tmap rows).
Proof.
  unfold tmap. intros Hs H. revert Hs. induction H as [|[k v] r' rs rs' -> _ IH]; intros Hs.
  { now rewrite list_to_map_nil, alter_empty. }
  inversion Hs as [|? ? Hs' Hlt]; subst. cbn [fst snd] in *.
  destruct (Z.eqb_spec k z) as [<-|Hne]; rewrite !list_to_map_cons, (IH Hs').
  - rewrite alter_insert_eq. f_equal. apply alter_id'. apply tmap_lookup_none.
    intros Hin. rewrite List.Forall_forall in Hlt. specialize (Hlt _ Hin). lia.
  - rewrite alter_insert_ne by congruence. reflexivity.
Qed.

(** The row an UPDATE that keeps the rowid makes: the SET list applied
    to its values. *)
Lemma update_row_vals sc sets r r' :
  keeps_rowid sc sets = true -> pk_ok sc r -> update_row sc sets r = inr r' ->
  r' = (r.1, fold_left (set_value sc) sets r.2).
Proof.
  intros Hk Hpk Hu. destruct (update_row_lookup sc sets r r' Hk Hpk Hu) as [H1 H2].
  destruct r' as [k' v']. cbn in H1, H2 |- *. f_equal; [exact H1|].
  apply list_eq. intros i. now rewrite H2, fold_set_value_lookup.
Qed.

(** An UPDATE by integer id that keeps the rowid is [alter] at the id. *)
Lemma update_rows_alter sc sets ref z rows rows' :
  StronglySorted Z.lt (map fst rows) -> Forall (pk_ok sc) rows ->
  keeps_rowid sc sets = true -> is_rowid_ref sc ref = true -> ref_affinity sc ref = AInteger ->
  update_rows sc sets [(ref, VInt z)] rows = inr rows' ->
  tmap rows' = alter (fold_left (set_value sc) sets) z (tmap rows).
Proof.
  intros Hs Hpk Hk Hr Ha Hu. apply tmap_update; [exact Hs|].
  apply (Forall_Forall2_impl _ _ _ _ _ Hpk (update_rows_rel _ _ _ _ _ Hu)).
  intros r r' Hp H. rewrite row_matches_rowid, Ha in H by assumption. cbn in H.
  destruct (r.1 =? z)%Z; [exact (update_row_vals sc sets r r' Hk Hp H) | exact H].
Qed.

(** ** The INSERT, UPDATE and DELETE plans *)

Lemma prepare_insert_inv d t cols n p :
  prepare d (SInsert t cols n) = inr p ->
  exists tb rs, find_table d t = Some tb /\ p = PlInsert t rs.
Proof.
  simpl. destruct (find_table d t) as [tb|]; [|discriminate].
  destruct (resolve_cols _ cols) as [|rs]; [discriminate|].
  destruct (Nat.eqb n _); [|discriminate]. intros [= <-]. eauto.
Qed.

Lemma prepare_delete_inv d t ws p :
  prepare d (SDelete t ws) = inr p ->
  exists tb rs, find_table d t = Some tb /\ resolve_cols (tb_schema tb) ws = inr rs /\
    p = PlDelete t rs.
Proof.
  simpl. destruct (find_table d t) as [tb|]; [|discriminate].
  destruct (resolve_cols _ ws) as [|rs] eqn:E; [discriminate|]. intros [= <-]. eauto.
Qed.

(** An INSERT that succeeds adds the row [insert_row] builds, and
    reports its rowid. *)
Lemma run_insert_inv d t tb rs vals e :
  find_table d t = Some tb -> run d (PlInsert t rs) vals = inr e ->
  exists r, insert_row (tb_schema tb) (tb_rows tb) rs vals = inr r /\
    er_db e = set_table d (Table (tb_schema tb) (insert_by_key r (tb_rows tb))) /\
    er_rowid e = Some r.1.
Proof.
  intros Htb. cbn [run]. unfold with_table. rewrite Htb.
  destruct (insert_row _ _ rs vals) as [|r]; [discriminate|]. intros [= <-]. eauto.
Qed.

Lemma prepare_update_inv d t sets ws p :
  prepare d (SUpdate t sets ws) = inr p ->
  exists tb ss rs, find_table d t = Some tb /\ resolve_cols (tb_schema tb) sets = inr ss /\
    resolve_cols (tb_schema tb) ws = inr rs /\ p = PlUpdate t ss rs.
Proof.
  simpl. destruct (find_table d t) as [tb|]; [|discriminate].
  destruct (resolve_cols _ sets) as [|ss] eqn:E1; [discriminate|].
  destruct (resolve_cols _ ws) as [|rs] eqn:E2; [discriminate|]. intros [= <-]. eauto 7.
Qed.

Lemma run_update_inv d t tb ss rs vals e :
  find_table d t = Some tb -> run d (PlUpdate t ss rs) vals = inr e ->
  exists rows', update_table (tb_schema tb) (zip ss (take (length ss) vals))
                  (zip rs (drop (length ss) vals)) (tb_rows tb) = inr rows' /\
    er_db e = set_table d (Table (tb_schema tb) rows').
Proof.
  intros Htb. cbn [run]. unfold with_table. rewrite Htb.
  destruct (update_table _ _ _ _) as [|rows']; [discriminate|]. intros [= <-]. eauto.
Qed.

Lemma run_delete_inv d t tb rs vals e :
  find_table d t = Some tb -> run d (PlDelete t rs) vals = inr e ->
  er_db e = set_table d (Table (tb_schema tb) (delete_rows (tb_schema tb) (zip rs vals) (tb_rows tb))).
Proof. intros Htb. cbn [run]. unfold with_table. rewrite Htb. now intros [= <-]. Qed.

Lemma file_db_after_commit w h c d : file_db (after_commit w h c d) (c_path c) = d.
Proof. exact (after_commit_view w h c d). Qed.

Lemma wf_found_table w h c t tb :
  wf_world w -> w_conns w !! h = Some c -> find_table (view w c) t = Some tb -> wf_table tb.
Proof.
  intros Hw Hc Htb. pose proof (view_wf w h c Hw Hc) as Hd. unfold wf_db in Hd.
  rewrite List.Forall_forall in Hd. apply Hd. exact (find_table_in _ _ _ Htb).
Qed.

(** ** Refinement *)

(** An INSERT outside a transaction, committed, that succeeds and
    returns [cur.lastrowid] is an insertion at a fresh key. *)
Lemma insert_refines w h c sql t cols n params a w' :
  w_conns w !! h = Some c -> c_txn c = None ->
  parse_sql sql = Some (SInsert t cols n) ->
  (cur <- cursor_of (Some h) ;; cur' <- execute cur sql params ;; commit (Some h) ;;
   py_ret (cu_lastrowid cur')) w = (Ok a, w') ->
  inserted (file_db w (c_path c)) (file_db w' (c_path c)) t a.
Proof.
  intros Hc Ht Hs H.
  destruct (execute_commit_inv w h c sql params _ (fun cur => py_ret (cu_lastrowid cur)) a w'
              Hc Ht Hs eq_refl H) as (p & vals & e & _ & Hp & _ & _ & _ & Hr & Hk).
  destruct (prepare_insert_inv _ _ _ _ _ Hp) as (tb & rs & Htb & ->).
  destruct (run_insert_inv _ _ _ _ _ _ Htb Hr) as (r & Hi & Hdb & Hid).
  injection Hk as <- <-. cbn [cu_lastrowid]. rewrite Hid, file_db_after_commit, Hdb.
  pose proof (insert_row_fresh _ _ _ _ _ Hi) as Hfr.
  exists r.1, r.2, (tmap (tb_rows tb)). repeat split.
  - unfold table_map. now rewrite Htb.
  - now apply tmap_lookup_none.
  - rewrite (table_map_set _ _ _ _ Htb). now rewrite tmap_insert_by_key.
  - now apply set_table_others.
Qed.

(** C18 (refinement): on a connection outside a transaction, every
    [add_item] and every [add_sale] that returns is an insertion into the
    abstract table ([items], [sales]) at a key it did not hold, the key
    being the id the function returns; the other tables of the file are
    unchanged. *)
Theorem inserts_refine w h c :
  w_conns w !! h = Some c -> c_txn c = None ->
  (forall item a w', add_item (Some h) item w = (Ok a, w') ->
     inserted (file_db w (c_path c)) (file_db w' (c_path c)) "items" a) /\
  (forall sale a w', add_sale (Some h) sale w = (Ok a, w') ->
     inserted (file_db w (c_path c)) (file_db w' (c_path c)) "sales" a).
Proof.
  intros Hc Ht. split; intros x a w' H.
  - apply (insert_refines w h c add_item_sql "items" ["nazwa"; "quantity"; "description"] 3 x);
      [assumption | assumption | vm_compute; reflexivity | exact H].
  - apply (insert_refines w h c add_sale_sql "sales"
             ["items_id"; "sales_quantity"; "status"; "sales_date"] 4 x);
      [assumption | assumption | vm_compute; reflexivity | exact H].
Qed.

(** C19 (refinement): on a connection outside a transaction, in a
    well-formed world, every [delete_where] that returns, with a table
    name and filters that are SQL names, removes from the abstract table
    exactly the entries whose row satisfies every filter (values bound
    and converted as the engine does) and changes no other table. *)
Theorem delete_where_refines w h c t q u w' :
  wf_world w -> w_conns w !! h = Some c -> c_txn c = None ->
  sql_name t = true -> q <> [] -> forallb sql_name (map fst q) = true ->
  delete_where (Some h) t q w = (Ok u, w') ->
  exists tb rs vals, find_table (file_db w (c_path c)) t = Some tb /\
    resolve_cols (tb_schema tb) (map fst q) = inr rs /\ bind_values (map snd q) = Some vals /\
    deleted (file_db w (c_path c)) (file_db w' (c_path c)) t
            (row_matches (tb_schema tb) (zip rs vals)).
Proof.
  intros Hw Hc Ht Htn Hq Hks H. unfold delete_where in H. cbv zeta in H.
  destruct (execute_commit_inv w h c _ _ _ (fun _ => emit (EvText "Deleted")) u w'
              Hc Ht (delete_where_sql_parse t q Htn Hq Hks) eq_refl H)
    as (p & vals & e & _ & Hp & _ & Hb & _ & Hr & Hk).
  destruct (prepare_delete_inv _ _ _ _ Hp) as (tb & rs & Htb & Hrs & ->).
  rewrite delete_where_sql_values in Hb.
  injection Hk as _ <-. change (file_db (add_out (EvText "Deleted") (after_commit w h c (er_db e)))
                                  (c_path c)) with (file_db (after_commit w h c (er_db e)) (c_path c)).
  rewrite file_db_after_commit, (run_delete_inv _ _ _ _ _ _ Htb Hr).
  assert (Hwf : wf_table tb)
    by (apply (wf_found_table w h c t tb Hw Hc); unfold view; now rewrite Ht).
  exists tb, rs, vals. repeat split; try assumption.
  exists (tmap (tb_rows tb)). repeat split.
  - unfold table_map. now rewrite Htb.
  - rewrite (table_map_set _ _ _ _ Htb). f_equal. apply tmap_filter. apply Hwf.
  - now apply set_table_others.
Qed.

(** C22 (refinement): on a connection outside a transaction, in a
    well-formed world, every [update(conn, t, z, **kw)] with an integer
    id, on a table whose [id] is its INTEGER PRIMARY KEY, that returns
    having printed "OK", with SET columns that are not the rowid, turns
    the abstract table into [alter] at key [z] of the SET list (the
    columns not named kept), the other tables unchanged; when it prints
    an error instead, it is the [except] branch. *)
Theorem update_refines w h c t z kw w' tb ss ref :
  wf_world w -> w_conns w !! h = Some c -> c_txn c = None ->
  sql_name t = true -> kw <> [] -> forallb sql_name (map fst kw) = true ->
  find_table (file_db w (c_path c)) t = Some tb ->
  resolve_cols (tb_schema tb) (map fst kw) = inr ss ->
  existsb (is_rowid_ref (tb_schema tb)) ss = false ->
  resolve_cols (tb_schema tb) ["id"] = inr [ref] -> is_rowid_ref (tb_schema tb) ref = true ->
  ref_affinity (tb_schema tb) ref = AInteger ->
  update (Some h) t (PyInt z) kw w = (Ok tt, w') -> last (w_out w') = Some (EvText "OK") ->
  exists vs, bind_values (map snd kw) = Some vs /\
    updated (file_db w (c_path c)) (file_db w' (c_path c)) t z
            (fold_left (set_value (tb_schema tb)) (zip ss vs)).
Proof.
  intros Hw Hc Ht Htn Hkw Hks Htb Hss Hno Hid Hr Ha H Hout.
  unfold update, py_try in H. cbv zeta in H.
  destruct ((cur <- cursor_of (Some h) ;;
             _ <- execute cur (update_sql t kw) (map snd kw ++ [PyInt z]) ;;
             commit (Some h) ;; emit (EvText "OK")) w) as [[u|e] w1] eqn:Eb.
  2: { destruct (is_operational e); [|discriminate]. injection H as <-.
       cbn in Hout. rewrite last_snoc in Hout. discriminate. }
  injection H as _ <-.
  destruct (execute_commit_inv w h c _ _ _ (fun _ => emit (EvText "OK")) u w1
              Hc Ht (update_sql_parse t kw Htn Hkw Hks) eq_refl Eb)
    as (p & vals & e & _ & Hp & _ & Hb & _ & Hrun & Hk).
  injection Hk as _ <-.
  destruct (prepare_update_inv _ _ _ _ _ Hp) as (tb' & ss' & rs' & Htb' & Hss' & Hid' & ->).
  rewrite Htb in Htb'. injection Htb' as <-. rewrite Hss in Hss'. injection Hss' as <-.
  rewrite Hid in Hid'. injection Hid' as <-.
  rewrite bind_values_app in Hb.
  destruct (bind_values (map snd kw)) as [vs|] eqn:Hvs; [|discriminate].
  cbn in Hb. destruct (in_int64 z); [|discriminate]. injection Hb as <-.
  exists vs. split; [reflexivity|].
  destruct (run_update_inv _ _ _ _ _ _ _ Htb Hrun) as (rows' & Hu & Hdb).
  assert (Hlen : length ss = length vs) by now rewrite (bind_values_map_length _ _ _ _ Hss Hvs).
  rewrite Hlen, take_app_length, drop_app_length in Hu.
  assert (Hk : keeps_rowid (tb_schema tb) (zip ss vs) = true)
    by (unfold keeps_rowid; now rewrite map_fst_zip, Hno).
  rewrite update_table_keeps in Hu by exact Hk.
  assert (Hwf : wf_table tb)
    by (apply (wf_found_table w h c t tb Hw Hc); unfold view; now rewrite Ht).
  destruct Hwf as (_ & Hs & Hrows).
  change (file_db (add_out (EvText "OK") (after_commit w h c (er_db e))) (c_path c))
    with (file_db (after_commit w h c (er_db e)) (c_path c)).
  rewrite file_db_after_commit, Hdb.
  exists (tmap (tb_rows tb)). repeat split.
  - unfold table_map. now rewrite Htb.
  - rewrite (table_map_set _ _ _ _ Htb). f_equal. apply (update_rows_alter _ _ ref); try assumption.
    eapply Forall_impl; [exact Hrows|]. intros r (_ & _ & Hpk & _). exact Hpk.
  - now apply set_table_others.
Qed.
