(* ===== verification/Locks.v ===== *)
(** * Locks: the write lock between connections

    A connection takes its file's write lock when a statement of its
    transaction first writes, and keeps it until [commit] (or [close]).
    [lock_ok] is the lock discipline of one connection: outside a
    transaction it holds no lock.  [lock_disc h] adds that no connection
    but [h] holds a lock.  A computation that touches only connection [h]
    ([keeps_lock h]) preserves it; the driver's operations on [h] do, and
    so do the program's writes through [h], by the composition lemmas of
    [Preserve].  A write that returns has ended with a
    [commit], which leaves [h] without the lock: afterwards no connection
    holds one, and no write of any connection is refused. *)

From S2P Require Import Prelude Values Sql Engine Updates Conn Preserve Dal Invariant.

Local Open Scope py_scope.

Definition lock_ok (c : conn) : bool :=
  match c_txn c with None => negb (c_locked c) | Some _ => true end.

Definition others_unlocked (h : handle) (w : world) : Prop :=
  forall j c, j <> h -> w_conns w !! j = Some c -> c_locked c = false.

Definition lock_disc (h : handle) (w : world) : Prop :=
  Forall (fun c => lock_ok c = true) (w_conns w) /\ others_unlocked h w.

(** [m] changes no connection but [h], and [h] only within the
    discipline. *)
Abbreviation keeps_lock h := (preserves (lock_disc h)).

(** ** The pieces of the world *)

Lemma lock_ok_some p d l o : lock_ok (Conn p (Some d) l o) = true.
Proof. reflexivity. Qed.

Lemma lock_ok_free p o : lock_ok (Conn p None false o) = true.
Proof. reflexivity. Qed.

(** The connection [execute] leaves before it runs the statement: the
    lock is added only inside a transaction. *)
Lemma lock_ok_take c b o :
  lock_ok c = true ->
  lock_ok (Conn (c_path c) (c_txn c) (c_locked c || (b && bool_decide (c_txn c <> None))) o)
  = true.
Proof.
  unfold lock_ok. cbn [c_txn c_locked]. destruct (c_txn c); [reflexivity|].
  rewrite bool_decide_eq_false_2 by congruence. now rewrite andb_false_r, orb_false_r.
Qed.

#[export] Hint Resolve lock_ok_some lock_ok_free lock_ok_take : preserve.

Lemma update_conn_keeps_lock h c : lock_ok c = true -> keeps_lock h (update_conn h c).
Proof.
  intros Hc w [Hok Hoth]. split.
  - now apply Forall_insert.
  - intros j c' Hj. cbn. rewrite list_lookup_insert_ne by congruence. now apply Hoth.
Qed.

Lemma emit_keeps_lock h ev : keeps_lock h (emit ev).
Proof. now intros w Hw. Qed.

Lemma write_file_keeps_lock h p d :
  keeps_lock h (py_modify (fun w => set_files (<[p := d]> (w_files w)) w)).
Proof. now intros w Hw. Qed.

Lemma lock_ok_lookup h w j c : lock_disc h w -> w_conns w !! j = Some c -> lock_ok c = true.
Proof. intros [Hok _] E. exact (Forall_lookup_1 _ _ _ _ Hok E). Qed.

#[export] Hint Resolve update_conn_keeps_lock emit_keeps_lock write_file_keeps_lock : preserve.

(** ** The driver's operations on [h] *)

Lemma execute_keeps_lock cu sql params : keeps_lock (cu_conn cu) (execute cu sql params).
Proof.
  intros w Hw. unfold execute. unfold py_bind at 1.
  destruct (get_conn (cu_conn cu) w) as [[c|e] w'] eqn:Eg;
    apply get_conn_spec in Eg as [-> Hc]; [|exact Hw].
  destruct (Hc c eq_refl) as [Hc' _]. clear Hc.
  pose proof (lock_ok_lookup _ _ _ _ Hw Hc') as Hok.
  unfold py_bind at 1, py_get. cbv beta iota.
  destruct (parse_sql sql) as [s|]; [|exact Hw].
  destruct (prepare (view w c) s); [exact Hw|].
  set (c1 := if is_dml s && bool_decide (c_txn c = None) then _ else c).
  assert (Hok1 : lock_ok c1 = true)
    by (unfold c1; destruct (is_dml s && _); [reflexivity | exact Hok]).
  preserve_rest Hw. preserve_solve.
Qed.

Lemma commit_keeps_lock h : keeps_lock h (commit (Some h)).
Proof. unfold commit. preserve_solve. Qed.

#[export] Hint Resolve execute_keeps_lock commit_keeps_lock : preserve.

(** ** Release *)

Definition all_unlocked (w : world) : Prop := Forall (fun c => c_locked c = false) (w_conns w).

(** A [commit] that returns leaves [h] without the lock; under the
    discipline no connection holds one afterwards. *)
Lemma commit_releases h w u w' :
  lock_disc h w -> commit (Some h) w = (Ok u, w') -> all_unlocked w'.
Proof.
  intros [Hok Hoth]. unfold commit, py_bind at 1.
  destruct (get_conn h w) as [[c|e] w1] eqn:Eg;
    apply get_conn_spec in Eg as [-> Hc]; [|discriminate].
  destruct (Hc c eq_refl) as [Hc' _]. clear Hc. unfold all_unlocked.
  destruct (c_txn c) as [d|] eqn:Et.
  - intros Hcm. assert (Hw' : w_conns w' = <[h := Conn (c_path c) None false true]> (w_conns w))
      by (destruct (c_locked c); injection Hcm as _ <-; reflexivity).
    apply Forall_lookup. intros j c0. rewrite Hw'. destruct (decide (j = h)) as [->|Hj].
    + rewrite list_lookup_insert_eq by (eapply lookup_lt_Some; exact Hc'). now intros [= <-].
    + rewrite list_lookup_insert_ne by congruence. now apply Hoth.
  - cbn. intros [= _ <-]. apply Forall_lookup. intros j c0 Hj.
    destruct (decide (j = h)) as [->|Hne]; [|now apply (Hoth j)].
    rewrite Hc' in Hj. injection Hj as <-.
    pose proof (Forall_lookup_1 _ _ _ _ Hok Hc') as H. unfold lock_ok in H. rewrite Et in H.
    now apply negb_true_iff.
Qed.

Lemma unlocked_not_locked w h p : all_unlocked w -> locked_by_other w h p = false.
Proof.
  unfold all_unlocked, locked_by_other. generalize 0 as i. intros i H. revert i.
  induction H as [|c cs Hc _ IH]; intros i; [reflexivity|].
  cbn [locked_from]. rewrite Hc, andb_false_r. apply IH.
Qed.

(** A write through [h] that commits and returns releases every lock. *)
Lemma write_commit_releases {A} h sql params (k : cursor -> M A) w a w' :
  lock_disc h w ->
  (forall x w0 r w0', k x w0 = (r, w0') -> w_conns w0' = w_conns w0) ->
  (cur <- cursor_of (Some h) ;; cur' <- execute cur sql params ;; commit (Some h) ;; k cur') w
  = (Ok a, w') ->
  all_unlocked w'.
Proof.
  intros Hw Hk H.
  apply py_bind_ok_inv in H as (cu & w1 & E1 & H).
  destruct (cursor_of_cases (Some h) w) as (r & E & Hr). rewrite E in E1. injection E1 as -> <-.
  destruct (Hr cu eq_refl) as (h' & [= <-] & ->).
  apply py_bind_ok_inv in H as (cu' & w2 & E2 & H).
  apply py_bind_ok_inv in H as (u & w3 & E3 & H).
  pose proof (execute_keeps_lock (Cursor h [] None) sql params w Hw) as Hw2.
  rewrite E2 in Hw2. cbn in Hw2.
  unfold all_unlocked. rewrite (Hk _ _ _ _ H). exact (commit_releases h w2 u w3 Hw2 E3).
Qed.

Lemma ret_conns {A} (x : A) w0 r w0' : (py_ret x : M A) w0 = (r, w0') -> w_conns w0' = w_conns w0.
Proof. now intros [= _ <-]. Qed.

Lemma emit_conns ev w0 r w0' : emit ev w0 = (r, w0') -> w_conns w0' = w_conns w0.
Proof. now intros [= _ <-]. Qed.

(** C21 (liveness): a connection [h] outside any other's lock (every
    connection outside a transaction holds no lock, and none but [h] holds
    one; the situation C20 starts from, with [h] the holder) gives the
    lock up with its next write that returns: after an [add_item],
    [add_sale] or [delete_where] through [h] that returns, no connection
    holds the write lock, and the lock check of every connection's next
    write on every file passes. *)
Theorem writes_release_lock w h :
  Forall (fun c => lock_ok c = true) (w_conns w) -> others_unlocked h w ->
  (forall item a w', add_item (Some h) item w = (Ok a, w') ->
     forall h' p, locked_by_other w' h' p = false) /\
  (forall sale a w', add_sale (Some h) sale w = (Ok a, w') ->
     forall h' p, locked_by_other w' h' p = false) /\
  (forall t q u w', delete_where (Some h) t q w = (Ok u, w') ->
     forall h' p, locked_by_other w' h' p = false).
Proof.
  intros Hok Hoth. assert (Hw : lock_disc h w) by now split.
  refine (conj _ (conj _ _)).
  - intros item a w' H h' p. apply unlocked_not_locked.
    exact (write_commit_releases h add_item_sql item (fun cur => py_ret (cu_lastrowid cur)) w a w' Hw
             (fun _ => ret_conns _) H).
  - intros sale a w' H h' p. apply unlocked_not_locked.
    exact (write_commit_releases h add_sale_sql sale (fun cur => py_ret (cu_lastrowid cur)) w a w' Hw
             (fun _ => ret_conns _) H).
  - intros t q u w' H h' p. apply unlocked_not_locked.
    unfold delete_where in H. cbv zeta in H.
    exact (write_commit_releases h _ _ _ w u w' Hw (fun _ => emit_conns _) H).
Qed.
