(* ===== verification/Demo.v ===== *)
(** * Demo: the [__main__] script of src/bazajedenplik.py

    The script as one computation of the driver's world: the two CREATE
    TABLE scripts, two items and two sales inserted, the queries printed,
    the status of sale 1 updated, sale 1 deleted through a third
    connection.  The schema script is shown, on any store, to create
    the two tables when they are missing and to change nothing when they
    exist.  The script's runs on a fresh store and on the store a first
    run leaves are computed in full (examples of the findings), and the
    witnesses apply every theorem with hypotheses at such a store. *)

From S2P Require Import Prelude Values Sql Engine Updates Conn Preserve Dal Invariant Refine Locks.

Local Open Scope py_scope.
Local Open Scope string_scope.

Definition create_items_sql : string :=
  nl ++ "   -- projects table" ++ nl
  ++ "   CREATE TABLE IF NOT EXISTS items (" ++ nl
  ++ "      id integer PRIMARY KEY," ++ nl
  ++ "      nazwa text NOT NULL," ++ nl
  ++ "      quantity text," ++ nl
  ++ "      description text" ++ nl
  ++ "   );" ++ nl ++ "   ".

Definition create_sales_sql : string :=
  nl ++ "   -- zadanie table" ++ nl
  ++ "   CREATE TABLE IF NOT EXISTS sales (" ++ nl
  ++ "      id integer PRIMARY KEY," ++ nl
  ++ "      items_id integer NOT NULL," ++ nl
  ++ "      sales_quantity integer NOT NULL," ++ nl
  ++ "      status VARCHAR(15) NOT NULL," ++ nl
  ++ "      sales_date text NOT NULL," ++ nl
  ++ "      FOREIGN KEY (items_id) REFERENCES items (id)" ++ nl
  ++ "   );" ++ nl ++ "   ".

(** The tables the two scripts declare, as the engine reads them. *)
Definition items_schema : schema :=
  Schema "items" [Column "id" AInteger false; Column "nazwa" AText true;
                  Column "quantity" AText false; Column "description" AText false]
    (Some 0) [].

Definition sales_schema : schema :=
  Schema "sales" [Column "id" AInteger false; Column "items_id" AInteger true;
                  Column "sales_quantity" AInteger true; Column "status" AText true;
                  Column "sales_date" AText true]
    (Some 0) [FkDecl "items_id" "items" "id"].

Definition db_file : string := "mojabaza.db".

(** A [cur.lastrowid] passed on as a parameter. *)
Definition pyval_of_id (id : option Z) : pyval :=
  match id with Some z => PyInt z | None => PyNone end.

Definition item : list pyval :=
  [PyStr "Książki"; PyStr "Opowiadanki i takie tam inne"; PyStr "34"].
Definition item1 : list pyval :=
  [PyStr "Filmy"; PyStr "O tym i o tamtym"; PyStr "101"].

Definition print_rows (m : M (list (list value))) : M unit :=
  rows <- m ;; emit (EvRows rows).

Definition main : M unit :=
  conn <- create_connection db_file ;;
  (match conn with
   | Some _ =>
       execute_sql conn create_items_sql ;;
       execute_sql conn create_sales_sql ;;
       close conn
   | None => py_ret tt
   end) ;;
  conn <- create_connection "mojabaza.db" ;;
  pr_id <- add_item conn item ;;
  pr_id1 <- add_item conn item1 ;;
  let sale := [pyval_of_id pr_id; PyStr "4"; PyStr "started"; PyStr "2023-04-11 12:00:00"] in
  let sale1 := [pyval_of_id pr_id1; PyStr "15"; PyStr "started"; PyStr "2023-04-19 19:00:00"] in
  sale_id <- add_sale conn sale ;;
  sale_id1 <- add_sale conn sale1 ;;
  emit (EvIds [pr_id; pr_id1; sale_id; sale_id1]) ;;
  commit conn ;;
  print_rows (select_where conn "items" [("id", PyInt 1)]) ;;
  print_rows (select_where conn "sales" [("status", PyStr "started")]) ;;
  print_rows (select_all conn "items") ;;
  print_rows (select_all conn "sales") ;;
  update conn "sales" (PyInt 1) [("status", PyStr "done")] ;;
  print_rows (select_all conn "sales") ;;
  conn <- create_connection "mojabaza.db" ;;
  delete_where conn "sales" [("id", PyInt 1)] ;;
  print_rows (select_all conn "sales") ;;
  close conn.

(** The store before any run: no database file. *)
Definition fresh_world : world := World ∅ [] [] [].

(** ** A store with the script's two tables *)

(** The first lines of the script: the tables created, the connection
    closed, a new one opened (handle 1). *)
Definition schema_setup : M (option handle) :=
  conn <- create_connection db_file ;;
  (match conn with
   | Some _ =>
       execute_sql conn create_items_sql ;;
       execute_sql conn create_sales_sql ;;
       close conn
   | None => py_ret tt
   end) ;;
  create_connection db_file.

Definition setup_world : world := (schema_setup fresh_world).2.

(** The store right after [create_connection] on a fresh store. *)
Definition connected_world : world := (create_connection db_file fresh_world).2.

(** The script's connection after [create_connection], and the store a
    first run leaves. *)
Definition setup_conn : conn := Conn db_file None false true.

Definition after_run : world := Eval vm_compute in (main fresh_world).2.

Definition table_of (w : world) (t : string) : table :=
  default (Table (Schema t [] None []) []) (find_table (file_db w db_file) t).

(** [update(conn, "sales", 2, status="done")] at the store. *)
Definition sales_done : list row :=
  Eval vm_compute in
  match update_table (tb_schema (table_of after_run "sales")) [(CCol 3, VText "done")]
          [(CCol 0, VInt 2)] (tb_rows (table_of after_run "sales")) with
  | inr rows => rows
  | inl _ => []
  end.

(** ** The schema script *)

Section Schema.
Context (w : world) (h : handle) (c : conn).
Hypothesis Hc : w_conns w !! h = Some c.
Hypothesis Ho : c_open c = true.
Hypothesis Ht : c_txn c = None.
Hypothesis Hl : locked_by_other w h (c_path c) = false.

(** [execute_sql] of a [CREATE TABLE IF NOT EXISTS] script. *)
Lemma create_script sql t cds fks sc :
  parse_sql sql = Some (SCreate true t cds fks) -> schema_of_create t cds fks = inr sc ->
  execute_sql (Some h) sql w =
  match find_table (file_db w (c_path c)) t with
  | Some _ => (Ok tt, w)
  | None => (Ok tt, after_commit w h c ((file_db w (c_path c) ++ [Table sc []])%list))
  end.
Proof.
  intros Hs Hsc. assert (Hv : view w c = file_db w (c_path c)) by (unfold view; now rewrite Ht).
  unfold execute_sql, py_try. rewrite (py_bind_ok _ _ _ _ _ (cursor_of_ok w h c Hc Ho)).
  destruct (find_table (file_db w (c_path c)) t) as [tb|] eqn:Ef.
  - assert (Hp : prepare (view w c) (SCreate true t cds fks) = inr PlNoop)
      by (rewrite Hv; cbn; now rewrite Ef).
    now rewrite (py_bind_ok _ _ _ _ _
                   (execute_read w (Cursor h [] None) sql [] c _ _ [] (ExecResult (view w c) [] None)
                      Hc Ho Hs eq_refl Hp eq_refl eq_refl eq_refl eq_refl)).
  - assert (Hp : prepare (file_db w (c_path c)) (SCreate true t cds fks) = inr (PlCreate sc))
      by (cbn; now rewrite Ef, Hsc).
    now rewrite (py_bind_ok _ _ _ _ _
                   (execute_autocommit w (Cursor h [] None) sql [] c _ _ [] _
                      Hc Ho Ht Hs eq_refl Hp eq_refl eq_refl eq_refl Hl eq_refl)).
Qed.

(** The scripts read as CREATE TABLE IF NOT EXISTS of the declared
    schemas. *)
Lemma create_items_sql_schema :
  exists cds fks, parse_sql create_items_sql = Some (SCreate true "items" cds fks) /\
    schema_of_create "items" cds fks = inr items_schema.
Proof.
  exists (match parse_sql create_items_sql with Some (SCreate _ _ cds _) => cds | _ => [] end),
    (match parse_sql create_items_sql with Some (SCreate _ _ _ fks) => fks | _ => [] end).
  vm_compute. split; reflexivity.
Qed.

Lemma create_sales_sql_schema :
  exists cds fks, parse_sql create_sales_sql = Some (SCreate true "sales" cds fks) /\
    schema_of_create "sales" cds fks = inr sales_schema.
Proof.
  exists (match parse_sql create_sales_sql with Some (SCreate _ _ cds _) => cds | _ => [] end),
    (match parse_sql create_sales_sql with Some (SCreate _ _ _ fks) => fks | _ => [] end).
  vm_compute. split; reflexivity.
Qed.

(** C6 (functional): the schema script of [__main__], through a
    connection outside a transaction whose file no other connection
    locks: [execute_sql conn create_items_sql] adds an empty [items]
    table of the declared columns ([id] the INTEGER PRIMARY KEY, [nazwa]
    NOT NULL, [quantity], [description]) and commits it at once when the
    database has no [items] table, and changes nothing, printing
    nothing, when it has one (IF NOT EXISTS); the same holds of
    [create_sales_sql] and [sales] with its NOT NULL columns and its
    foreign key to [items]. *)
Theorem schema_script :
  execute_sql (Some h) create_items_sql w =
  match find_table (file_db w (c_path c)) "items" with
  | Some _ => (Ok tt, w)
  | None => (Ok tt, after_commit w h c ((file_db w (c_path c) ++ [Table items_schema []])%list))
  end /\
  execute_sql (Some h) create_sales_sql w =
  match find_table (file_db w (c_path c)) "sales" with
  | Some _ => (Ok tt, w)
  | None => (Ok tt, after_commit w h c ((file_db w (c_path c) ++ [Table sales_schema []])%list))
  end.
Proof.
  destruct create_items_sql_schema as (cds & fks & Hs & Hsc).
  destruct create_sales_sql_schema as (cds' & fks' & Hs' & Hsc').
  split; eapply create_script; eassumption.
Qed.

End Schema.

(** ** Runs of the script *)

(** The script, run on a store without the database
    file, ends normally and prints the four ids (1, 2, 1, 2), the item of
    id 1, the sales "started", both tables, "OK" and the sales after
    sale 1 is set "done", "Deleted" and the one sale left.  The first
    item's quantity is the text meant as its description, and its
    description "34": the tuple [item] lists the values in another order
    than the INSERT's columns. *)
Example main_first_run :
  (main fresh_world).1 = Ok tt /\
  w_out (main fresh_world).2 =
  [EvIds [Some 1%Z; Some 2%Z; Some 1%Z; Some 2%Z];
   EvRows [[VInt 1; VText "Książki"; VText "Opowiadanki i takie tam inne"; VText "34"]];
   EvRows [[VInt 1; VInt 1; VInt 4; VText "started"; VText "2023-04-11 12:00:00"];
           [VInt 2; VInt 2; VInt 15; VText "started"; VText "2023-04-19 19:00:00"]];
   EvRows [[VInt 1; VText "Książki"; VText "Opowiadanki i takie tam inne"; VText "34"];
           [VInt 2; VText "Filmy"; VText "O tym i o tamtym"; VText "101"]];
   EvRows [[VInt 1; VInt 1; VInt 4; VText "started"; VText "2023-04-11 12:00:00"];
           [VInt 2; VInt 2; VInt 15; VText "started"; VText "2023-04-19 19:00:00"]];
   EvText "OK";
   EvRows [[VInt 1; VInt 1; VInt 4; VText "done"; VText "2023-04-11 12:00:00"];
           [VInt 2; VInt 2; VInt 15; VText "started"; VText "2023-04-19 19:00:00"]];
   EvText "Deleted";
   EvRows [[VInt 2; VInt 2; VInt 15; VText "started"; VText "2023-04-19 19:00:00"]]].
Proof. split; vm_compute; reflexivity. Qed.

(** Run again on the store the first run leaves: the new items and sales
    get the ids 3 and 4, the query [id=1] still finds the first item,
    and the update and the deletion of sale 1 find no row — sale 1 was
    deleted by the first run — so the sales table keeps sales 2, 3 and
    4 unchanged. *)
Example main_second_run :
  let w1 := (main fresh_world).2 in
  (main w1).1 = Ok tt /\
  w_out (main w1).2 = (w_out w1 ++
  [EvIds [Some 3%Z; Some 4%Z; Some 3%Z; Some 4%Z];
   EvRows [[VInt 1; VText "Książki"; VText "Opowiadanki i takie tam inne"; VText "34"]];
   EvRows [[VInt 2; VInt 2; VInt 15; VText "started"; VText "2023-04-19 19:00:00"];
           [VInt 3; VInt 3; VInt 4; VText "started"; VText "2023-04-11 12:00:00"];
           [VInt 4; VInt 4; VInt 15; VText "started"; VText "2023-04-19 19:00:00"]];
   EvRows [[VInt 1; VText "Książki"; VText "Opowiadanki i takie tam inne"; VText "34"];
           [VInt 2; VText "Filmy"; VText "O tym i o tamtym"; VText "101"];
           [VInt 3; VText "Książki"; VText "Opowiadanki i takie tam inne"; VText "34"];
           [VInt 4; VText "Filmy"; VText "O tym i o tamtym"; VText "101"]];
   EvRows [[VInt 2; VInt 2; VInt 15; VText "started"; VText "2023-04-19 19:00:00"];
           [VInt 3; VInt 3; VInt 4; VText "started"; VText "2023-04-11 12:00:00"];
           [VInt 4; VInt 4; VInt 15; VText "started"; VText "2023-04-19 19:00:00"]];
   EvText "OK";
   EvRows [[VInt 2; VInt 2; VInt 15; VText "started"; VText "2023-04-19 19:00:00"];
           [VInt 3; VInt 3; VInt 4; VText "started"; VText "2023-04-11 12:00:00"];
           [VInt 4; VInt 4; VInt 15; VText "started"; VText "2023-04-19 19:00:00"]];
   EvText "Deleted";
   EvRows [[VInt 2; VInt 2; VInt 15; VText "started"; VText "2023-04-19 19:00:00"];
           [VInt 3; VInt 3; VInt 4; VText "started"; VText "2023-04-11 12:00:00"];
           [VInt 4; VInt 4; VInt 15; VText "started"; VText "2023-04-19 19:00:00"]]])%list.
Proof. split; vm_compute; reflexivity. Qed.

(** ** Foreign keys *)

(** The schema declares [items_id] a foreign key of
    [items], but nothing enforces it: on the fresh tables, with no item
    at all, [add_sale] of a sale whose [items_id] is 42 is stored and
    gets id 1. *)
Example add_sale_dangling_item :
  select_all (Some 1) "items" setup_world = (Ok [], setup_world) /\
  (add_sale (Some 1) [PyInt 42; PyStr "4"; PyStr "started"; PyStr "2023-04-11 12:00:00"]
     setup_world).1 = Ok (Some 1%Z) /\
  (select_all (Some 1) "sales"
     (add_sale (Some 1) [PyInt 42; PyStr "4"; PyStr "started"; PyStr "2023-04-11 12:00:00"]
        setup_world).2).1
  = Ok [[VInt 1; VInt 42; VInt 4; VText "started"; VText "2023-04-11 12:00:00"]].
Proof. vm_compute. repeat split. Qed.

(** The script keeps the invariant of [Invariant]. *)
Lemma main_keeps : keeps main.
Proof. unfold main, print_rows. preserve_solve. Qed.

(** A second connection (handle 3) opened after the run, while
    connection 1 holds the write lock its failed [update] took (NULL
    for the NOT NULL column [nazwa]). *)
Definition locked_world : world :=
  Eval vm_compute in
    (update (Some 1) "items" (PyInt 1) [("nazwa", PyNone)] (create_connection db_file after_run).2).2.

(** The store the first run leaves is well formed. *)
Lemma after_run_wf : wf_world after_run.
Proof.
  assert (E : (main fresh_world).2 = after_run) by (vm_compute; reflexivity).
  rewrite <- E. apply main_keeps. split; [apply map_Forall_empty | constructor].
Qed.

(** ** The properties at the script's store

    Each property of [Dal] and [Invariant] with hypotheses, at the store
    the first run leaves (connection 1 open, items 1 and 2, sale 2), its
    hypotheses evaluated. *)

Ltac discharge :=
  first [ apply wf_table_b_sound; vm_compute; reflexivity
        | vm_compute; reflexivity
        | discriminate ].

Lemma add_item_then_select_witness :
  let w' := after_commit after_run 1 setup_conn
              (set_table (view after_run setup_conn)
                 (Table (tb_schema (table_of after_run "items"))
                    (insert_by_key (3%Z, [VInt 3; VText "Filmy"; VText "O tym i o tamtym"; VText "101"])
                       (tb_rows (table_of after_run "items"))))) in
  add_item (Some 1) item1 after_run = (Ok (Some 3%Z), w') /\
  select_where (Some 1) "items" [("id", PyInt 3)] w'
  = (Ok [[VInt 3; VText "Filmy"; VText "O tym i o tamtym"; VText "101"]], w').
Proof.
  refine (add_item_then_select after_run 1 setup_conn item1 (table_of after_run "items")
           [CCol 1; CCol 2; CCol 3] [VText "Filmy"; VText "O tym i o tamtym"; VText "101"]
           (3%Z, [VInt 3; VText "Filmy"; VText "O tym i o tamtym"; VText "101"]) (CCol 0)
           _ _ _ _ _
           _ _ _ _ _
           _ _ _).
  all: discharge.
Defined.

Lemma select_where_conjunction_witness :
  exists res, select_where (Some 1) "sales" [("status", PyStr "started")] after_run
              = (Ok res, after_run) /\
  forall out, In out res <->
    exists r, In r (tb_rows (table_of after_run "sales")) /\ row_out r = out /\
      Forall (fun cv => sql_eqb (row_get r cv.1)
                          (apply_affinity (ref_affinity (tb_schema (table_of after_run "sales")) cv.1)
                             cv.2) = true)
             (zip [CCol 3] [VText "started"]).
Proof.
  refine (select_where_conjunction after_run 1 setup_conn "sales" [("status", PyStr "started")]
           (table_of after_run "sales") [CCol 3] [VText "started"]
           _ _ _ _ _
           _ _ _).
  all: discharge.
Defined.

Lemma update_only_named_witness :
  update (Some 1) "sales" (PyInt 2) [("status", PyStr "done")] after_run =
    (Ok tt, add_out (EvText "OK")
              (after_commit after_run 1 setup_conn
                 (set_table (view after_run setup_conn)
                    (Table (tb_schema (table_of after_run "sales")) sales_done)))) /\
  Forall2 (fun r r' =>
             if row_matches (tb_schema (table_of after_run "sales")) (zip [CCol 0] [VInt 2]) r then
               r'.1 = r.1 /\
               (forall i, r'.2 !! i = match r.2 !! i with
                                      | None => None
                                      | Some _ => assigned (tb_schema (table_of after_run "sales"))
                                                    (zip [CCol 3] [VText "done"]) (r.2 !! i) i
                                      end) /\
               (forall i, Forall (fun sv => sv.1 <> CCol i) (zip [CCol 3] [VText "done"]) ->
                          r'.2 !! i = r.2 !! i)
             else r' = r)
          (tb_rows (table_of after_run "sales")) sales_done.
Proof.
  refine (update_only_named after_run 1 setup_conn "sales" (PyInt 2) [("status", PyStr "done")]
           (table_of after_run "sales") [CCol 3] [CCol 0] [VText "done"] (VInt 2) sales_done
           _ _ _ _ _
           _ _ _ _ _
           _ _ _ _ _).
  all: discharge.
Defined.

Lemma update_idempotent_witness :
  let w1 := add_out (EvText "OK")
              (after_commit after_run 1 setup_conn
                 (set_table (view after_run setup_conn)
                    (Table (tb_schema (table_of after_run "sales")) sales_done))) in
  update (Some 1) "sales" (PyInt 2) [("status", PyStr "done")] after_run = (Ok tt, w1) /\
  update (Some 1) "sales" (PyInt 2) [("status", PyStr "done")] w1
    = (Ok tt, add_out (EvText "OK") w1).
Proof.
  refine (update_idempotent after_run 1 setup_conn "sales" (PyInt 2) [("status", PyStr "done")]
           (table_of after_run "sales") [CCol 3] (CCol 0) [VText "done"] (VInt 2) sales_done
           _ _ _ _ _
           _ _ _ _ _
           _ _ _ _ _
           _).
  all: discharge.
Defined.

Lemma delete_where_spec_witness :
  let rows' := delete_rows (tb_schema (table_of after_run "sales")) (zip [CCol 0] [VInt 2])
                 (tb_rows (table_of after_run "sales")) in
  delete_where (Some 1) "sales" [("id", PyInt 2)] after_run =
    (Ok tt, add_out (EvText "Deleted")
              (after_commit after_run 1 setup_conn
                 (set_table (view after_run setup_conn)
                    (Table (tb_schema (table_of after_run "sales")) rows')))) /\
  (forall r, In r rows' <-> In r (tb_rows (table_of after_run "sales")) /\
       row_matches (tb_schema (table_of after_run "sales")) (zip [CCol 0] [VInt 2]) r = false) /\
  (Forall (fun r => row_matches (tb_schema (table_of after_run "sales"))
                      (zip [CCol 0] [VInt 2]) r = false) (tb_rows (table_of after_run "sales")) ->
   rows' = tb_rows (table_of after_run "sales")).
Proof.
  refine (delete_where_spec after_run 1 setup_conn "sales" [("id", PyInt 2)]
           (table_of after_run "sales") [CCol 0] [VInt 2]
           _ _ _ _ _
           _ _ _ _ _).
  all: discharge.
Defined.


(** [update(conn, "items", 1, nazwa=None)]: [nazwa] is NOT NULL. *)
Lemma update_constraint_witness :
  update (Some 1) "items" (PyInt 1) [("nazwa", PyNone)] after_run =
  (Raise (IntegrityError (ENotNull "items" "nazwa")),
   set_conns (<[1 := Conn (c_path setup_conn) (Some (view after_run setup_conn)) true true]>
                (w_conns after_run)) after_run).
Proof.
  refine (update_constraint after_run 1 setup_conn _ _
           _ _ "items" (PyInt 1) [("nazwa", PyNone)]
           (table_of after_run "items") [CCol 1] [CCol 0] [VNull] (VInt 1)
           (ENotNull "items" "nazwa")
           _ _ _ _ _
           _ _ _ _).
  all: discharge.
Defined.

Lemma empty_filters_fail_witness :
  select_where (Some 1) "sales" [] after_run = (Raise (OperationalError ESyntax), after_run) /\
  delete_where (Some 1) "sales" [] after_run = (Raise (OperationalError ESyntax), after_run) /\
  update (Some 1) "sales" (PyInt 1) [] after_run
    = (Ok tt, add_out (EvExc (OperationalError ESyntax)) after_run).
Proof.
  refine (empty_filters_fail after_run 1 setup_conn "sales" (PyInt 1)
           _ _ _).
  all: discharge.
Defined.

Lemma add_item_overflow_witness :
  add_item (Some 1) [PyStr "Filmy"; PyInt (2 ^ 63)%Z; PyStr "101"] after_run
  = (Raise OverflowError,
     set_conns (<[1 := Conn db_file (Some (file_db after_run db_file)) false true]>
                  (w_conns after_run)) after_run).
Proof.
  refine (add_item_overflow after_run 1 setup_conn _ _ _
           [PyStr "Filmy"; PyInt (2 ^ 63)%Z; PyStr "101"] (table_of after_run "items")
           [CCol 1; CCol 2; CCol 3] _ _ _
           _).
  1-6: discharge.
  apply Exists_cons_tl, Exists_cons_hd. exists (2 ^ 63)%Z. split; [reflexivity | discharge].
Defined.

Lemma schema_script_witness :
  execute_sql (Some 0) create_items_sql connected_world =
  match find_table (file_db connected_world (c_path setup_conn)) "items" with
  | Some _ => (Ok tt, connected_world)
  | None => (Ok tt, after_commit connected_world 0 setup_conn
                     ((file_db connected_world (c_path setup_conn) ++ [Table items_schema []])%list))
  end /\
  execute_sql (Some 0) create_sales_sql connected_world =
  match find_table (file_db connected_world (c_path setup_conn)) "sales" with
  | Some _ => (Ok tt, connected_world)
  | None => (Ok tt, after_commit connected_world 0 setup_conn
                     ((file_db connected_world (c_path setup_conn) ++ [Table sales_schema []])%list))
  end.
Proof.
  refine (schema_script connected_world 0 setup_conn _ _ _ _). all: discharge.
Defined.

Lemma create_connection_refused_witness :
  create_connection "/root/missing/mojabaza.db" (World ∅ [] ["/root/missing/mojabaza.db"] [])
  = (Ok None, add_out (EvExc (OperationalError ECantOpen))
                      (World ∅ [] ["/root/missing/mojabaza.db"] [])) /\
  add_item None item (World ∅ [] ["/root/missing/mojabaza.db"] [])
  = (Raise AttributeError, World ∅ [] ["/root/missing/mojabaza.db"] []).
Proof.
  refine (create_connection_refused (World ∅ [] ["/root/missing/mojabaza.db"] [])
           "/root/missing/mojabaza.db" item _).
  all: discharge.
Defined.

Lemma select_where_order_witness :
  select_where (Some 1) "sales" [("items_id", PyInt 2); ("status", PyStr "started")] after_run
  = select_where (Some 1) "sales" [("status", PyStr "started"); ("items_id", PyInt 2)] after_run.
Proof.
  refine (select_where_order after_run 1 setup_conn "sales"
           [("status", PyStr "started"); ("items_id", PyInt 2)]
           [("items_id", PyInt 2); ("status", PyStr "started")]
           (table_of after_run "sales") [CCol 3; CCol 1] [VText "started"; VInt 2]
           _ _ _ _ _
           _ _ _ _).
  1-8: discharge.
  apply perm_swap.
Defined.

Lemma add_item_next_id_witness :
  (add_item (Some 1) item1 after_run).1 = Ok (Some 3%Z) /\
  3%Z = default 1%Z ((fun r0 : row => r0.1 + 1)%Z <$> last (tb_rows (table_of after_run "items"))) /\
  Forall (fun k => (k < 3)%Z) (map fst (tb_rows (table_of after_run "items"))).
Proof.
  refine (add_item_next_id after_run 1 setup_conn item1 (table_of after_run "items")
           [CCol 1; CCol 2; CCol 3] [VText "Filmy"; VText "O tym i o tamtym"; VText "101"]
           (3%Z, [VInt 3; VText "Filmy"; VText "O tym i o tamtym"; VText "101"])
           _ _ _ _ _
           _ _ _ _ _
           _ _).
  all: try discharge.
  - apply (bool_decide_unpack _). vm_compute. reflexivity.
  - intros p Hp. vm_compute in Hp. injection Hp as <-.
    apply (bool_decide_unpack _). vm_compute. reflexivity.
Defined.

Lemma select_all_spec_witness :
  select_all (Some 1) "sales" after_run =
  match find_table (view after_run setup_conn) "sales" with
  | Some tb => (Ok (map row_out (tb_rows tb)), after_run)
  | None => (Raise (OperationalError (ENoTable "sales")), after_run)
  end /\
  select_all (Some 1) "orders" after_run =
  match find_table (view after_run setup_conn) "orders" with
  | Some tb => (Ok (map row_out (tb_rows tb)), after_run)
  | None => (Raise (OperationalError (ENoTable "orders")), after_run)
  end.
Proof.
  split; [refine (select_all_spec after_run 1 setup_conn _ _ "sales" _)
         |refine (select_all_spec after_run 1 setup_conn _ _ "orders" _)].
  all: discharge.
Defined.


Lemma inserts_refine_witness :
  (forall item a w', add_item (Some 1) item after_run = (Ok a, w') ->
     inserted (file_db after_run db_file) (file_db w' db_file) "items" a) /\
  (forall sale a w', add_sale (Some 1) sale after_run = (Ok a, w') ->
     inserted (file_db after_run db_file) (file_db w' db_file) "sales" a).
Proof. refine (inserts_refine after_run 1 setup_conn _ _); discharge. Defined.

Lemma delete_where_refines_witness :
  exists tb rs vals,
    find_table (file_db after_run db_file) "sales" = Some tb /\
    resolve_cols (tb_schema tb) ["status"] = inr rs /\
    bind_values [PyStr "started"] = Some vals /\
    deleted (file_db after_run db_file)
            (file_db (delete_where (Some 1) "sales" [("status", PyStr "started")] after_run).2 db_file)
            "sales" (row_matches (tb_schema tb) (zip rs vals)).
Proof.
  refine (delete_where_refines after_run 1 setup_conn "sales" [("status", PyStr "started")] tt
            (delete_where (Some 1) "sales" [("status", PyStr "started")] after_run).2
            after_run_wf _ _ _ _ _ _).
  all: discharge.
Defined.

Lemma writes_locked_out_witness :
  let w1 := set_conns (<[3 := Conn db_file (Some (file_db locked_world db_file)) false true]>
                         (w_conns locked_world)) locked_world in
  add_item (Some 3) item1 locked_world = (Raise (OperationalError ELocked), w1) /\
  update (Some 3) "items" (PyInt 1) [("quantity", PyStr "5")] locked_world
  = (Ok tt, add_out (EvExc (OperationalError ELocked)) w1).
Proof.
  refine (writes_locked_out locked_world 3 (Conn db_file None false true) item1
            (table_of locked_world "items") [CCol 1; CCol 2; CCol 3]
            [VText "Filmy"; VText "O tym i o tamtym"; VText "101"]
            "items" (PyInt 1) [("quantity", PyStr "5")] (table_of locked_world "items")
            [CCol 2] [CCol 0] [VText "5"] (VInt 1)
            _ _ _ _ _ _ _ _ _ _ _ _ _ _ _ _).
  all: discharge.
Defined.


Lemma writes_release_lock_witness :
  (forall item a w', add_item (Some 1) item locked_world = (Ok a, w') ->
     forall h' p, locked_by_other w' h' p = false) /\
  (forall sale a w', add_sale (Some 1) sale locked_world = (Ok a, w') ->
     forall h' p, locked_by_other w' h' p = false) /\
  (forall t q u w', delete_where (Some 1) t q locked_world = (Ok u, w') ->
     forall h' p, locked_by_other w' h' p = false).
Proof.
  refine (writes_release_lock locked_world 1 _ _).
  - apply List.Forall_forall, (forallb_forall lock_ok). vm_compute. reflexivity.
  - intros j c Hj Hl. destruct j as [|[|[|[|j]]]]; vm_compute in Hl; try congruence.
    all: injection Hl as <-; reflexivity.
Defined.

Lemma update_refines_witness :
  exists vs, bind_values [PyStr "done"] = Some vs /\
    updated (file_db after_run db_file)
            (file_db (update (Some 1) "sales" (PyInt 2) [("status", PyStr "done")] after_run).2 db_file)
            "sales" 2 (fold_left (set_value (tb_schema (table_of after_run "sales"))) (zip [CCol 3] vs)).
Proof.
  refine (update_refines after_run 1 setup_conn "sales" 2 [("status", PyStr "done")]
            (update (Some 1) "sales" (PyInt 2) [("status", PyStr "done")] after_run).2
            (table_of after_run "sales") [CCol 3] (CCol 0)
            after_run_wf _ _ _ _ _ _ _ _ _ _ _ _ _).
  all: discharge.
Defined.

Lemma update_error_no_write_witness :
  is_operational (OperationalError (ENoColumn "bogus")) = true /\
  w_files (update (Some 1) "sales" (PyInt 2) [("bogus", PyStr "x")] after_run).2 = w_files after_run.
Proof.
  refine (update_error_no_write (Some 1) "sales" (PyInt 2) [("bogus", PyStr "x")] after_run
            (update (Some 1) "sales" (PyInt 2) [("bogus", PyStr "x")] after_run).2
            (OperationalError (ENoColumn "bogus")) _ _).
  all: vm_compute; reflexivity.
Defined.
